(** * Self_Evolving_AI: health monitoring and goal lifecycle

    A shallow embedding of [self_preservation.py] (class [SelfPreservation])
    and [goal_system.py] (class [GoalSystem]), with the properties of the
    specification that concern them and further properties that the code
    has: invariants over runs of the goal system, what the dependency search
    decides, the order of the lists the methods return, and how failures,
    reports and recoveries move the health score.

    Conventions of the embedding.
    - A Python object with mutable fields is a record; a method is a function
      from the object (and the clock reading, where the method reads the
      clock) to the new object and the returned value.
    - [time.time()] and [datetime.now()] are one clock; a reading is a
      rational number of seconds since the epoch (the code's floats), and an
      ISO time stamp written by [isoformat()] and read back by
      [fromisoformat()] is that reading.
    - A Python dict with a fixed set of keys is a record; a key that may be
      absent is an [option] field.  The dict of components keeps its
      insertion order and is an association list with unique keys.
    - An exception that leaves a method is a constructor of the method's
      result type.
    - The backup directory is the list of its entries, each a file name with
      its modification time; a file's content is what reading it gives. *)

From Stdlib Require Import ZArith QArith Qminmax Qround Sorted Lia Lqa.
From stdpp Require Import base decidable option list strings pretty gmap.

Open Scope string_scope.
Open Scope list_scope.
Open Scope Z_scope.

(** ** Python helpers shared by both classes *)

(** [x < y] on clock readings and progress values. *)
Definition Qltb (x y : Q) : bool := negb (Qle_bool y x).

(** [int(x)]: truncation toward zero. *)
Definition py_int (x : Q) : Z := Z.quot (Qnum x) (Zpos (Qden x)).

(** [len(l)] *)
Definition len {A} (l : list A) : Z := Z.of_nat (length l).

(** [s in l] for a list (or the keys of a dict) of strings. *)
Definition str_in (s : string) (l : list string) : bool :=
  existsb (String.eqb s) l.

(** Python dicts keyed by strings, in insertion order. *)
Section Dict.
Context {V : Type}.

(** [d.get(k)] *)
Fixpoint dict_get (k : string) (d : list (string * V)) : option V :=
  match d with
  | [] => None
  | (k', v) :: d' => if String.eqb k k' then Some v else dict_get k d'
  end.

(** [d[k] = v]: an existing key keeps its position, a new key goes last. *)
Fixpoint dict_set (k : string) (v : V) (d : list (string * V)) : list (string * V) :=
  match d with
  | [] => [(k, v)]
  | (k', v') :: d' =>
      if String.eqb k k' then (k', v) :: d' else (k', v') :: dict_set k v d'
  end.

(** [k in d] *)
Definition dict_mem (k : string) (d : list (string * V)) : bool :=
  match dict_get k d with Some _ => true | None => false end.

End Dict.

(** * self_preservation.py *)

Module SelfPreservation.

(** An entry of [component_states]. *)
Record Component := mkComponent {
  state : string;
  last_heartbeat : Q;
  error_count : Z;
  recovery_count : Z;
  last_error : option Q
}.

(** The dict handed to [report_error]; caller-supplied keys other than these
    are carried along unread. *)
Record ErrorData := mkErrorData {
  ed_component : option string;
  ed_error_type : option string;
  ed_description : option string;
  ed_severity : option string;
  ed_requires_immediate_recovery : bool;
  ed_recovery_type : option string
}.

(** The dicts appended to [error_log], one constructor per place that
    appends.  Only some of them carry the key ["timestamp"]. *)
Inductive LogEntry :=
| ComponentError (component previous_state : string) (timestamp : Q)
| Reported (data : ErrorData) (timestamp : Q) (error_id : string)
| Failure (error_type description : string)
| StateChange (description : string) (timestamp : Q).

(** [error["timestamp"]] when ["timestamp" in error]. *)
Definition entry_timestamp (e : LogEntry) : option Q :=
  match e with
  | ComponentError _ _ t => Some t
  | Reported _ t _ => Some t
  | Failure _ _ => None
  | StateChange _ t => Some t
  end.

Record Counters := mkCounters {
  total_recoveries : Z;
  failed_recoveries : Z;
  strategy_usage : list (string * Z)
}.

(** The fields of a [SelfPreservation] object that its methods change. *)
Record t := mkSP {
  system_state : string;
  error_log : list LogEntry;
  monitoring_active : bool;
  last_state_save : Q;
  recovery_counters : Counters;
  component_states : list (string * Component);
  shutdown_requested : bool
}.

(** [error_thresholds], set once by [__init__]. *)
Definition consecutive_failures : Z := 3.
Definition errors_per_minute : Z := 5.

(** The keys of [recovery_strategies]. *)
Definition recovery_strategies : list string :=
  ["memory_overflow"; "process_hang"; "data_corruption";
   "component_failure"; "resource_exhaustion"].

(** [__init__] *)
Definition init (now : Q) : t :=
  {| system_state := "initializing";
     error_log := [];
     monitoring_active := false;
     last_state_save := now;
     recovery_counters := mkCounters 0 0 [];
     component_states := [];
     shutdown_requested := false |}.

Definition set_system_state (s : string) (sp : t) : t :=
  mkSP s (error_log sp) (monitoring_active sp) (last_state_save sp)
       (recovery_counters sp) (component_states sp) (shutdown_requested sp).

Definition set_error_log (l : list LogEntry) (sp : t) : t :=
  mkSP (system_state sp) l (monitoring_active sp) (last_state_save sp)
       (recovery_counters sp) (component_states sp) (shutdown_requested sp).

Definition set_monitoring_active (b : bool) (sp : t) : t :=
  mkSP (system_state sp) (error_log sp) b (last_state_save sp)
       (recovery_counters sp) (component_states sp) (shutdown_requested sp).

Definition set_last_state_save (q : Q) (sp : t) : t :=
  mkSP (system_state sp) (error_log sp) (monitoring_active sp) q
       (recovery_counters sp) (component_states sp) (shutdown_requested sp).

Definition set_recovery_counters (c : Counters) (sp : t) : t :=
  mkSP (system_state sp) (error_log sp) (monitoring_active sp) (last_state_save sp)
       c (component_states sp) (shutdown_requested sp).

Definition set_component_states (cs : list (string * Component)) (sp : t) : t :=
  mkSP (system_state sp) (error_log sp) (monitoring_active sp) (last_state_save sp)
       (recovery_counters sp) cs (shutdown_requested sp).

Definition set_shutdown_requested (b : bool) (sp : t) : t :=
  mkSP (system_state sp) (error_log sp) (monitoring_active sp) (last_state_save sp)
       (recovery_counters sp) (component_states sp) b.

(** [_update_system_state] *)
Definition _update_system_state (new_state : string) (now : Q) (sp : t) : t :=
  let old_state := system_state sp in
  let sp := set_system_state new_state sp in
  if negb (String.eqb old_state new_state) then
    set_error_log
      (error_log sp ++
         [StateChange ("System state changed from " +:+ old_state +:+ " to " +:+ new_state) now])
      sp
  else sp.

(** [start_monitoring] (the thread it starts is not part of the model) *)
Definition start_monitoring (sp : t) : t * bool :=
  if monitoring_active sp then (sp, false)
  else (set_system_state "stable" (set_monitoring_active true sp), true).

(** [stop_monitoring] *)
Definition stop_monitoring (sp : t) : t * bool :=
  if negb (monitoring_active sp) then (sp, false)
  else (set_monitoring_active false sp, true).

(** [register_component] *)
Definition register_component (component_name initial_state : string) (now : Q) (sp : t) : t :=
  set_component_states
    (dict_set component_name (mkComponent initial_state now 0 0 None) (component_states sp))
    sp.

(** [update_component_state] *)
Definition update_component_state (component_name new_state : string) (now : Q) (sp : t)
  : t * bool :=
  match dict_get component_name (component_states sp) with
  | None => (sp, false)
  | Some c =>
      let previous_state := state c in
      let c1 := mkComponent new_state now (error_count c) (recovery_count c) (last_error c) in
      let sp1 := set_component_states (dict_set component_name c1 (component_states sp)) sp in
      if negb (String.eqb previous_state new_state) then
        if String.eqb new_state "error" && negb (String.eqb previous_state "error") then
          let c2 := mkComponent new_state now (error_count c + 1) (recovery_count c) (Some now) in
          let sp2 :=
            set_component_states (dict_set component_name c2 (component_states sp1)) sp1 in
          let sp3 :=
            set_error_log (error_log sp2 ++ [ComponentError component_name previous_state now])
                          sp2 in
          if str_in component_name ["safety_filter"; "main_assistant"] then
            (_update_system_state "degraded" now sp3, true)
          else (sp3, true)
        else (sp1, true)
      else (sp1, true)
  end.

(** [component_heartbeat] *)
Definition component_heartbeat (component_name : string) (now : Q) (sp : t) : t * bool :=
  match dict_get component_name (component_states sp) with
  | None => (sp, false)
  | Some c =>
      let c1 := mkComponent (state c) now (error_count c) (recovery_count c) (last_error c) in
      (set_component_states (dict_set component_name c1 (component_states sp)) sp, true)
  end.

(** [_recover_component_failure]: the only strategy that touches the object;
    every strategy reports [success = True]. *)
Definition _recover_component_failure (context : ErrorData) (now : Q) (sp : t) : t * bool :=
  let component := default "unknown" (ed_component context) in
  match dict_get component (component_states sp) with
  | None => (sp, true)
  | Some c =>
      let c1 := mkComponent "restarting" now (error_count c) (recovery_count c) (last_error c) in
      let c2 := mkComponent "active" now (error_count c) (recovery_count c + 1) (last_error c) in
      let sp1 := set_component_states (dict_set component c1 (component_states sp)) sp in
      (set_component_states (dict_set component c2 (component_states sp1)) sp1, true)
  end.

Definition run_strategy (recovery_type : string) (context : ErrorData) (now : Q) (sp : t)
  : t * bool :=
  if String.eqb recovery_type "component_failure"
  then _recover_component_failure context now sp
  else (sp, true).

Definition bump_failed (sp : t) : t :=
  let rc := recovery_counters sp in
  set_recovery_counters
    (mkCounters (total_recoveries rc) (failed_recoveries rc + 1) (strategy_usage rc)) sp.

(** [_attempt_recovery]; the result is the [success] key of the returned dict. *)
Definition _attempt_recovery (recovery_type : string) (context : ErrorData) (now : Q) (sp : t)
  : t * bool :=
  let rc := recovery_counters sp in
  let usage :=
    match dict_get recovery_type (strategy_usage rc) with
    | None => dict_set recovery_type 1 (strategy_usage rc)
    | Some n => dict_set recovery_type (n + 1) (strategy_usage rc)
    end in
  let sp1 :=
    set_recovery_counters (mkCounters (total_recoveries rc + 1) (failed_recoveries rc) usage) sp in
  if str_in recovery_type recovery_strategies then
    let '(sp2, success) := run_strategy recovery_type context now sp1 in
    if success then (sp2, true) else (bump_failed sp2, false)
  else (bump_failed sp1, false).

Section Reporting.
(** [hash] of a string differs from one interpreter run to the next. *)
Variable py_hash : string -> Z.

(** [f"{n:04d}"] for [0 <= n]. *)
Definition pad4 (n : Z) : string :=
  let s := pretty n in
  String.concat "" (replicate (4 - String.length s) "0") +:+ s.

(** [report_error]; the empty string is the result for a missing field. *)
Definition report_error (error_data : ErrorData) (now : Q) (sp : t) : t * string :=
  match ed_component error_data, ed_error_type error_data, ed_description error_data with
  | Some component, Some _, Some description =>
      let error_id :=
        "err_" +:+ pretty (py_int now) +:+ "_" +:+ pad4 (py_hash description `mod` 10000) in
      let sp1 := set_error_log (error_log sp ++ [Reported error_data now error_id]) sp in
      let severity := default "warning" (ed_severity error_data) in
      if String.eqb severity "critical" then
        let sp2 := _update_system_state "degraded" now sp1 in
        if ed_requires_immediate_recovery error_data then
          match ed_recovery_type error_data with
          | Some recovery_type =>
              if str_in recovery_type recovery_strategies
              then (fst (_attempt_recovery recovery_type error_data now sp2), error_id)
              else (sp2, error_id)
          | None => (sp2, error_id)
          end
        else (sp2, error_id)
      else if String.eqb severity "warning" then
        match dict_get component (component_states sp1) with
        | Some c =>
            if (consecutive_failures <=? error_count c)%Z
            then (_update_system_state "degraded" now sp1, error_id)
            else (sp1, error_id)
        | None => (sp1, error_id)
        end
      else (sp1, error_id)
  | _, _, _ => (sp, "")
  end.
End Reporting.

(** What the file system does to [save_system_state]: the dump is written
    and the old backups are pruned, the dump raises, or listing the backups
    for pruning raises after the dump was written. *)
Inductive SaveIO :=
| WriteOk
| WriteRaises (message : string)
| CleanupRaises (message : string).

Inductive SaveResult :=
| SaveSuccess (filename : string) (timestamp : Q)
| SaveError (message : string).

Section Persistence.
(** [os.path.join(backup_dir, f"system_state_{now:%Y%m%d_%H%M%S}.json")] *)
Variable backup_name : Q -> string.

(** [save_system_state] *)
Definition save_system_state (now : Q) (io : SaveIO) (sp : t) : t * SaveResult :=
  let save_failed message sp :=
    (set_error_log
       (error_log sp ++
          [Failure "state_save_failure" ("Failed to save system state: " +:+ message)]) sp,
     SaveError message) in
  match io with
  | WriteOk => (set_last_state_save now sp, SaveSuccess (backup_name now) now)
  | WriteRaises message => save_failed message sp
  | CleanupRaises message => save_failed message (set_last_state_save now sp)
  end.

Record ShutdownResult := mkShutdownResult {
  sr_timestamp : Q;
  sr_reason : string;
  sr_state_saved : bool
}.

(** [safe_shutdown] *)
Definition safe_shutdown (reason : string) (now : Q) (io : SaveIO) (sp : t)
  : t * ShutdownResult :=
  let sp1 := set_shutdown_requested true sp in
  let '(sp2, save_result) := save_system_state now io sp1 in
  let sp3 := if monitoring_active sp2 then fst (stop_monitoring sp2) else sp2 in
  let sp4 := _update_system_state "shutting_down" now sp3 in
  (sp4,
   mkShutdownResult now reason
     match save_result with SaveSuccess _ _ => true | SaveError _ => false end).
End Persistence.

(** The JSON object of a backup file; [json.load] gives a dict whose keys
    may be missing. *)
Record StateData := mkStateData {
  sd_timestamp : option Q;
  sd_system_state : option string;
  sd_component_states : option (list (string * Component));
  sd_recovery_counters : option Counters;
  sd_error_count : option Z
}.

(** Opening and parsing a backup file: [open] or [json.load] raises, the
    document is not an object (so [state_data.get] raises), or a dict is read. *)
Inductive ReadResult :=
| ReadRaises (message : string)
| NotAnObject (message : string)
| Loaded (state_data : StateData).

Record FileSystem := mkFileSystem {
  (** [_get_backup_files()]: the backups, newest first *)
  backup_files : list string;
  read_json : string -> ReadResult
}.

Inductive RestoreResult :=
| RestoreSuccess (filename : string) (timestamp : option Q) (restored_state : string)
| RestoreError (message : string).

(** [restore_system_state]; [filename] is [None] when the argument is left
    out, and the empty string is as good as [None] for [if not filename]. *)
Definition restore_system_state (filename : option string) (fs : FileSystem) (sp : t)
  : t * RestoreResult :=
  let restore_from (filename : string) :=
    let restore_failed message :=
      (set_error_log
         (error_log sp ++
            [Failure "state_restore_failure" ("Failed to restore system state: " +:+ message)])
         sp,
       RestoreError message) in
    match read_json fs filename with
    | ReadRaises message => restore_failed message
    | NotAnObject message => restore_failed message
    | Loaded state_data =>
        let sp1 := set_system_state (default "stable" (sd_system_state state_data)) sp in
        let sp2 := set_component_states (default [] (sd_component_states state_data)) sp1 in
        let sp3 :=
          set_recovery_counters
            (default (mkCounters 0 0 []) (sd_recovery_counters state_data)) sp2 in
        (sp3, RestoreSuccess filename (sd_timestamp state_data) (system_state sp3))
    end in
  let given := match filename with Some f => negb (String.eqb f "") | None => false end in
  if given then restore_from (default "" filename)
  else
    match backup_files fs with
    | [] => (sp, RestoreError "No backup files found")
    | latest :: _ => restore_from latest
    end.

(** An entry of the ["components"] dict of a health report. *)
Record ComponentStatus := mkComponentStatus {
  cs_state : string;
  cs_heartbeat : string;
  cs_error_count : Z;
  cs_last_error_age : option Q
}.

(** The dict returned by [monitor_system_health]. *)
Record HealthStatus := mkHealthStatus {
  hs_timestamp : Q;
  hs_system_state : string;
  hs_status : string;
  hs_health_score : Z;
  hs_components : list (string * ComponentStatus);
  hs_resources : list (string * Q);
  hs_recent_errors : Z;
  hs_inactive_components : list string;
  hs_error_components : list string
}.

Definition heartbeat_status (heartbeat_age : Q) : string :=
  if Qltb heartbeat_age 60 then "ok"
  else if Qltb heartbeat_age 180 then "late"
  else "missing".

(** The body of the loop over [component_states.items()]. *)
Definition check_component (current_time : Q)
    (acc : list (string * ComponentStatus) * list string * list string)
    (item : string * Component)
  : list (string * ComponentStatus) * list string * list string :=
  let '(component_status, inactive_components, error_components) := acc in
  let '(component, st) := item in
  let heartbeat_age := (current_time - last_heartbeat st)%Q in
  let hb := heartbeat_status heartbeat_age in
  let component_status :=
    dict_set component
      (mkComponentStatus (state st) hb (error_count st)
         (match last_error st with
          | Some e => Some (current_time - e)%Q
          | None => None
          end))
      component_status in
  let inactive_components :=
    if String.eqb hb "missing" || String.eqb (state st) "inactive"
    then inactive_components ++ [component] else inactive_components in
  let error_components :=
    if String.eqb (state st) "error"
    then error_components ++ [component] else error_components in
  (component_status, inactive_components, error_components).

(** The body of the loop over [error_log]. *)
Definition count_recent (now : Q) (recent_errors : Z) (error : LogEntry) : Z :=
  match entry_timestamp error with
  | Some error_time =>
      let age_seconds := (now - error_time)%Q in
      if Qltb age_seconds 60 then recent_errors + 1 else recent_errors
  | None => recent_errors
  end.

(** [monitor_system_health] *)
Definition monitor_system_health (now : Q) (sp : t) : t * HealthStatus :=
  let '(component_status, inactive_components, error_components) :=
    fold_left (check_component now) (component_states sp) ([], [], []) in
  let recent_errors := fold_left (count_recent now) (error_log sp) 0 in
  let system_status := "healthy" in
  let system_status :=
    match error_components with [] => system_status | _ :: _ => "degraded" end in
  let system_status :=
    if (1 <? len error_components)%Z || (errors_per_minute <? recent_errors)%Z
    then "critical" else system_status in
  let resource_status :=
    [("memory_usage", 0.5%Q); ("cpu_usage", 0.3%Q); ("disk_usage", 0.4%Q)] in
  let health_score := 100 in
  let health_score := health_score - len inactive_components * 15 in
  let health_score := health_score - len error_components * 20 in
  let health_score := health_score - recent_errors * 5 in
  let health_score := Z.max 0 (Z.min 100 health_score) in
  let health_status :=
    mkHealthStatus now (system_state sp) system_status health_score component_status
      resource_status recent_errors inactive_components error_components in
  let sp' :=
    if negb (String.eqb (system_state sp) "shutting_down") then
      if String.eqb system_status "critical" && negb (String.eqb (system_state sp) "critical")
      then _update_system_state "critical" now sp
      else if String.eqb system_status "degraded" && String.eqb (system_state sp) "stable"
      then _update_system_state "degraded" now sp
      else if String.eqb system_status "healthy" && negb (String.eqb (system_state sp) "stable")
      then _update_system_state "stable" now sp
      else sp
    else sp in
  (sp', health_status).

(** ** The health score as the specification words it *)

Definition clamp (x lo hi : Z) : Z :=
  if (x <? lo)%Z then lo else if (hi <? x)%Z then hi else x.

(** Heartbeat age of at least 180 seconds, or state [inactive]. *)
Definition inactive_component (now : Q) (item : string * Component) : bool :=
  Qle_bool 180 (now - last_heartbeat item.2) || bool_decide (state item.2 = "inactive").

Definition error_component (item : string * Component) : bool :=
  bool_decide (state item.2 = "error").

(** A log entry with a time stamp less than 60 seconds old. *)
Definition recent_error (now : Q) (e : LogEntry) : bool :=
  match entry_timestamp e with
  | Some ts => Qltb (now - ts) 60
  | None => false
  end.

Definition count {A} (p : A -> bool) (l : list A) : Z := len (List.filter p l).

Definition spec_health_score (now : Q) (sp : t) : Z :=
  clamp (100
         - 15 * count (inactive_component now) (component_states sp)
         - 20 * count error_component (component_states sp)
         - 5 * count (recent_error now) (error_log sp))
        0 100.

(** ** The scenario of one failed component *)

(** Register [a] and [b], then put [a] into the state ["error"]. *)
Definition one_failure (a b : string) (ta tb te : Q) (sp : t) : t :=
  (update_component_state a "error" te
     (register_component b "active" tb (register_component a "active" ta sp))).1.

(** ** Failsafes *)

(** The [strategy] dict of [implement_failsafe]. *)
Record Strategy := mkStrategy {
  strategy_action : option string;
  strategy_priority : Z;
  strategy_fallback : option string
}.

Inductive FailsafeResult :=
| FailsafeReturns (error_condition : string) (strategy : Strategy) (timestamp : Q)
    (success : bool)
| FailsafeRaises (exn : string).

(** [strategy["action"] = strategy["fallback"]] when the action failed. *)
Definition settle (strategy : Strategy) (success : bool) : Strategy :=
  if success then strategy
  else mkStrategy (strategy_fallback strategy) (strategy_priority strategy)
         (strategy_fallback strategy).

(** [implement_failsafe].  Each branch binds the local [strategy]; every
    branch but the last also binds the local [success], which the result
    dict reads.  An unbound local is [None] here, and reading it raises
    [UnboundLocalError]. *)
Definition implement_failsafe (error_condition : string) (now : Q) (fs : FileSystem) (sp : t)
  : t * FailsafeResult :=
  let '(sp', strategy, success) :=
    if String.eqb error_condition "memory_overflow" then
      (sp, settle (mkStrategy (Some "clear_caches") 1 (Some "reduce_processing")) true,
       Some true)
    else if String.eqb error_condition "component_failure" then
      (sp, settle (mkStrategy (Some "restart_component") 3 (Some "isolate_component")) true,
       Some true)
    else if String.eqb error_condition "data_corruption" then
      let '(sp', restored) := restore_system_state None fs sp in
      let success :=
        match restored with RestoreSuccess _ _ _ => true | RestoreError _ => false end in
      (sp', settle (mkStrategy (Some "restore_backup") 2 (Some "initialize_subsystem")) success,
       Some success)
    else if String.eqb error_condition "resource_exhaustion" then
      (sp,
       settle (mkStrategy (Some "throttle_processing") 2 (Some "terminate_low_priority")) true,
       Some true)
    else (sp, mkStrategy (Some "log_and_notify") 1 None, None) in
  match success with
  | Some success => (sp', FailsafeReturns error_condition strategy now success)
  | None => (sp', FailsafeRaises "UnboundLocalError")
  end.

(** ** The monitoring loop *)

(** [state_save_interval] *)
Definition state_save_interval : Q := 300.

(** The context dict [{"component": component}]. *)
Definition component_context (component : string) : ErrorData :=
  mkErrorData (Some component) None None None false None.

(** [_attempt_recovery_from_health_status] *)
Definition _attempt_recovery_from_health_status (health_status : HealthStatus) (now : Q)
    (sp : t) : t :=
  fold_left
    (fun sp component =>
       let recovery_type :=
         if String.eqb component "safety_filter" then "critical_component_failure"
         else "component_failure" in
       if str_in recovery_type recovery_strategies
       then (_attempt_recovery recovery_type (component_context component) now sp).1
       else sp)
    (hs_error_components health_status) sp.

(** [self.error_log[-1000:]] *)
Definition last_1000 {A} (l : list A) : list A := drop (length l - 1000) l.

Section Loop.
Variable backup_name : Q -> string.

(** The body of the [try] in one round of [_monitoring_loop], up to the
    sleep.  None of the methods it calls lets an exception out, so the
    handler of the loop has nothing to catch here. *)
Definition monitoring_round (now : Q) (io : SaveIO) (sp : t) : t :=
  let '(sp, health_status) := monitor_system_health now sp in
  let sp :=
    if String.eqb (hs_status health_status) "critical"
    then _attempt_recovery_from_health_status health_status now sp
    else sp in
  let sp :=
    if Qle_bool state_save_interval (now - last_state_save sp)
    then (save_system_state backup_name now io sp).1
    else sp in
  if (1000 <? len (error_log sp))%Z
  then set_error_log (last_1000 (error_log sp)) sp
  else sp.
End Loop.

(** What a round of the loop can append to the error log: a state change,
    logged at the time of the round, and the record of a failed save. *)
Definition round_entry (now : Q) (e : LogEntry) : Prop :=
  (exists description, e = StateChange description now)
  \/ (exists description, e = Failure "state_save_failure" description).

(** ** Backups *)

(** The dict that [save_system_state] writes to the backup file. *)
Definition state_data (now : Q) (sp : t) : StateData :=
  mkStateData (Some now) (Some (system_state sp)) (Some (component_states sp))
    (Some (recovery_counters sp)) (Some (len (error_log sp))).

(** ** A client: [SelfEvolvingAI.start] and [stop] in [self_evolving_ai.py] *)

(** The calls that [start] makes on its [SelfPreservation] object; the
    [k]-th of them reads the clock as [clock k]. *)
Fixpoint register_each (names : list string) (clock : nat -> Q) (k : nat) (sp : t) : t :=
  match names with
  | [] => sp
  | name :: names' =>
      register_each names' clock (S k) (register_component name "inactive" (clock k) sp)
  end.

Fixpoint activate_each (names : list string) (clock : nat -> Q) (k : nat) (sp : t) : t :=
  match names with
  | [] => sp
  | name :: names' =>
      activate_each names' clock (S k) (update_component_state name "active" (clock k) sp).1
  end.

Definition client_components : list string :=
  ["assistant"; "goal_manager"; "feedback_system"; "resource_manager";
   "process_optimizer"; "web_knowledge_fetcher"].

Definition client_start (clock : nat -> Q) (sp : t) : t :=
  let sp := register_component "self_evolving_ai" "starting" (clock 0%nat) sp in
  let sp := register_each client_components clock 1 sp in
  let sp := (start_monitoring sp).1 in
  let sp := activate_each client_components clock 7 sp in
  (update_component_state "self_evolving_ai" "active" (clock 13%nat) sp).1.


(** ** The backup directory *)

(** An entry of [os.listdir(backup_dir)], with the [os.path.getmtime] of
    the file. *)
Record DirEntry := mkDirEntry {
  entry_name : string;
  entry_mtime : Q
}.

(** [self.backup_dir] *)
Definition backup_dir : string := "backups".

(** [os.path.join(self.backup_dir, f)] *)
Definition backup_path (f : string) : string := backup_dir +:+ "/" +:+ f.

Definition entry_path (e : DirEntry) : string := backup_path (entry_name e).

(** [s.startswith(prefix)] and [s.endswith(suffix)] *)
Definition startswith (s prefix : string) : bool := String.prefix prefix s.

Definition endswith (s suffix : string) : bool :=
  (String.length suffix <=? String.length s)%nat
  && String.eqb
       (String.substring (String.length s - String.length suffix) (String.length suffix) s)
       suffix.

Definition is_backup (e : DirEntry) : bool :=
  startswith (entry_name e) "system_state_" && endswith (entry_name e) ".json".

(** [files.sort(key=os.path.getmtime, reverse=True)] is stable: files of
    equal age keep their order. *)
Fixpoint insert_by_mtime (x : DirEntry) (l : list DirEntry) : list DirEntry :=
  match l with
  | [] => [x]
  | y :: l' =>
      if Qle_bool (entry_mtime y) (entry_mtime x) then x :: l
      else y :: insert_by_mtime x l'
  end.

Definition newest_first (l : list DirEntry) : list DirEntry := foldr insert_by_mtime [] l.

(** [_get_backup_files]; [dir] is the listing of the backup directory,
    [None] when the directory does not exist. *)
Definition _get_backup_files (dir : option (list DirEntry)) : list string :=
  match dir with
  | None => []
  | Some entries => map entry_path (newest_first (List.filter is_backup entries))
  end.

(** [os.remove(path)] under its [try]; [can_remove] tells whether the call
    succeeds. *)
Definition remove_file (can_remove : string -> bool) (path : string) (entries : list DirEntry)
  : list DirEntry :=
  if can_remove path
  then List.filter (fun e => negb (String.eqb (entry_path e) path)) entries
  else entries.

(** [_cleanup_old_backups] *)
Definition _cleanup_old_backups (can_remove : string -> bool) (dir : option (list DirEntry))
  : option (list DirEntry) :=
  let files := _get_backup_files dir in
  if (10 <? len files)%Z then
    fold_left (fun entries file_to_delete => remove_file can_remove file_to_delete entries)
      (drop 10 files) <$> dir
  else dir.
End SelfPreservation.

(** * goal_system.py *)

Module GoalSystem.

(** An entry of a goal's ["subtasks"] list. *)
Record Subtask := mkSubtask {
  st_id : string;
  st_description : string;
  st_status : string;
  st_completed : bool;
  st_completed_at : option Q
}.

(** A goal dict.  The keys ["completed_at"] and ["updated_at"] are absent
    until [update_progress] writes them. *)
Record Goal := mkGoal {
  id : string;
  description : string;
  type : string;
  priority : Z;
  status : string;
  progress : Q;
  created_at : Q;
  deadline : option string;
  subtasks : list Subtask;
  dependencies : list string;
  review_count : Z;
  last_reviewed : option Q;
  completed_at : option Q;
  updated_at : option Q
}.

(** The ["goals"] section of the configuration file, defaults filled in. *)
Record Config := mkConfig {
  review_interval_hours : Q;
  min_active_goals : Z
}.

Definition default_config : Config := mkConfig 1 3.

(** The fields of a [GoalSystem] object that its methods change.  The data
    file is written after every change; a failed write is logged and has
    no other effect, so the file is not part of the model. *)
Record t := mkGS {
  config : Config;
  goals : list Goal;
  completed_goals : list Goal;
  next_review_time : Q
}.

(** The keys of [goal_types]. *)
Definition goal_types : list string :=
  ["knowledge_acquisition"; "skill_development"; "problem_solving"; "creation";
   "optimization"; "maintenance"; "exploration"; "assistance"].

(** The names bound at module level by the [import] statements and the
    class definition of [goal_system.py]. *)
Definition module_globals : list string :=
  ["logging"; "json"; "time"; "os"; "datetime";
   "Dict"; "List"; "Any"; "Optional"; "GoalSystem"].

(** Whether evaluating the global [name] succeeds; it raises [NameError]
    otherwise. *)
Definition name_bound (name : string) : bool := str_in name module_globals.

(** [__init__]; [loaded] is what [_load_data] read from the data file, when
    the file exists and parses. *)
Definition init (cfg : Config) (loaded : option (list Goal * list Goal)) (now : Q) : t :=
  let '(gs, cgs) := default ([], []) loaded in
  mkGS cfg gs cgs (now + review_interval_hours cfg * 3600)%Q.

Definition set_goals (gs : list Goal) (s : t) : t :=
  mkGS (config s) gs (completed_goals s) (next_review_time s).

Definition set_completed_goals (cgs : list Goal) (s : t) : t :=
  mkGS (config s) (goals s) cgs (next_review_time s).

Definition set_next_review_time (q : Q) (s : t) : t :=
  mkGS (config s) (goals s) (completed_goals s) q.

Definition set_progress (p : Q) (g : Goal) : Goal :=
  mkGoal (id g) (description g) (type g) (priority g) (status g) p (created_at g)
    (deadline g) (subtasks g) (dependencies g) (review_count g) (last_reviewed g)
    (completed_at g) (updated_at g).

Definition set_subtasks (sts : list Subtask) (g : Goal) : Goal :=
  mkGoal (id g) (description g) (type g) (priority g) (status g) (progress g) (created_at g)
    (deadline g) sts (dependencies g) (review_count g) (last_reviewed g)
    (completed_at g) (updated_at g).

Definition set_dependencies (deps : list string) (g : Goal) : Goal :=
  mkGoal (id g) (description g) (type g) (priority g) (status g) (progress g) (created_at g)
    (deadline g) (subtasks g) deps (review_count g) (last_reviewed g)
    (completed_at g) (updated_at g).

Definition set_priority (p : Z) (g : Goal) : Goal :=
  mkGoal (id g) (description g) (type g) p (status g) (progress g) (created_at g)
    (deadline g) (subtasks g) (dependencies g) (review_count g) (last_reviewed g)
    (completed_at g) (updated_at g).

Definition set_completed (now : Q) (g : Goal) : Goal :=
  mkGoal (id g) (description g) (type g) (priority g) "completed" (progress g) (created_at g)
    (deadline g) (subtasks g) (dependencies g) (review_count g) (last_reviewed g)
    (Some now) (updated_at g).

Definition set_updated_at (now : Q) (g : Goal) : Goal :=
  mkGoal (id g) (description g) (type g) (priority g) (status g) (progress g) (created_at g)
    (deadline g) (subtasks g) (dependencies g) (review_count g) (last_reviewed g)
    (completed_at g) (Some now).

Definition set_reviewed (now : Q) (g : Goal) : Goal :=
  mkGoal (id g) (description g) (type g) (priority g) (status g) (progress g) (created_at g)
    (deadline g) (subtasks g) (dependencies g) (review_count g + 1) (Some now)
    (completed_at g) (updated_at g).

(** ** Goal objects and where they live

    The methods find a goal by id and then change that object in place.
    An object is named here by the list that holds it and its position. *)
Inductive Loc :=
| InGoals (i : nat)
| InCompleted (i : nat).

(** Position of the first element that satisfies [p]. *)
Fixpoint find_index {A} (p : A -> bool) (l : list A) : option nat :=
  match l with
  | [] => None
  | x :: l' => if p x then Some 0%nat else S <$> find_index p l'
  end.

Definition has_id (goal_id : string) (g : Goal) : bool := String.eqb (id g) goal_id.

(** The object that [get_goal] returns: the first match in [goals], else
    the first match in [completed_goals]. *)
Definition locate (s : t) (goal_id : string) : option Loc :=
  match find_index (has_id goal_id) (goals s) with
  | Some i => Some (InGoals i)
  | None => InCompleted <$> find_index (has_id goal_id) (completed_goals s)
  end.

Definition read (s : t) (l : Loc) : option Goal :=
  match l with
  | InGoals i => goals s !! i
  | InCompleted i => completed_goals s !! i
  end.

Definition write (l : Loc) (g : Goal) (s : t) : t :=
  match l with
  | InGoals i => set_goals (<[i := g]> (goals s)) s
  | InCompleted i => set_completed_goals (<[i := g]> (completed_goals s)) s
  end.

(** [get_goal] *)
Definition get_goal (s : t) (goal_id : string) : option Goal :=
  locate s goal_id ≫= read s.

Inductive SetGoalResult :=
| SetGoalError (message : string)
| SetGoalOk (goal : Goal).

(** [set_goal] *)
Definition set_goal (description goal_type : string) (priority : Z) (deadline : option string)
    (now : Q) (s : t) : t * SetGoalResult :=
  if String.eqb description "" then (s, SetGoalError "Goal description cannot be empty")
  else
    let goal_type :=
      if str_in goal_type goal_types then goal_type else "knowledge_acquisition" in
    let priority := Z.max 1 (Z.min 5 priority) in
    let goal_id := "goal_" +:+ pretty (py_int now) +:+ "_" +:+ pretty (length (goals s)) in
    let goal :=
      mkGoal goal_id description goal_type priority "active" 0 now deadline [] [] 0
        None None None in
    (set_goals (goals s ++ [goal]) s, SetGoalOk goal).

(** The four subtasks of a goal; the wording depends on the goal type.  Each
    template is the text that follows the quoted description. *)
Definition subtask_templates (goal_type : string) : list string :=
  if String.eqb goal_type "knowledge_acquisition" then
    ["」に関する基本情報を調査"; "」の主要な概念を理解";
     "」に関連する実例を確認"; "」について知識ベースを更新"]
  else if String.eqb goal_type "skill_development" then
    ["」に必要な基礎知識を獲得"; "」の基本手順を学習";
     "」の練習と実践"; "」の評価と改善"]
  else if String.eqb goal_type "problem_solving" then
    ["」問題の詳細分析"; "」解決策の複数案検討";
     "」最適解決策の選択"; "」解決策の実行と検証"]
  else if String.eqb goal_type "creation" then
    ["」の要件定義"; "」の設計"; "」の実装または作成"; "」のテストと改善"]
  else if String.eqb goal_type "optimization" then
    ["」の現状分析"; "」の改善点特定"; "」の最適化実施"; "」の最適化効果測定"]
  else
    ["」の調査"; "」の計画立案"; "」の実行"; "」の評価"].

Definition make_subtasks (goal_id description goal_type : string) : list Subtask :=
  imap (fun n tpl =>
          mkSubtask (goal_id +:+ "_sub" +:+ pretty (S n))
                    ("「" +:+ description +:+ tpl) "pending" false None)
       (subtask_templates goal_type).

(** [decompose_goal] *)
Definition decompose_goal (goal_id : string) (s : t) : t * list Subtask :=
  match locate s goal_id with
  | None => (s, [])
  | Some l =>
      match read s l with
      | None => (s, [])
      | Some goal =>
          match subtasks goal with
          | _ :: _ => (s, subtasks goal)
          | [] =>
              let sts := make_subtasks goal_id (description goal) (type goal) in
              (write l (set_subtasks sts goal) s, sts)
          end
      end
  end.

(** ** update_progress *)

(** The innermost statement of the loop that marks subtasks. *)
Definition mark_subtask (subtask_id : string) (now : Q) (st : Subtask) : Subtask :=
  if String.eqb (st_id st) subtask_id && negb (st_completed st)
  then mkSubtask (st_id st) (st_description st) "completed" true (Some now)
  else st.

Definition mark_completed (completed_subtasks : list string) (now : Q) (sts : list Subtask)
  : list Subtask :=
  fold_left (fun sts subtask_id => map (mark_subtask subtask_id now) sts)
            completed_subtasks sts.

Definition calculated_progress (sts : list Subtask) : Q :=
  let completed_count := len (List.filter st_completed sts) in
  let total_count := len sts in
  if (0 <? total_count)%Z
  then ((inject_Z completed_count / inject_Z total_count) * 100)%Q
  else 0%Q.

(** [==] on optional time stamps, subtasks and goals: numbers are compared
    by value, everything else field by field. *)
Definition opt_Qeqb (a b : option Q) : bool :=
  match a, b with
  | Some x, Some y => Qeq_bool x y
  | None, None => true
  | _, _ => false
  end.

Definition subtask_eqb (a b : Subtask) : bool :=
  String.eqb (st_id a) (st_id b) && String.eqb (st_description a) (st_description b)
  && String.eqb (st_status a) (st_status b) && Bool.eqb (st_completed a) (st_completed b)
  && opt_Qeqb (st_completed_at a) (st_completed_at b).

Fixpoint list_eqb {A} (eqb : A -> A -> bool) (l1 l2 : list A) : bool :=
  match l1, l2 with
  | [], [] => true
  | x :: l1', y :: l2' => eqb x y && list_eqb eqb l1' l2'
  | _, _ => false
  end.

Definition goal_eqb (a b : Goal) : bool :=
  String.eqb (id a) (id b) && String.eqb (description a) (description b)
  && String.eqb (type a) (type b) && (priority a =? priority b)%Z
  && String.eqb (status a) (status b) && Qeq_bool (progress a) (progress b)
  && Qeq_bool (created_at a) (created_at b)
  && bool_decide (deadline a = deadline b)
  && list_eqb subtask_eqb (subtasks a) (subtasks b)
  && list_eqb String.eqb (dependencies a) (dependencies b)
  && (review_count a =? review_count b)%Z
  && opt_Qeqb (last_reviewed a) (last_reviewed b)
  && opt_Qeqb (completed_at a) (completed_at b)
  && opt_Qeqb (updated_at a) (updated_at b).

(** [l.remove(x)]: drops the first element equal to [x]; [None] stands for
    the [ValueError] raised when there is none. *)
Fixpoint list_remove {A} (eqb : A -> A -> bool) (x : A) (l : list A) : option (list A) :=
  match l with
  | [] => None
  | y :: l' => if eqb y x then Some l' else cons y <$> list_remove eqb x l'
  end.

Inductive UpdateResult :=
| UpdateError (message : string)
| UpdateSuccess (goal_id : string) (old_progress new_progress : Q) (completed : bool)
| UpdateRaises (exn : string).

(** The middle of [update_progress]: store the clamped progress, mark the
    listed subtasks, then take the larger of the stored progress and the
    share of completed subtasks when the goal has subtasks. *)
Definition record_progress (new_progress : Q) (completed_subtasks : list string) (now : Q)
    (goal : Goal) : Goal :=
  let goal := set_progress (Qmax 0 (Qmin 100 new_progress)) goal in
  let goal := set_subtasks (mark_completed completed_subtasks now (subtasks goal)) goal in
  match subtasks goal with
  | [] => goal
  | _ :: _ => set_progress (Qmax (progress goal) (calculated_progress (subtasks goal))) goal
  end.

(** [update_progress]; [completed_subtasks] is empty when the argument is
    left out. *)
Definition update_progress (goal_id : string) (new_progress : Q)
    (completed_subtasks : list string) (now : Q) (s : t) : t * UpdateResult :=
  match locate s goal_id with
  | None => (s, UpdateError "Goal not found")
  | Some l =>
      match read s l with
      | None => (s, UpdateError "Goal not found")
      | Some goal =>
          if String.eqb (status goal) "completed"
          then (s, UpdateError "Goal already completed")
          else
            let old_progress := progress goal in
            let goal := record_progress new_progress completed_subtasks now goal in
            if Qle_bool 100 (progress goal) then
              let goal := set_completed now goal in
              let s1 := write l goal s in
              match list_remove goal_eqb goal (goals s1) with
              | None => (s1, UpdateRaises "ValueError")
              | Some rest =>
                  let goal := set_updated_at now goal in
                  (set_completed_goals (completed_goals s1 ++ [goal]) (set_goals rest s1),
                   UpdateSuccess goal_id old_progress (progress goal) true)
              end
            else
              let goal := set_updated_at now goal in
              (write l goal s, UpdateSuccess goal_id old_progress (progress goal) false)
      end
  end.

(** ** Dependencies *)

(** The loop over [goal["dependencies"]] in [_has_circular_dependency];
    [search] is the recursive call.  The [visited] set is one object shared
    by all the calls, so it is threaded through them. *)
Fixpoint each_dependency (search : string -> gset string -> option (bool * gset string))
    (deps : list string) (visited : gset string) : option (bool * gset string) :=
  match deps with
  | [] => Some (false, visited)
  | dep_id :: deps' =>
      match search dep_id visited with
      | None => None
      | Some (true, visited') => Some (true, visited')
      | Some (false, visited') => each_dependency search deps' visited'
      end
  end.

(** [_has_circular_dependency]: depth-first search from [goal_id] for
    [dependency_id].  [depth] bounds the depth of the recursion; [None] is a
    recursion deeper than that. *)
Fixpoint _has_circular_dependency_from (depth : nat) (s : t) (dependency_id goal_id : string)
    (visited : gset string) {struct depth} : option (bool * gset string) :=
  match depth with
  | O => None
  | S depth' =>
      if bool_decide (goal_id ∈ visited) then Some (false, visited)
      else
        let visited := {[goal_id]} ∪ visited in
        if String.eqb goal_id dependency_id then Some (true, visited)
        else
          match get_goal s goal_id with
          | None => Some (false, visited)
          | Some goal =>
              each_dependency (_has_circular_dependency_from depth' s dependency_id)
                (dependencies goal) visited
          end
  end.

(** Every id that occurs in the store, as a goal or as a dependency. *)
Definition all_ids (s : t) : list string :=
  flat_map (fun g => id g :: dependencies g) (goals s ++ completed_goals s).

(** The search visits an id at most once, so it is never deeper than the
    number of ids in the store. *)
Definition recursion_bound (s : t) : nat := S (length (all_ids s)).

Definition _has_circular_dependency (s : t) (goal_id dependency_id : string) : option bool :=
  fst <$> _has_circular_dependency_from (recursion_bound s) s dependency_id goal_id ∅.

(** [add_dependency]; [None] only if the search exceeds [recursion_bound]. *)
Definition add_dependency (goal_id dependency_goal_id : string) (s : t) : option (t * bool) :=
  match locate s goal_id, get_goal s dependency_goal_id with
  | Some l, Some _ =>
      match read s l with
      | None => Some (s, false)
      | Some goal =>
          match _has_circular_dependency s dependency_goal_id goal_id with
          | None => None
          | Some true => Some (s, false)
          | Some false =>
              if str_in dependency_goal_id (dependencies goal) then Some (s, true)
              else
                Some (write l (set_dependencies (dependencies goal ++ [dependency_goal_id]) goal) s,
                      true)
          end
      end
  | _, _ => Some (s, false)
  end.

(** ** Choosing the next task *)

(** [sorted(..., key=priority, reverse=True)] is stable: goals of equal
    priority keep their order.  A goal is carried with its position in
    [goals], which names the object. *)
Fixpoint insert_by_priority (x : nat * Goal) (l : list (nat * Goal)) : list (nat * Goal) :=
  match l with
  | [] => [x]
  | y :: l' =>
      if (priority y.2 <=? priority x.2)%Z then x :: l
      else y :: insert_by_priority x l'
  end.

Definition sorted_goals (s : t) : list (nat * Goal) :=
  foldr insert_by_priority [] (imap pair (goals s)).

(** [get_active_goals] *)
Definition get_active_goals (max_count : option nat) (s : t) : list Goal :=
  let sorted := map snd (sorted_goals s) in
  match max_count with
  | Some n => take n sorted
  | None => sorted
  end.

(** The dict returned by [get_next_task]. *)
Record Task := mkTask {
  task_goal_id : string;
  task_subtask_id : string;
  task_description : string;
  task_goal_description : string;
  task_priority : Z;
  task_goal_type : string
}.

Inductive NextTaskResult :=
| NoTask
| NextTask (task : Task)
| NextTaskRaises (exn : string).

(** [any(self.get_goal(dep_id)["status"] != "completed" for dep_id in deps)];
    [None] stands for the [TypeError] of subscripting the [None] that
    [get_goal] returns for an id it does not find. *)
Fixpoint any_dependency_pending (s : t) (deps : list string) : option bool :=
  match deps with
  | [] => Some false
  | dep_id :: deps' =>
      match get_goal s dep_id with
      | None => None
      | Some dep =>
          if negb (String.eqb (status dep) "completed") then Some true
          else any_dependency_pending s deps'
      end
  end.

(** The loop of [get_next_task] over the sorted goals, given by position. *)
Fixpoint next_task_loop (active : list nat) (s : t) : t * NextTaskResult :=
  match active with
  | [] => (s, NoTask)
  | i :: active' =>
      match goals s !! i with
      | None => next_task_loop active' s
      | Some goal =>
          match any_dependency_pending s (dependencies goal) with
          | None => (s, NextTaskRaises "TypeError")
          | Some true => next_task_loop active' s
          | Some false =>
              let s1 :=
                match subtasks goal with
                | [] => fst (decompose_goal (id goal) s)
                | _ :: _ => s
                end in
              match goals s1 !! i with
              | None => next_task_loop active' s1
              | Some goal =>
                  match List.find (fun st => negb (st_completed st)) (subtasks goal) with
                  | Some subtask =>
                      (s1, NextTask (mkTask (id goal) (st_id subtask) (st_description subtask)
                                       (description goal) (priority goal) (type goal)))
                  | None => next_task_loop active' s1
                  end
              end
          end
      end
  end.

(** [get_next_task] *)
Definition get_next_task (s : t) : t * NextTaskResult :=
  next_task_loop (map fst (sorted_goals s)) s.

(** ** Review *)

Record Suggestion := mkSuggestion {
  sg_type : string;
  sg_description : string;
  sg_priority : Z;
  sg_reason : string
}.

(** [suggest_new_goals]; [today] is the start of the current day,
    [datetime.now().replace(hour=0, minute=0, second=0, microsecond=0)]. *)
Definition suggest_new_goals (today : Q) (s : t) : list Suggestion :=
  (if (len (goals s) <? min_active_goals (config s))%Z then
     [mkSuggestion "knowledge_acquisition" "知識ベースの一般知識を拡充する" 3
        "知識ベースの充実化";
      mkSuggestion "skill_development" "より効率的な情報検索手法を開発する" 4
        "情報取得能力の向上"]
   else [])
  ++ (if existsb (fun g => String.eqb (type g) "optimization" && Qltb today (created_at g))
                 (goals s ++ completed_goals s)
      then []
      else [mkSuggestion "optimization" "知識処理パイプラインの最適化" 3
              "システム効率の向上"])
  ++ (if (10 <? len (goals s))%Z || (20 <? len (completed_goals s))%Z then
        [mkSuggestion "maintenance" "未使用の古い知識をレビューして整理する" 2
           "知識ベースの整理"]
      else []).

Record ReviewResults := mkReviewResults {
  reviewed_goals : Z;
  priority_adjustments : Z;
  stalled_goals : Z;
  goals_suggested : Z;
  removed_goals : Z
}.

Inductive ReviewResult :=
| ReviewSkipped
| ReviewSuccess (results : ReviewResults)
| ReviewRaises (exn : string).

(** The loop over [goal["dependencies"][:]]: a dependency whose goal is
    missing or completed is removed from the list (its first occurrence). *)
Definition drop_settled_dependencies (s : t) (deps : list string) : list string :=
  fold_left
    (fun current dep_id =>
       match get_goal s dep_id with
       | Some dep_goal =>
           if String.eqb (status dep_goal) "completed"
           then default current (list_remove String.eqb dep_id current)
           else current
       | None => default current (list_remove String.eqb dep_id current)
       end)
    deps deps.

(** One iteration of the loop over [self.goals[:]], for the object that is
    now at position [i] of [goals].  The result gives the position of the
    next object of the copy: the same position when an element was removed
    from [goals], the following one otherwise. *)
Definition review_goal (now : Q) (i : nat) (s : t) (r : ReviewResults)
  : nat * t * ReviewResults :=
  match goals s !! i with
  | None => (S i, s, r)
  | Some goal =>
      let goal := set_reviewed now goal in
      let s := set_goals (<[i := goal]> (goals s)) s in
      let stalled := (3 <? review_count goal)%Z && Qltb (progress goal) 30 in
      let r :=
        if stalled
        then mkReviewResults (reviewed_goals r) (priority_adjustments r) (stalled_goals r + 1)
               (goals_suggested r) (removed_goals r)
        else r in
      (* [here]: where the object is afterwards, if it is still in [goals] *)
      let '(here, next, s, r) :=
        if stalled then
          if (5 <? review_count goal)%Z then
            match find_index (fun g => goal_eqb g goal) (goals s) with
            | Some j =>
                (if (j <? i)%nat then Some (i - 1)%nat else None, i,
                 set_goals (delete j (goals s)) s,
                 mkReviewResults (reviewed_goals r) (priority_adjustments r) (stalled_goals r)
                   (goals_suggested r) (removed_goals r + 1))
            | None => (Some i, S i, s, r)
            end
          else if (1 <? priority goal)%Z then
            (Some i, S i,
             set_goals (<[i := set_priority (priority goal - 1) goal]> (goals s)) s,
             mkReviewResults (reviewed_goals r) (priority_adjustments r + 1) (stalled_goals r)
               (goals_suggested r) (removed_goals r))
          else (Some i, S i, s, r)
        else (Some i, S i, s, r) in
      let s :=
        match here with
        | Some k =>
            match goals s !! k with
            | Some goal =>
                set_goals
                  (<[k := set_dependencies (drop_settled_dependencies s (dependencies goal)) goal]>
                     (goals s)) s
            | None => s
            end
        | None => s
        end in
      (next, s,
       mkReviewResults (reviewed_goals r + 1) (priority_adjustments r) (stalled_goals r)
         (goals_suggested r) (removed_goals r))
  end.

(** The loop over the [n] goals of the copy [self.goals[:]]. *)
Fixpoint review_loop (n : nat) (now : Q) (i : nat) (s : t) (r : ReviewResults)
  : t * ReviewResults :=
  match n with
  | O => (s, r)
  | S n' =>
      let '(next, s, r) := review_goal now i s r in
      review_loop n' now next s r
  end.

(** The loop over the suggestions.  [random.random()] looks up the global
    name [random] first; [draws] are the numbers the calls return when the
    name is bound, [k] counts the calls made so far. *)
Fixpoint add_suggested (suggestions : list Suggestion) (draws : nat -> Q) (k : nat)
    (now : Q) (s : t) (r : ReviewResults) : t * ReviewResults * option string :=
  match suggestions with
  | [] => (s, r, None)
  | suggestion :: suggestions' =>
      if negb (name_bound "random") then (s, r, Some "NameError")
      else if Qltb (draws k) 0.33 then
        let s :=
          fst (set_goal (sg_description suggestion) (sg_type suggestion)
                 (sg_priority suggestion) None now s) in
        add_suggested suggestions' draws (S k) now s
          (mkReviewResults (reviewed_goals r) (priority_adjustments r) (stalled_goals r)
             (goals_suggested r + 1) (removed_goals r))
      else add_suggested suggestions' draws (S k) now s r
  end.

(** [review_goals] *)
Definition review_goals (now today : Q) (draws : nat -> Q) (s : t) : t * ReviewResult :=
  if Qltb now (next_review_time s) then (s, ReviewSkipped)
  else
    let '(s, r) := review_loop (length (goals s)) now 0 s (mkReviewResults 0 0 0 0 0) in
    let suggestions := suggest_new_goals today s in
    match add_suggested suggestions draws 0 now s r with
    | (s, r, Some exn) => (s, ReviewRaises exn)
    | (s, r, None) =>
        (set_next_review_time (now + review_interval_hours (config s) * 3600)%Q s,
         ReviewSuccess r)
    end.

(** The progress that [update_progress] stores, in the words of the
    specification: the reported progress clamped to 0..100 or, for a goal
    with subtasks, the larger of that and the share of completed subtasks. *)
Definition stored_progress (reported : Q) (sts : list Subtask) : Q :=
  let manual := Qmax 0 (Qmin 100 reported) in
  match sts with
  | [] => manual
  | _ :: _ => Qmax manual (calculated_progress sts)
  end.

(** ** Runs of the goal system *)

(** The calls a client can make. *)
Inductive Op :=
| OpSetGoal (description goal_type : string) (priority : Z) (deadline : option string)
    (now : Q)
| OpDecompose (goal_id : string)
| OpUpdateProgress (goal_id : string) (new_progress : Q) (completed_subtasks : list string)
    (now : Q)
| OpAddDependency (goal_id dependency_goal_id : string)
| OpNextTask
| OpReview (now today : Q) (draws : nat -> Q).

(** The object after a call, whatever the call returned or raised. *)
Definition exec (op : Op) (s : t) : t :=
  match op with
  | OpSetGoal description goal_type priority deadline now =>
      (set_goal description goal_type priority deadline now s).1
  | OpDecompose goal_id => (decompose_goal goal_id s).1
  | OpUpdateProgress goal_id new_progress completed_subtasks now =>
      (update_progress goal_id new_progress completed_subtasks now s).1
  | OpAddDependency goal_id dependency_goal_id =>
      match add_dependency goal_id dependency_goal_id s with
      | Some (s', _) => s'
      | None => s
      end
  | OpNextTask => (get_next_task s).1
  | OpReview now today draws => (review_goals now today draws s).1
  end.

Definition run (ops : list Op) (s : t) : t := fold_left (fun s op => exec op s) ops s.

(** What the lifecycle of a goal turns on: its id, status and progress. *)
Definition core (g : Goal) : string * string * Q := (id g, status g, progress g).

Definition in_range (p : Q) : Prop := (0 <= p /\ p <= 100)%Q.

(** Every stored goal has a progress between 0 and 100. *)
Definition progress_in_range (s : t) : Prop :=
  Forall (fun g => in_range (progress g)) (goals s ++ completed_goals s).

Definition ids (s : t) : list string := map id (goals s ++ completed_goals s).

(** The data model of the specification: ids are unique, [goals] holds the
    goals that are not completed and [completed_goals] the completed ones. *)
Definition well_formed (s : t) : Prop :=
  NoDup (ids s)
  /\ Forall (fun g => status g <> "completed") (goals s)
  /\ Forall (fun g => status g = "completed") (completed_goals s).

(** The same, on the ids, statuses and progress alone. *)
Definition cores_ok (gc cc : list (string * string * Q)) : Prop :=
  NoDup ((fun c => c.1.1) <$> gc ++ cc)
  /\ Forall (fun c => c.1.2 <> "completed") gc
  /\ Forall (fun c => c.1.2 = "completed") cc.

(** [set_goal] builds the id of a new goal from the clock, to the second,
    and the number of active goals; a run has fresh ids when no call of
    [set_goal] in it builds an id that is already in use. *)
Definition new_goal_id (now : Q) (s : t) : string :=
  "goal_" +:+ pretty (py_int now) +:+ "_" +:+ pretty (length (goals s)).

Fixpoint fresh_ids (ops : list Op) (s : t) : bool :=
  match ops with
  | [] => true
  | op :: ops' =>
      match op with
      | OpSetGoal description _ _ _ now =>
          String.eqb description "" || negb (str_in (new_goal_id now s) (ids s))
      | _ => true
      end
      && fresh_ids ops' (exec op s)
  end.

(** How often a goal with this id occurs in a list. *)
Definition occurrences (goal_id : string) (l : list Goal) : nat :=
  length (List.filter (has_id goal_id) l).

(** ** The dependency graph *)

(** [x] depends directly on [d]: the goal that [get_goal] finds for [x]
    lists [d]. *)
Definition depends_on (s : t) (x d : string) : Prop :=
  exists g, get_goal s x = Some g /\ In d (dependencies g).

(** [x] is [y] or depends on it through a chain of dependencies. *)
Definition reaches (s : t) : string -> string -> Prop := rtc (depends_on s).

(** No goal depends on itself through a chain of dependencies. *)
Definition acyclic (s : t) : Prop := forall x, ~ tc (depends_on s) x x.


(** What a search that ends with [False] leaves behind: [visited] has only
    grown, and every id it has added has all its dependencies in it. *)
Definition closed_between (s : t) (v v' : gset string) : Prop :=
  v ⊆ v' /\ forall y d, y ∈ v' -> y ∉ v -> depends_on s y d -> d ∈ v'.

(** ** What decomposing changes *)

(** [g'] is [g], or [g] with the subtasks that [decompose_goal] makes for a
    goal that has none. *)
Definition decomposed (g g' : Goal) : Prop :=
  g' = g
  \/ (subtasks g = []
      /\ g' = set_subtasks (make_subtasks (id g) (description g) (type g)) g).

(** [s'] is [s] with some goals decomposed. *)
Definition only_decomposed (s s' : t) : Prop :=
  Forall2 decomposed (goals s) (goals s')
  /\ Forall2 decomposed (completed_goals s) (completed_goals s')
  /\ config s' = config s
  /\ next_review_time s' = next_review_time s.

(** Every dependency listed by an active goal resolves to a goal. *)
Definition dependencies_resolve (s : t) : Prop :=
  forall g d, In g (goals s) -> In d (dependencies g) -> is_Some (get_goal s d).

(** ** Where a goal is kept *)

(** [goals] holds active goals that are not yet at 100, [completed_goals]
    holds completed goals at 100. *)
Definition lifecycle_ok (s : t) : Prop :=
  Forall (fun g => status g = "active" /\ (progress g < 100)%Q) (goals s)
  /\ Forall (fun g => status g = "completed" /\ (progress g == 100)%Q) (completed_goals s).

(** ** The fields that [set_goal] normalises *)

(** The priority is between 1 and 5 and the type is one of [goal_types]. *)
Definition valid_goal (g : Goal) : Prop :=
  1 <= priority g <= 5 /\ In (type g) goal_types.

Definition goals_valid (s : t) : Prop :=
  Forall valid_goal (goals s) /\ Forall valid_goal (completed_goals s).

(** Some goal of [l] with id [x] lists [d] as a dependency. *)
Definition listed_in (l : list Goal) (x d : string) : Prop :=
  exists g, In g l /\ id g = x /\ In d (dependencies g).

Definition listed (s : t) : string -> string -> Prop :=
  listed_in (goals s ++ completed_goals s).

(** ** Statistics *)

Section Counting.
Context {K : Type} (eqb : K -> K -> bool).

(** [if k not in counts: counts[k] = 1 else: counts[k] += 1], on a dict kept
    in insertion order. *)
Fixpoint bump (k : K) (counts : list (K * Z)) : list (K * Z) :=
  match counts with
  | [] => [(k, 1)]
  | (k', n) :: counts' =>
      if eqb k' k then (k', n + 1) :: counts' else (k', n) :: bump k counts'
  end.

Definition count_by (key : Goal -> K) (l : list Goal) : list (K * Z) :=
  fold_left (fun counts goal => bump (key goal) counts) l [].

(** [counts.get(k)] *)
Fixpoint count_of (k : K) (counts : list (K * Z)) : option Z :=
  match counts with
  | [] => None
  | (k', n) :: counts' => if eqb k' k then Some n else count_of k counts'
  end.
End Counting.

(** [sum(counts.values())] *)
Definition total (K : Type) (counts : list (K * Z)) : Z :=
  fold_right (fun item acc => item.2 + acc) 0 counts.
Arguments total {K} counts.

(** The key [g.get("completed_at", "")]: a missing time stamp sorts before
    every time stamp. *)
Definition completed_at_le (a b : option Q) : bool :=
  match a, b with
  | None, _ => true
  | Some _, None => false
  | Some x, Some y => Qle_bool x y
  end.

(** [sorted(..., key=completed_at, reverse=True)] is stable. *)
Fixpoint insert_by_completed_at (x : Goal) (l : list Goal) : list Goal :=
  match l with
  | [] => [x]
  | y :: l' =>
      if completed_at_le (completed_at y) (completed_at x) then x :: l
      else y :: insert_by_completed_at x l'
  end.

Record CompletedSummary := mkCompletedSummary {
  cs_id : string;
  cs_description : string;
  cs_completed_at : option Q
}.

(** The dict returned by [get_goal_stats]. *)
Record GoalStats := mkGoalStats {
  stat_active_goals : Z;
  stat_completed_goals : Z;
  stat_goal_types : list (string * Z);
  stat_priority_distribution : list (Z * Z);
  stat_average_progress : Q;
  stat_dependency_count : Z;
  stat_recently_completed : list CompletedSummary;
  stat_next_review_in_seconds : Q
}.

(** [get_goal_stats] *)
Definition get_goal_stats (now : Q) (s : t) : GoalStats :=
  let type_counts := count_by String.eqb type (goals s) in
  let priority_counts := count_by Z.eqb priority (goals s) in
  let avg_progress :=
    match goals s with
    | [] => 0%Q
    | _ :: _ =>
        (fold_left (fun acc goal => acc + progress goal) (goals s) 0 / inject_Z (len (goals s)))%Q
    end in
  let dependency_count :=
    fold_left (fun acc goal => acc + len (dependencies goal)) (goals s) 0 in
  let recent_completed := take 5 (foldr insert_by_completed_at [] (completed_goals s)) in
  mkGoalStats (len (goals s)) (len (completed_goals s)) type_counts priority_counts
    avg_progress dependency_count
    (map (fun g => mkCompletedSummary (id g) (description g) (completed_at g)) recent_completed)
    (Qmax 0 (next_review_time s - now)).
End GoalSystem.

(** * Properties *)

(** ** Python helpers *)

Lemma Qltb_lt x y : Qltb x y = true <-> (x < y)%Q.
Proof.
  unfold Qltb. rewrite negb_true_iff. split.
  - intros H. apply Qnot_le_lt. intros Hle. apply Qle_bool_iff in Hle. congruence.
  - intros H. destruct (Qle_bool y x) eqn:E; [|reflexivity].
    apply Qle_bool_iff in E. exfalso. apply (Qlt_not_le _ _ H E).
Qed.

Lemma Qltb_ge x y : Qltb x y = false <-> (y <= x)%Q.
Proof.
  unfold Qltb. rewrite negb_false_iff. apply Qle_bool_iff.
Qed.

Lemma str_in_In x l : str_in x l = true <-> In x l.
Proof.
  unfold str_in. rewrite existsb_exists. split.
  - intros (y & Hy & He). apply String.eqb_eq in He. by subst.
  - intros H. exists x. split; [done|]. apply String.eqb_refl.
Qed.

Section DictFacts.
Context {V : Type}.
Implicit Types (d : list (string * V)) (v : V).

Lemma dict_get_set_same k v d : dict_get k (dict_set k v d) = Some v.
Proof.
  induction d as [|[k' v'] d IH]; simpl.
  - by rewrite String.eqb_refl.
  - destruct (String.eqb k k') eqn:E; simpl; rewrite E; [done | exact IH].
Qed.

Lemma dict_get_set_other k k' v d :
  k <> k' -> dict_get k' (dict_set k v d) = dict_get k' d.
Proof.
  intros Hne. induction d as [|[k0 v0] d IH]; simpl.
  - destruct (String.eqb k' k) eqn:E; [|done].
    apply String.eqb_eq in E. congruence.
  - destruct (String.eqb k k0) eqn:E; simpl.
    + apply String.eqb_eq in E. subst k0.
      destruct (String.eqb k' k) eqn:E'; [|done].
      apply String.eqb_eq in E'. congruence.
    + by rewrite IH.
Qed.

Lemma dict_set_keys k v d :
  dict_mem k d = true -> map fst (dict_set k v d) = map fst d.
Proof.
  unfold dict_mem. induction d as [|[k' v'] d IH]; simpl; [done|].
  destruct (String.eqb k k') eqn:E; simpl; [done|].
  intros H. by rewrite IH.
Qed.

Lemma dict_set_twice k v v' d :
  dict_mem k d = true -> dict_set k v' (dict_set k v d) = dict_set k v' d.
Proof.
  unfold dict_mem. induction d as [|[k' v0] d IH]; simpl; [done|].
  destruct (String.eqb k k') eqn:E; simpl; rewrite E; [done|].
  intros H. by rewrite IH.
Qed.

End DictFacts.

(** ** self_preservation.py: the health score *)

Module SelfPreservationFacts.
Import SelfPreservation.

Lemma len_app {A} (l1 l2 : list A) : len (l1 ++ l2) = len l1 + len l2.
Proof. unfold len. rewrite length_app. lia. Qed.

Lemma len_nonneg {A} (l : list A) : 0 <= len l.
Proof. unfold len. lia. Qed.

Lemma heartbeat_missing_iff (age : Q) :
  String.eqb (heartbeat_status age) "missing" = Qle_bool 180 age.
Proof.
  unfold heartbeat_status.
  destruct (Qltb age 60) eqn:E60.
  - apply Qltb_lt in E60. change (String.eqb "ok" "missing") with false.
    destruct (Qle_bool 180 age) eqn:E; [|reflexivity].
    apply Qle_bool_iff in E. lra.
  - destruct (Qltb age 180) eqn:E180.
    + apply Qltb_lt in E180. change (String.eqb "late" "missing") with false.
      destruct (Qle_bool 180 age) eqn:E; [|reflexivity].
      apply Qle_bool_iff in E. lra.
    + apply Qltb_ge in E180. change (String.eqb "missing" "missing") with true.
      symmetry. by apply Qle_bool_iff.
Qed.

Lemma eqb_bool_decide (a b : string) : String.eqb a b = bool_decide (a = b).
Proof.
  destruct (String.eqb a b) eqn:E.
  - apply String.eqb_eq in E. by rewrite bool_decide_eq_true_2.
  - apply String.eqb_neq in E. by rewrite bool_decide_eq_false_2.
Qed.

(** The loop over the components collects, in order, the names of the
    inactive components and of the components in error. *)
Lemma check_components_lists now l cs ina err :
  (fold_left (check_component now) l (cs, ina, err)).1.2
  = ina ++ map fst (List.filter (inactive_component now) l)
  /\ (fold_left (check_component now) l (cs, ina, err)).2
     = err ++ map fst (List.filter error_component l).
Proof.
  revert cs ina err. induction l as [|[name c] l IH]; intros cs ina err; simpl.
  - by rewrite !app_nil_r.
  - destruct (IH
      (dict_set name
         (mkComponentStatus (state c) (heartbeat_status (now - last_heartbeat c))
            (error_count c)
            match last_error c with Some e => Some (now - e)%Q | None => None end) cs)
      (if String.eqb (heartbeat_status (now - last_heartbeat c)) "missing"
          || String.eqb (state c) "inactive" then ina ++ [name] else ina)
      (if String.eqb (state c) "error" then err ++ [name] else err)) as [IH1 IH2].
    rewrite IH1, IH2. clear IH IH1 IH2.
    unfold inactive_component, error_component. simpl.
    rewrite heartbeat_missing_iff, !eqb_bool_decide.
    split.
    + destruct (Qle_bool 180 (now - last_heartbeat c) || bool_decide (state c = "inactive"));
        simpl; by rewrite <- ?app_assoc.
    + destruct (bool_decide (state c = "error")); simpl; by rewrite <- ?app_assoc.
Qed.

Lemma count_recent_fold now l n :
  fold_left (count_recent now) l n = n + count (recent_error now) l.
Proof.
  revert n. induction l as [|e l IH]; intros n; simpl.
  - unfold count, len. simpl. lia.
  - rewrite IH. unfold count, len. simpl.
    unfold count_recent, recent_error.
    destruct (entry_timestamp e) as [ts|]; [|lia].
    destruct (Qltb (now - ts) 60); simpl; lia.
Qed.

Lemma clamp_max_min x : Z.max 0 (Z.min 100 x) = clamp x 0 100.
Proof.
  unfold clamp. destruct (Z.ltb_spec x 0); [lia|].
  destruct (Z.ltb_spec 100 x); lia.
Qed.

(** What [monitor_system_health] reports, in terms of the three counts. *)
Lemma monitor_system_health_report now sp :
  let h := (monitor_system_health now sp).2 in
  hs_inactive_components h = map fst (List.filter (inactive_component now) (component_states sp))
  /\ hs_error_components h = map fst (List.filter error_component (component_states sp))
  /\ hs_recent_errors h = count (recent_error now) (error_log sp)
  /\ hs_health_score h
     = Z.max 0 (Z.min 100 (100 - len (hs_inactive_components h) * 15
                           - len (hs_error_components h) * 20
                           - hs_recent_errors h * 5))
  /\ hs_status h
     = if (1 <? len (hs_error_components h))%Z || (errors_per_minute <? hs_recent_errors h)%Z
       then "critical"
       else match hs_error_components h with [] => "healthy" | _ :: _ => "degraded" end.
Proof.
  unfold monitor_system_health.
  destruct (check_components_lists now (component_states sp) [] [] []) as [H1 H2].
  destruct (fold_left (check_component now) (component_states sp) ([], [], []))
    as [[cs ina] err].
  simpl in *. subst ina err. rewrite count_recent_fold. by rewrite Z.add_0_l.
Qed.

(** The bits of the score, in the words of the specification. *)
Lemma inactive_component_spec now name c :
  inactive_component now (name, c) = true
  <-> (180 <= now - last_heartbeat c)%Q \/ state c = "inactive".
Proof.
  unfold inactive_component. simpl.
  rewrite orb_true_iff, Qle_bool_iff, bool_decide_eq_true. tauto.
Qed.

Lemma error_component_spec name c :
  error_component (name, c) = true <-> state c = "error".
Proof. unfold error_component. simpl. by rewrite bool_decide_eq_true. Qed.

Lemma recent_error_spec now e :
  recent_error now e = true
  <-> exists ts, entry_timestamp e = Some ts /\ (now - ts < 60)%Q.
Proof.
  unfold recent_error. destruct (entry_timestamp e) as [ts|].
  - rewrite Qltb_lt. split; [eauto|]. by intros (? & [= <-] & ?).
  - split; [done|]. by intros (? & ? & ?).
Qed.

(** Every time stamp in the log was read from the clock when its entry was
    written; for such a time stamp "less than 60 seconds old" is "within the
    last 60 seconds". *)
Lemma recent_error_past now e ts :
  entry_timestamp e = Some ts -> (ts <= now)%Q ->
  recent_error now e = true <-> (0 <= now - ts /\ now - ts < 60)%Q.
Proof.
  intros Hts Hpast. unfold recent_error. rewrite Hts, Qltb_lt. split; [|tauto].
  intros H. split; [lra|done].
Qed.

(** C1. For every [SelfPreservation] object and evaluation time, the
    [health_score] that [monitor_system_health] returns is 100 minus 15 for
    each inactive component (heartbeat at least 180 seconds old, or state
    ["inactive"]), minus 20 for each component in state ["error"], minus 5
    for each log entry with a time stamp less than 60 seconds old, clamped
    to the range 0..100. *)
Theorem health_score_formula (now : Q) (sp : t) :
  hs_health_score (monitor_system_health now sp).2 = spec_health_score now sp.
Proof.
  destruct (monitor_system_health_report now sp) as (Hina & Herr & Hrec & Hscore & _).
  rewrite Hscore, Hina, Herr, Hrec. unfold spec_health_score.
  rewrite clamp_max_min. f_equal. unfold count. unfold len.
  rewrite !length_map. lia.
Qed.

(** ** The scenario of one failed component *)

Lemma update_system_state_components new_state now sp :
  component_states (_update_system_state new_state now sp) = component_states sp.
Proof. unfold _update_system_state. by destruct (negb _). Qed.

Lemma one_failure_components a b ta tb te sp :
  component_states sp = [] ->
  List.filter error_component (component_states (one_failure a b ta tb te sp))
  = [(a, mkComponent "error" te 1 0 (Some te))].
Proof.
  intros Hcs. unfold one_failure, update_component_state, register_component. simpl.
  rewrite Hcs. simpl. rewrite (String.eqb_sym b a).
  destruct (String.eqb a b) eqn:Eab; simpl; rewrite !String.eqb_refl; simpl;
    destruct (_ || _); simpl; rewrite ?update_system_state_components; simpl;
    rewrite ?String.eqb_refl, ?Eab; simpl; rewrite ?String.eqb_refl; reflexivity.
Qed.

Lemma one_failure_log a b ta tb te sp :
  component_states sp = [] -> error_log sp = [] ->
  error_log (one_failure a b ta tb te sp) = [ComponentError a "active" te]
  \/ exists d, error_log (one_failure a b ta tb te sp)
               = [ComponentError a "active" te; StateChange d te].
Proof.
  intros Hcs Hlog. unfold one_failure, update_component_state, register_component. simpl.
  rewrite Hcs. simpl. rewrite (String.eqb_sym b a).
  destruct (String.eqb a b) eqn:Eab; simpl; rewrite !String.eqb_refl; simpl;
    (destruct (_ || _); simpl; rewrite ?Hlog; simpl; [|by left]);
    unfold _update_system_state; simpl;
    destruct (negb _); simpl; rewrite ?Hlog; simpl; eauto.
Qed.

(** C3, as the code has it. After registering components [a] and [b] on an
    object with no components and an empty error log, and putting [a] into
    the state ["error"], [monitor_system_health] reports the status
    ["degraded"] and a health score of at most 80, whether or not [a] is one
    of the safety-critical components. *)
Theorem one_failure_is_degraded (a b : string) (ta tb te now : Q) (sp : t) :
  component_states sp = [] ->
  error_log sp = [] ->
  let h := (monitor_system_health now (one_failure a b ta tb te sp)).2 in
  hs_status h = "degraded" /\ hs_health_score h <= 80.
Proof.
  intros Hcs Hlog h.
  destruct (monitor_system_health_report now (one_failure a b ta tb te sp))
    as (Hina & Herr & Hrec & Hscore & Hstatus).
  fold h in Hina, Herr, Hrec, Hscore, Hstatus.
  rewrite (one_failure_components a b ta tb te sp Hcs) in Herr. simpl in Herr.
  assert (Hr : 0 <= hs_recent_errors h <= 2).
  { rewrite Hrec. unfold count.
    destruct (one_failure_log a b ta tb te sp Hcs Hlog) as [-> | (d & ->)];
      simpl; repeat (destruct (recent_error _ _); simpl); unfold len; simpl; lia. }
  split.
  - rewrite Hstatus, Herr. unfold errors_per_minute.
    destruct (Z.ltb_spec 5 (hs_recent_errors h)); [lia|]. reflexivity.
  - rewrite Hscore, Herr.
    pose proof (len_nonneg (hs_inactive_components h)).
    change (len [a]) with 1. lia.
Qed.

(** The scenario on a fresh object with the safety-critical component
    ["safety_filter"], evaluated one second after the failure. *)
Lemma one_failure_is_degraded_witness :
  let h := (monitor_system_health 3 (one_failure "safety_filter" "b" 1 1 2 (init 0))).2 in
  hs_status h = "degraded" /\ hs_health_score h <= 80.
Proof. apply one_failure_is_degraded; reflexivity. Defined.

(** C3 as stated does not hold: the status reported for the scenario, with
    the safety-critical component ["safety_filter"] as the failed one, is
    not ["critical"]. *)
Lemma one_failure_not_critical :
  let h := (monitor_system_health 3 (one_failure "safety_filter" "b" 1 1 2 (init 0))).2 in
  ~ (hs_status h = "critical" /\ hs_health_score h <= 80).
Proof. intros h [Hs _]. vm_compute in Hs. discriminate Hs. Qed.

(** ** Unknown components *)

(** A component is known from its registration on, and only then does a
    heartbeat succeed. *)
Lemma registered_component_known name initial_state t0 now sp :
  let sp1 := register_component name initial_state t0 sp in
  dict_mem name (component_states sp1) = true
  /\ (component_heartbeat name now sp1).2 = true.
Proof.
  unfold dict_mem, component_heartbeat, register_component. simpl.
  by rewrite dict_get_set_same.
Qed.

Lemma register_component_others name other initial_state t0 sp :
  name <> other ->
  dict_get other (component_states (register_component name initial_state t0 sp))
  = dict_get other (component_states sp).
Proof. intros Hne. unfold register_component. simpl. by apply dict_get_set_other. Qed.

(** C8. For a component name that is not a key of [component_states],
    [component_heartbeat] and [update_component_state] both return [False]
    and leave the object as it is; in particular no entry is created for
    the name. *)
Theorem unknown_component_rejected (name new_state : string) (now : Q) (sp : t) :
  dict_mem name (component_states sp) = false ->
  component_heartbeat name now sp = (sp, false)
  /\ update_component_state name new_state now sp = (sp, false).
Proof.
  unfold dict_mem, component_heartbeat, update_component_state.
  destruct (dict_get name (component_states sp)); [discriminate|]. done.
Qed.

Lemma unknown_component_rejected_witness :
  let sp := register_component "planner" "active" 1 (init 0) in
  component_heartbeat "ghost" 2 sp = (sp, false)
  /\ update_component_state "ghost" "error" 2 sp = (sp, false).
Proof. apply unknown_component_rejected. reflexivity. Defined.

(** ** Restoring a backup *)

(** The file that [restore_system_state] reads. *)
Lemma restore_no_backup fs sp :
  backup_files fs = [] ->
  restore_system_state None fs sp = (sp, RestoreError "No backup files found").
Proof. intros H. unfold restore_system_state. simpl. by rewrite H. Qed.

(** C10. A successful [restore_system_state] sets [system_state],
    [component_states] and [recovery_counters] from the dict read from the
    chosen file (a missing key gives ["stable"], no components, zeroed
    counters) and leaves every other field, the error log among them, as it
    was; the [error_count] of the file is not used.  A failed restore leaves
    those three fields as they were. *)
Theorem restore_frame (filename : option string) (fs : FileSystem) (sp : t) :
  let sp' := (restore_system_state filename fs sp).1 in
  match (restore_system_state filename fs sp).2 with
  | RestoreSuccess f ts restored =>
      exists d,
        read_json fs f = Loaded d
        /\ system_state sp' = default "stable" (sd_system_state d)
        /\ component_states sp' = default [] (sd_component_states d)
        /\ recovery_counters sp' = default (mkCounters 0 0 []) (sd_recovery_counters d)
        /\ error_log sp' = error_log sp
        /\ monitoring_active sp' = monitoring_active sp
        /\ last_state_save sp' = last_state_save sp
        /\ shutdown_requested sp' = shutdown_requested sp
  | RestoreError _ =>
      system_state sp' = system_state sp
      /\ component_states sp' = component_states sp
      /\ recovery_counters sp' = recovery_counters sp
  end.
Proof.
  unfold restore_system_state.
  assert (Hfrom : forall f,
    let r := match read_json fs f with
             | ReadRaises message | NotAnObject message =>
                 (set_error_log
                    (error_log sp ++
                       [Failure "state_restore_failure"
                          ("Failed to restore system state: " +:+ message)]) sp,
                  RestoreError message)
             | Loaded state_data =>
                 (set_recovery_counters
                    (default (mkCounters 0 0 []) (sd_recovery_counters state_data))
                    (set_component_states (default [] (sd_component_states state_data))
                       (set_system_state (default "stable" (sd_system_state state_data)) sp)),
                  RestoreSuccess f (sd_timestamp state_data)
                    (system_state
                       (set_recovery_counters
                          (default (mkCounters 0 0 []) (sd_recovery_counters state_data))
                          (set_component_states (default [] (sd_component_states state_data))
                             (set_system_state
                                (default "stable" (sd_system_state state_data)) sp)))))
             end in
    match r.2 with
    | RestoreSuccess f' ts restored =>
        exists d,
          read_json fs f' = Loaded d
          /\ system_state r.1 = default "stable" (sd_system_state d)
          /\ component_states r.1 = default [] (sd_component_states d)
          /\ recovery_counters r.1 = default (mkCounters 0 0 []) (sd_recovery_counters d)
          /\ error_log r.1 = error_log sp
          /\ monitoring_active r.1 = monitoring_active sp
          /\ last_state_save r.1 = last_state_save sp
          /\ shutdown_requested r.1 = shutdown_requested sp
    | RestoreError _ =>
        system_state r.1 = system_state sp
        /\ component_states r.1 = component_states sp
        /\ recovery_counters r.1 = recovery_counters sp
    end).
  { intros f. destruct (read_json fs f) as [m|m|d] eqn:E; simpl; [done|done|].
    exists d. by rewrite E. }
  destruct filename as [f|]; simpl.
  - destruct (negb (String.eqb f "")); [apply Hfrom|].
    destruct (backup_files fs) as [|latest ?]; [done | apply Hfrom].
  - destruct (backup_files fs) as [|latest ?]; [done | apply Hfrom].
Qed.

(** ** Shutdown *)

(** [monitor_system_health] leaves an object that is shutting down alone. *)
Lemma monitor_respects_shutdown now sp :
  system_state sp = "shutting_down" -> (monitor_system_health now sp).1 = sp.
Proof.
  intros H. unfold monitor_system_health.
  destruct (fold_left _ _ _) as [[? ?] ?]. simpl. by rewrite H.
Qed.

Lemma safe_shutdown_marks backup_name reason now io sp :
  system_state (safe_shutdown backup_name reason now io sp).1 = "shutting_down".
Proof.
  unfold safe_shutdown. destruct (save_system_state _ _ _ _) as [sp2 r].
  simpl. unfold _update_system_state. by destruct (negb _).
Qed.

(** A report of severity ["critical"] sets [system_state] to ["degraded"],
    whatever it was. *)
Lemma critical_report_degrades py_hash component error_type description
    recover recovery_type now sp :
  system_state
    (report_error py_hash
       (mkErrorData (Some component) (Some error_type) (Some description)
          (Some "critical") recover recovery_type) now sp).1
  = "degraded".
Proof.
  unfold report_error. simpl.
  assert (Hupd : forall sp0, system_state (_update_system_state "degraded" now sp0) = "degraded").
  { intros sp0. unfold _update_system_state. by destruct (negb _). }
  assert (Hrec : forall rt ctx sp0,
             system_state (_attempt_recovery rt ctx now sp0).1 = system_state sp0).
  { intros rt ctx sp0. unfold _attempt_recovery, run_strategy, _recover_component_failure.
    destruct (dict_get rt _); destruct (str_in rt recovery_strategies); simpl; try done;
      destruct (String.eqb rt "component_failure"); simpl; try done;
      destruct (dict_get _ (component_states _)); done. }
  destruct recover; simpl; [|apply Hupd].
  destruct recovery_type as [rt|]; simpl; [|apply Hupd].
  destruct (_ || _); simpl; [|apply Hupd].
  rewrite Hrec. apply Hupd.
Qed.

(** C7 fails on the code. After [safe_shutdown] has set [system_state] to
    ["shutting_down"], a [report_error] of severity ["critical"], and the
    transition of the safety-critical component ["safety_filter"] into the
    state ["error"], each set it to ["degraded"]; a later health check then
    moves it on to ["stable"]. *)
Theorem shutdown_marker_overwritten (py_hash : string -> Z) (backup_name : Q -> string) :
  let sp :=
    (safe_shutdown backup_name "manual" 10 WriteOk
       (register_component "safety_filter" "active" 1 (start_monitoring (init 0)).1)).1 in
  system_state sp = "shutting_down"
  /\ system_state
       (report_error py_hash
          (mkErrorData (Some "planner") (Some "crash") (Some "worker died")
             (Some "critical") false None) 20 sp).1 = "degraded"
  /\ system_state (update_component_state "safety_filter" "error" 20 sp).1 = "degraded"
  /\ system_state
       (monitor_system_health 200
          (report_error py_hash
             (mkErrorData (Some "planner") (Some "crash") (Some "worker died")
                (Some "critical") false None) 20 sp).1).1 = "stable".
Proof.
  intros sp. split; [apply safe_shutdown_marks|].
  split; [apply critical_report_degrades|].
  split; reflexivity.
Qed.

(** ** Failsafes *)

(** A condition that [implement_failsafe] does not know is not answered
    with the strategy ["log_and_notify"]: the method binds no [success] for
    it and raises when it builds the result. *)
Theorem implement_failsafe_unknown (error_condition : string) (now : Q) (fs : FileSystem)
    (sp : t) :
  ~ In error_condition
      ["memory_overflow"; "component_failure"; "data_corruption"; "resource_exhaustion"] ->
  implement_failsafe error_condition now fs sp = (sp, FailsafeRaises "UnboundLocalError").
Proof.
  intros Hn. unfold implement_failsafe.
  destruct (String.eqb error_condition "memory_overflow") eqn:E1.
  { apply String.eqb_eq in E1. exfalso. apply Hn. subst. simpl. tauto. }
  destruct (String.eqb error_condition "component_failure") eqn:E2.
  { apply String.eqb_eq in E2. exfalso. apply Hn. subst. simpl. tauto. }
  destruct (String.eqb error_condition "data_corruption") eqn:E3.
  { apply String.eqb_eq in E3. exfalso. apply Hn. subst. simpl. tauto. }
  destruct (String.eqb error_condition "resource_exhaustion") eqn:E4.
  { apply String.eqb_eq in E4. exfalso. apply Hn. subst. simpl. tauto. }
  reflexivity.
Qed.

Lemma implement_failsafe_unknown_witness :
  implement_failsafe "disk_full" 5 (mkFileSystem [] (fun _ => ReadRaises "no such file"))
    (init 0)
  = (init 0, FailsafeRaises "UnboundLocalError").
Proof.
  apply implement_failsafe_unknown. simpl. intros [H|[H|[H|[H|[]]]]]; discriminate H.
Defined.

(** For ["data_corruption"] the failsafe is the restore of the newest
    backup: it reports success, with the action ["restore_backup"], exactly
    when there is a newest backup and it reads as an object; otherwise the
    action is the fallback ["initialize_subsystem"] and the three restored
    fields are as before. *)
Theorem implement_failsafe_data_corruption (now : Q) (fs : FileSystem) (sp : t) :
  exists strategy success,
    (implement_failsafe "data_corruption" now fs sp).2
    = FailsafeReturns "data_corruption" strategy now success
    /\ (success = true <->
        exists f rest d, backup_files fs = f :: rest /\ read_json fs f = Loaded d)
    /\ strategy_action strategy
       = Some (if success then "restore_backup" else "initialize_subsystem")
    /\ (success = false ->
        let sp' := (implement_failsafe "data_corruption" now fs sp).1 in
        system_state sp' = system_state sp
        /\ component_states sp' = component_states sp
        /\ recovery_counters sp' = recovery_counters sp).
Proof.
  unfold implement_failsafe.
  change (String.eqb "data_corruption" "memory_overflow") with false.
  change (String.eqb "data_corruption" "component_failure") with false.
  change (String.eqb "data_corruption" "data_corruption") with true.
  cbv iota. unfold restore_system_state. simpl.
  destruct (backup_files fs) as [|f rest] eqn:Hb.
  { eexists _, false. simpl. repeat split; try done. by intros (? & ? & ? & ? & _). }
  destruct (read_json fs f) as [m|m|d] eqn:Hr; simpl.
  - eexists _, false. simpl. repeat split; try done.
    intros (f' & rest' & d' & [= <- <-] & Hd). congruence.
  - eexists _, false. simpl. repeat split; try done.
    intros (f' & rest' & d' & [= <- <-] & Hd). congruence.
  - eexists _, true. simpl. repeat split; try done. intros _. by exists f, rest, d.
Qed.

(** ** Recovery *)

Lemma run_strategy_succeeds rt ctx now sp : (run_strategy rt ctx now sp).2 = true.
Proof.
  unfold run_strategy, _recover_component_failure.
  destruct (String.eqb rt "component_failure"); [|done].
  by destruct (dict_get _ _).
Qed.

Lemma run_strategy_frame rt ctx now sp :
  let sp' := (run_strategy rt ctx now sp).1 in
  system_state sp' = system_state sp /\ error_log sp' = error_log sp
  /\ recovery_counters sp' = recovery_counters sp
  /\ last_state_save sp' = last_state_save sp.
Proof.
  unfold run_strategy, _recover_component_failure.
  destruct (String.eqb rt "component_failure"); [|done].
  by destruct (dict_get _ _).
Qed.

(** What [_attempt_recovery] leaves alone. *)
Lemma attempt_recovery_frame rt ctx now sp :
  let sp' := (_attempt_recovery rt ctx now sp).1 in
  system_state sp' = system_state sp /\ error_log sp' = error_log sp
  /\ last_state_save sp' = last_state_save sp.
Proof.
  unfold _attempt_recovery. destruct (str_in rt recovery_strategies); [|done].
  pose proof (run_strategy_succeeds rt ctx now
    (set_recovery_counters
       (mkCounters (total_recoveries (recovery_counters sp) + 1)
          (failed_recoveries (recovery_counters sp))
          match dict_get rt (strategy_usage (recovery_counters sp)) with
          | Some n => dict_set rt (n + 1) (strategy_usage (recovery_counters sp))
          | None => dict_set rt 1 (strategy_usage (recovery_counters sp))
          end) sp)) as Hs.
  pose proof (run_strategy_frame rt ctx now
    (set_recovery_counters
       (mkCounters (total_recoveries (recovery_counters sp) + 1)
          (failed_recoveries (recovery_counters sp))
          match dict_get rt (strategy_usage (recovery_counters sp)) with
          | Some n => dict_set rt (n + 1) (strategy_usage (recovery_counters sp))
          | None => dict_set rt 1 (strategy_usage (recovery_counters sp))
          end) sp)) as (H1 & H2 & _ & H4).
  destruct (run_strategy _ _ _ _) as [sp2 success]. simpl in *. subst success. done.
Qed.

(** Every call of [_attempt_recovery] is counted: the total goes up by one,
    and so does the usage count of the strategy asked for, and of no
    other; the attempt fails, and is counted as failed, exactly when the
    strategy is not one of [recovery_strategies]. *)
Theorem attempt_recovery_counters (rt : string) (ctx : ErrorData) (now : Q) (sp : t) :
  let old := recovery_counters sp in
  let new := recovery_counters (_attempt_recovery rt ctx now sp).1 in
  total_recoveries new = total_recoveries old + 1
  /\ dict_get rt (strategy_usage new)
     = Some (default 0 (dict_get rt (strategy_usage old)) + 1)
  /\ (forall other, other <> rt ->
        dict_get other (strategy_usage new) = dict_get other (strategy_usage old))
  /\ (_attempt_recovery rt ctx now sp).2 = str_in rt recovery_strategies
  /\ failed_recoveries new
     = failed_recoveries old + (if str_in rt recovery_strategies then 0 else 1).
Proof.
  unfold _attempt_recovery.
  set (usage := match dict_get rt (strategy_usage (recovery_counters sp)) with
                | Some n => dict_set rt (n + 1) (strategy_usage (recovery_counters sp))
                | None => dict_set rt 1 (strategy_usage (recovery_counters sp))
                end).
  assert (Hu : dict_get rt usage
               = Some (default 0 (dict_get rt (strategy_usage (recovery_counters sp))) + 1)).
  { subst usage. destruct (dict_get rt (strategy_usage (recovery_counters sp))); simpl;
      by rewrite dict_get_set_same. }
  assert (Ho : forall other, other <> rt ->
             dict_get other usage = dict_get other (strategy_usage (recovery_counters sp))).
  { intros other Hne. subst usage.
    destruct (dict_get rt (strategy_usage (recovery_counters sp)));
      by apply dict_get_set_other. }
  clearbody usage.
  set (sp1 := set_recovery_counters _ sp).
  destruct (str_in rt recovery_strategies).
  - pose proof (run_strategy_succeeds rt ctx now sp1) as Hs.
    pose proof (run_strategy_frame rt ctx now sp1) as (_ & _ & Hc & _).
    destruct (run_strategy rt ctx now sp1) as [sp2 success]. simpl in *. subst success.
    simpl. rewrite Hc. simpl. repeat split; try done. lia.
  - simpl. repeat split; done.
Qed.

Lemma monitor_components now sp :
  component_states (monitor_system_health now sp).1 = component_states sp.
Proof.
  unfold monitor_system_health. destruct (fold_left _ _ _) as [[? ?] ?]. simpl.
  repeat (match goal with |- context [if ?c then _ else _] => destruct c end);
    by rewrite ?update_system_state_components.
Qed.

Lemma recover_component_states c now sp :
  component_states (_attempt_recovery "component_failure" (component_context c) now sp).1
  = match dict_get c (component_states sp) with
    | Some comp =>
        dict_set c
          (mkComponent "active" now (error_count comp) (recovery_count comp + 1)
             (last_error comp))
          (dict_set c
             (mkComponent "restarting" now (error_count comp) (recovery_count comp)
                (last_error comp))
             (component_states sp))
    | None => component_states sp
    end.
Proof.
  unfold _attempt_recovery.
  change (str_in "component_failure" recovery_strategies) with true. cbv iota.
  unfold run_strategy.
  change (String.eqb "component_failure" "component_failure") with true. cbv iota.
  unfold _recover_component_failure. simpl.
  by destruct (dict_get c (component_states sp)).
Qed.

Lemma dict_get_In {V} k (v : V) d : dict_get k d = Some v -> In (k, v) d.
Proof.
  induction d as [|[k' v'] d IH]; simpl; [done|].
  destruct (String.eqb k k') eqn:E.
  - apply String.eqb_eq in E. intros [= ->]. left. by subst.
  - intros H. right. by apply IH.
Qed.

Lemma dict_get_not_key {V} k (d : list (string * V)) :
  ~ In k (map fst d) -> dict_get k d = None.
Proof.
  induction d as [|[k' v'] d IH]; simpl; [done|].
  intros Hn. destruct (String.eqb k k') eqn:E.
  - apply String.eqb_eq in E. subst. tauto.
  - apply IH. tauto.
Qed.

(** The recovery loop, name by name: a listed component other than
    ["safety_filter"] is restarted, every other entry is left alone. *)
Lemma recovery_loop_components now (names : list string) sp c :
  List.NoDup names ->
  dict_get c
    (component_states
       (fold_left
          (fun sp component =>
             let recovery_type :=
               if String.eqb component "safety_filter" then "critical_component_failure"
               else "component_failure" in
             if str_in recovery_type recovery_strategies
             then (_attempt_recovery recovery_type (component_context component) now sp).1
             else sp)
          names sp))
  = match dict_get c (component_states sp) with
    | Some comp =>
        Some (if str_in c names && negb (String.eqb c "safety_filter")
              then mkComponent "active" now (error_count comp) (recovery_count comp + 1)
                     (last_error comp)
              else comp)
    | None => None
    end.
Proof.
  revert sp. induction names as [|x names IH]; intros sp Hnd; cbn [fold_left].
  { by destruct (dict_get c (component_states sp)). }
  inversion Hnd as [|? ? Hx Hnd']; subst. rewrite IH by done. clear IH.
  change (str_in c (x :: names)) with (String.eqb c x || str_in c names).
  cbv zeta.
  destruct (String.eqb x "safety_filter") eqn:Esf.
  - change (str_in "critical_component_failure" recovery_strategies) with false. cbv iota.
    apply String.eqb_eq in Esf. subst x.
    destruct (dict_get c (component_states sp)) as [comp|]; [|done].
    destruct (String.eqb c "safety_filter") eqn:Ec; simpl.
    + by rewrite !andb_false_r.
    + done.
  - change (str_in "component_failure" recovery_strategies) with true. cbv iota.
    rewrite recover_component_states.
    destruct (String.eqb c x) eqn:Ecx.
    + apply String.eqb_eq in Ecx. subst x. rewrite Esf.
      assert (Hnot : str_in c names = false).
      { destruct (str_in c names) eqn:E; [|done].
        unfold str_in in E. apply existsb_exists in E as (y & Hy & He).
        apply String.eqb_eq in He. subst y. done. }
      rewrite Hnot. simpl.
      destruct (dict_get c (component_states sp)) as [comp|] eqn:Hc; [|by rewrite Hc].
      by rewrite dict_get_set_same.
    + assert (Hne : x <> c).
      { intros ->. by rewrite String.eqb_refl in Ecx. }
      destruct (dict_get x (component_states sp)) as [cx|]; [|done].
      by rewrite !(dict_get_set_other x c) by done.
Qed.

Lemma error_names_spec (cs : list (string * Component)) c comp :
  List.NoDup (map fst cs) -> dict_get c cs = Some comp ->
  str_in c (map fst (List.filter error_component cs)) = bool_decide (state comp = "error").
Proof.
  induction cs as [|[k v] cs IH]; simpl; [done|].
  intros Hnd. inversion Hnd as [|? ? Hk Hnd']; subst.
  destruct (String.eqb c k) eqn:E.
  - apply String.eqb_eq in E. subst k. intros [= ->].
    unfold error_component at 1. simpl.
    destruct (bool_decide (state comp = "error")) eqn:Eb; simpl.
    + by rewrite String.eqb_refl.
    + destruct (str_in c _) eqn:Es; [|done]. exfalso.
      unfold str_in in Es. apply existsb_exists in Es as (y & Hy & He).
      apply String.eqb_eq in He. subst y. apply Hk.
      apply in_map_iff in Hy as ([k' v'] & <- & Hin). apply filter_In in Hin as [Hin _].
      apply in_map_iff. by exists (k', v').
  - intros Hc. rewrite <- (IH Hnd' Hc).
    destruct (error_component (k, v)); simpl; [|done]. by rewrite E.
Qed.

(** The components in error are restarted by the recovery that follows a
    health check, all but ["safety_filter"]: its strategy,
    ["critical_component_failure"], is not one of [recovery_strategies], so
    it is passed over and stays in error.  A restarted component is
    ["active"] with a fresh heartbeat and one more recovery; every other
    component is as it was. *)
Theorem recovery_after_health_check (checked_at now : Q) (sp : t) (c : string)
    (comp : Component) :
  List.NoDup (map fst (component_states sp)) ->
  dict_get c (component_states sp) = Some comp ->
  let checked := monitor_system_health checked_at sp in
  dict_get c
    (component_states (_attempt_recovery_from_health_status checked.2 now checked.1))
  = Some (if bool_decide (state comp = "error") && negb (String.eqb c "safety_filter")
          then mkComponent "active" now (error_count comp) (recovery_count comp + 1)
                 (last_error comp)
          else comp).
Proof.
  intros Hnd Hc checked. unfold _attempt_recovery_from_health_status.
  destruct (monitor_system_health_report checked_at sp) as (_ & Herr & _).
  fold checked in Herr. rewrite Herr.
  rewrite recovery_loop_components.
  - unfold checked. rewrite monitor_components, Hc. by rewrite (error_names_spec _ c comp).
  - clear Hc Herr. induction (component_states sp) as [|[k v] cs IH]; simpl; [constructor|].
    inversion Hnd as [|? ? Hk Hnd']; subst.
    destruct (error_component (k, v)); simpl; [|by apply IH].
    constructor; [|by apply IH]. intros Hin. apply Hk.
    apply in_map_iff in Hin as ([k' v'] & <- & Hin). apply filter_In in Hin as [Hin _].
    apply in_map_iff. by exists (k', v').
Qed.

Lemma recovery_after_health_check_witness :
  let sp := (update_component_state "planner" "error" 2
               (register_component "planner" "active" 1 (init 0))).1 in
  let checked := monitor_system_health 3 sp in
  dict_get "planner"
    (component_states (_attempt_recovery_from_health_status checked.2 4 checked.1))
  = Some (mkComponent "active" 4 1 (0 + 1) (Some 2%Q)).
Proof.
  intros sp checked.
  apply (recovery_after_health_check 3 4 sp "planner" (mkComponent "error" 2 1 0 (Some 2%Q))).
  - repeat constructor. simpl. tauto.
  - reflexivity.
Defined.

(** ** One round of the monitoring loop *)

Lemma update_system_state_log new_state now sp :
  exists extra, error_log (_update_system_state new_state now sp) = error_log sp ++ extra.
Proof.
  unfold _update_system_state. destruct (negb _); simpl.
  - by eexists.
  - exists []. by rewrite app_nil_r.
Qed.

Lemma recovery_from_health_status_frame h now sp :
  let sp' := _attempt_recovery_from_health_status h now sp in
  system_state sp' = system_state sp /\ error_log sp' = error_log sp
  /\ last_state_save sp' = last_state_save sp.
Proof.
  unfold _attempt_recovery_from_health_status.
  generalize (hs_error_components h). intros names. revert sp.
  induction names as [|x names IH]; intros sp; cbn [fold_left]; [done|].
  cbv zeta. destruct (str_in _ recovery_strategies).
  - destruct (IH (_attempt_recovery
                    (if String.eqb x "safety_filter" then "critical_component_failure"
                     else "component_failure") (component_context x) now sp).1)
      as (-> & -> & ->).
    apply attempt_recovery_frame.
  - apply IH.
Qed.

(** What each step of a round appends. *)
Lemma update_system_state_entries new_state now sp :
  exists extra,
    error_log (_update_system_state new_state now sp) = error_log sp ++ extra
    /\ (length extra <= 1)%nat /\ Forall (round_entry now) extra.
Proof.
  unfold _update_system_state. destruct (negb _); simpl.
  - eexists. split; [reflexivity|]. split; [simpl; lia|].
    constructor; [|constructor]. left. by eexists.
  - exists []. rewrite app_nil_r. split; [done|]. split; [simpl; lia|constructor].
Qed.

Lemma monitor_entries now sp :
  exists extra,
    error_log (monitor_system_health now sp).1 = error_log sp ++ extra
    /\ (length extra <= 1)%nat /\ Forall (round_entry now) extra.
Proof.
  unfold monitor_system_health. destruct (fold_left _ _ _) as [[? ?] ?]. simpl.
  repeat (match goal with |- context [if ?c then _ else _] => destruct c end);
    try apply update_system_state_entries;
    exists []; rewrite app_nil_r; (split; [done|]); (split; [simpl; lia|constructor]).
Qed.

Lemma save_entries backup_name now io sp :
  exists extra,
    error_log (save_system_state backup_name now io sp).1 = error_log sp ++ extra
    /\ (length extra <= 1)%nat /\ Forall (round_entry now) extra.
Proof.
  destruct io; simpl.
  - exists []. rewrite app_nil_r. split; [done|]. split; [simpl; lia|constructor].
  - eexists. split; [reflexivity|]. split; [simpl; lia|].
    constructor; [|constructor]. right. by eexists.
  - eexists. split; [reflexivity|]. split; [simpl; lia|].
    constructor; [|constructor]. right. by eexists.
Qed.

(** A round of the monitoring loop only adds to the error log and then
    cuts it to its newest entries.  It adds at most two entries: a state
    change, logged at the time of the round, and the record of a failed
    save.  Afterwards the log is the last 1000 entries of the old log
    followed by those, or all of them when there are no more than 1000; so
    it holds at most 1000 entries, and an entry is lost only from the old
    end. *)
Theorem monitoring_round_log (backup_name : Q -> string) (now : Q) (io : SaveIO) (sp : t) :
  let sp' := monitoring_round backup_name now io sp in
  exists newer,
    (length newer <= 2)%nat
    /\ Forall (round_entry now) newer
    /\ error_log sp'
       = drop (length (error_log sp ++ newer) - 1000) (error_log sp ++ newer)
    /\ len (error_log sp') <= 1000.
Proof.
  unfold monitoring_round.
  destruct (monitor_entries now sp) as (e1 & H1 & Hlen1 & Hall1).
  destruct (monitor_system_health now sp) as [sp1 h]. simpl in H1.
  set (sp2 := if String.eqb (hs_status h) "critical" then _ else sp1).
  assert (H2 : error_log sp2 = error_log sp ++ e1).
  { subst sp2. destruct (String.eqb (hs_status h) "critical"); [|done].
    by destruct (recovery_from_health_status_frame h now sp1) as (_ & -> & _). }
  clearbody sp2.
  set (sp3 := if Qle_bool state_save_interval (now - last_state_save sp2) then _ else sp2).
  assert (H3 : exists newer,
            error_log sp3 = error_log sp ++ newer
            /\ (length newer <= 2)%nat /\ Forall (round_entry now) newer).
  { subst sp3. destruct (Qle_bool _ _).
    - destruct (save_entries backup_name now io sp2) as (e3 & -> & Hlen3 & Hall3).
      exists (e1 ++ e3). rewrite H2, <- app_assoc. split; [done|]. split.
      + rewrite length_app. lia.
      + by apply Forall_app.
    - exists e1. split; [done|]. split; [lia|done]. }
  clearbody sp3. destruct H3 as (newer & H3 & Hlen & Hall).
  exists newer. split; [done|]. split; [done|]. rewrite <- H3.
  destruct (Z.ltb_spec 1000 (len (error_log sp3))) as [Hlong|Hshort]; simpl.
  - split; [done|]. unfold last_1000, len in *. rewrite length_drop. lia.
  - split; [|done]. unfold len in Hshort.
    replace (length (error_log sp3) - 1000)%nat with 0%nat by lia. done.
Qed.

(** ** The system state after a health check *)

(** Unless the object is shutting down, a health check sets [system_state]
    from the status it reports: healthy gives ["stable"] and critical gives
    ["critical"], whatever the state was; degraded gives ["degraded"] only
    from ["stable"] and otherwise leaves the state alone, so a state
    ["critical"] or ["initializing"] outlasts a degraded report. *)
Theorem monitor_sets_system_state (now : Q) (sp : t) :
  system_state sp <> "shutting_down" ->
  let checked := monitor_system_health now sp in
  system_state checked.1
  = if String.eqb (hs_status checked.2) "healthy" then "stable"
    else if String.eqb (hs_status checked.2) "critical" then "critical"
    else if String.eqb (system_state sp) "stable" then "degraded"
    else system_state sp.
Proof.
  intros Hsd. apply String.eqb_neq in Hsd.
  destruct (monitor_system_health_report now sp) as (_ & _ & _ & _ & Hstatus).
  revert Hstatus. unfold monitor_system_health.
  destruct (fold_left _ _ _) as [[cs ina] err]. simpl. rewrite Hsd. simpl.
  assert (Hupd : forall st, system_state (_update_system_state st now sp) = st).
  { intros st. unfold _update_system_state. by destruct (negb _). }
  intros _.
  destruct ((1 <? len err) || (errors_per_minute <? _)); simpl.
  - destruct (String.eqb (system_state sp) "critical") eqn:Ec; simpl; [|apply Hupd].
    apply String.eqb_eq in Ec. rewrite Ec. simpl. done.
  - destruct err as [|e err]; simpl.
    + destruct (String.eqb (system_state sp) "stable") eqn:Es; simpl; [|apply Hupd].
      by apply String.eqb_eq in Es.
    + destruct (String.eqb (system_state sp) "stable") eqn:Es; simpl; [apply Hupd|done].
Qed.

Lemma monitor_sets_system_state_witness :
  let checked := monitor_system_health 3 (one_failure "planner" "b" 1 1 2 (init 0)) in
  system_state checked.1 = "initializing" /\ hs_status checked.2 = "degraded".
Proof.
  intros checked. split; [|reflexivity]. unfold checked.
  rewrite (monitor_sets_system_state 3 (one_failure "planner" "b" 1 1 2 (init 0)));
    [reflexivity|discriminate].
Defined.

(** ** Failures and the health score *)

Lemma count_app {A} (p : A -> bool) l1 l2 : count p (l1 ++ l2) = count p l1 + count p l2.
Proof. unfold count. by rewrite List.filter_app, len_app. Qed.

Lemma count_nonneg {A} (p : A -> bool) l : 0 <= count p l.
Proof. apply len_nonneg. Qed.

(** Assigning to a key changes the count of the entries with a property of
    the value by what the old and the new value contribute. *)
Lemma count_dict_set {V} (p : string * V -> bool) k v old d :
  (forall k1 k2 x, p (k1, x) = p (k2, x)) ->
  dict_get k d = Some old ->
  count p (dict_set k v d)
  = count p d - (if p (k, old) then 1 else 0) + (if p (k, v) then 1 else 0).
Proof.
  intros Hp. induction d as [|[k' v'] d IH]; simpl; [done|].
  destruct (String.eqb k k') eqn:E.
  - intros [= ->]. unfold count, len. simpl.
    rewrite (Hp k' k old), (Hp k' k v).
    destruct (p (k, v)), (p (k, old)); simpl; lia.
  - intros Hd. specialize (IH Hd). unfold count, len in *. simpl.
    destruct (p (k', v')); simpl; lia.
Qed.

Lemma update_into_error c comp now sp :
  dict_get c (component_states sp) = Some comp -> state comp <> "error" ->
  let sp' := (update_component_state c "error" now sp).1 in
  component_states sp'
  = dict_set c (mkComponent "error" now (error_count comp + 1) (recovery_count comp) (Some now))
      (component_states sp)
  /\ exists extra, error_log sp' = error_log sp ++ extra.
Proof.
  intros Hc Hst. unfold update_component_state. rewrite Hc.
  apply String.eqb_neq in Hst. cbv zeta. rewrite Hst.
  change (String.eqb "error" "error") with true. cbn [negb andb].
  assert (Hm : dict_mem c (component_states sp) = true) by (unfold dict_mem; by rewrite Hc).
  destruct (str_in c _); cbn [fst].
  - rewrite update_system_state_components. split; [by apply dict_set_twice|].
    match goal with |- context [_update_system_state "degraded" now ?s] =>
      destruct (update_system_state_log "degraded" now s) as (extra & ->) end.
    simpl. rewrite <- app_assoc. by eexists.
  - split; [by apply dict_set_twice|]. by eexists.
Qed.

(** A component that fails costs at least 5 points: after
    [update_component_state] has put a component that was not in error into
    the state ["error"], the health score at any time of evaluation is at
    most what it would have been without the failure, less 5, or 0. *)
Theorem failure_lowers_health_score (c : string) (comp : Component) (failed_at now : Q)
    (sp : t) :
  dict_get c (component_states sp) = Some comp ->
  state comp <> "error" ->
  hs_health_score
    (monitor_system_health now (update_component_state c "error" failed_at sp).1).2
  <= Z.max 0 (hs_health_score (monitor_system_health now sp).2 - 5).
Proof.
  intros Hc Hst.
  destruct (update_into_error c comp failed_at sp Hc Hst) as (Hcs & extra & Hlog).
  set (sp' := (update_component_state c "error" failed_at sp).1) in *.
  destruct (monitor_system_health_report now sp) as (Hi & He & Hr & Hs & _).
  destruct (monitor_system_health_report now sp') as (Hi' & He' & Hr' & Hs' & _).
  rewrite Hs, Hs', Hi, He, Hr, Hi', He', Hr'. clear Hs Hs' Hi He Hr Hi' He' Hr'.
  rewrite Hcs, Hlog, count_app.
  pose proof (count_nonneg (recent_error now) extra).
  assert (Hlen : forall (p : string * Component -> bool) l,
            len (map fst (List.filter p l)) = count p l).
  { intros p l. unfold count, len. by rewrite length_map. }
  rewrite !Hlen.
  rewrite (count_dict_set (inactive_component now) c _ comp) by done.
  rewrite (count_dict_set error_component c _ comp) by done.
  assert (Hold : error_component (c, comp) = false).
  { unfold error_component. simpl. by apply bool_decide_eq_false. }
  rewrite Hold. change (error_component (c, _)) with true.
  pose proof (count_nonneg (inactive_component now) (component_states sp)).
  pose proof (count_nonneg error_component (component_states sp)).
  pose proof (count_nonneg (recent_error now) (error_log sp)).
  destruct (inactive_component now (c, comp));
    match goal with |- context [if ?b then 1 else 0] => destruct b end; lia.
Qed.

Lemma failure_lowers_health_score_witness :
  let sp := register_component "planner" "active" 1 (init 0) in
  hs_health_score
    (monitor_system_health 3 (update_component_state "planner" "error" 2 sp).1).2
  <= Z.max 0 (hs_health_score (monitor_system_health 3 sp).2 - 5).
Proof.
  intros sp.
  apply (failure_lowers_health_score "planner" (mkComponent "active" 1 0 0 None));
    [reflexivity|discriminate].
Defined.

(** ** Heartbeats *)

Lemma filtered_names_spec (p : string * Component -> bool) (cs : list (string * Component))
    c comp :
  (forall k1 k2 x, p (k1, x) = p (k2, x)) ->
  List.NoDup (map fst cs) -> dict_get c cs = Some comp ->
  In c (map fst (List.filter p cs)) <-> p (c, comp) = true.
Proof.
  intros Hp. induction cs as [|[k v] cs IH]; simpl; [done|].
  intros Hnd. inversion Hnd as [|? ? Hk Hnd']; subst.
  destruct (String.eqb c k) eqn:E.
  - apply String.eqb_eq in E. subst k. intros [= ->].
    destruct (p (c, comp)) eqn:Epc; simpl; [tauto|].
    split; [|done]. intros Hin. exfalso. apply Hk.
    apply in_map_iff in Hin as ([k' v'] & <- & Hin). apply filter_In in Hin as [Hin _].
    apply in_map_iff. by exists (k', v').
  - intros Hc. rewrite <- (IH Hnd' Hc). apply String.eqb_neq in E.
    destruct (p (k, v)); simpl; [|done]. split; [|tauto]. intros [->|H]; done.
Qed.

(** A heartbeat keeps a component from being counted inactive for the next
    180 seconds: a health check within that time lists the component as
    inactive only if its state is ["inactive"]. *)
Theorem heartbeat_keeps_active (c : string) (comp : Component) (beat_at now : Q) (sp : t) :
  List.NoDup (map fst (component_states sp)) ->
  dict_get c (component_states sp) = Some comp ->
  (now - beat_at < 180)%Q ->
  let sp' := (component_heartbeat c beat_at sp).1 in
  In c (hs_inactive_components (monitor_system_health now sp').2) <-> state comp = "inactive".
Proof.
  intros Hnd Hc Hfresh sp'.
  destruct (monitor_system_health_report now sp') as (Hi & _). rewrite Hi. clear Hi.
  assert (Hm : dict_mem c (component_states sp) = true) by (unfold dict_mem; by rewrite Hc).
  assert (Hcs : component_states sp'
                = dict_set c (mkComponent (state comp) beat_at (error_count comp)
                                (recovery_count comp) (last_error comp))
                    (component_states sp)).
  { unfold sp', component_heartbeat. by rewrite Hc. }
  rewrite (filtered_names_spec (inactive_component now) _ c
             (mkComponent (state comp) beat_at (error_count comp) (recovery_count comp)
                (last_error comp))).
  - rewrite inactive_component_spec. simpl. split; [|tauto]. intros [Hold|Hst]; [lra|done].
  - done.
  - by rewrite Hcs, dict_set_keys.
  - by rewrite Hcs, dict_get_set_same.
Qed.

Lemma heartbeat_keeps_active_witness :
  let sp := register_component "planner" "active" 1 (init 0) in
  In "planner"
     (hs_inactive_components
        (monitor_system_health 400 (component_heartbeat "planner" 300 sp).1).2)
  <-> "active" = "inactive".
Proof.
  intros sp.
  apply (heartbeat_keeps_active "planner" (mkComponent "active" 1 0 0 None) 300 400 sp).
  - repeat constructor. simpl. tauto.
  - reflexivity.
  - reflexivity.
Defined.

(** ** A client: [SelfEvolvingAI.start] *)

(** A health check that reports healthy leaves the system stable. *)
Lemma monitor_healthy_is_stable now sp :
  system_state sp <> "shutting_down" ->
  hs_status (monitor_system_health now sp).2 = "healthy" ->
  system_state (monitor_system_health now sp).1 = "stable".
Proof.
  intros Hsd. apply String.eqb_neq in Hsd. unfold monitor_system_health.
  destruct (fold_left _ _ _) as [[cs ina] err]. simpl. rewrite Hsd. simpl.
  destruct ((1 <? len err) || (errors_per_minute <? _)); simpl.
  { by destruct (String.eqb (system_state sp) "critical"). }
  destruct err as [|e err]; simpl.
  - intros _. destruct (String.eqb (system_state sp) "stable") eqn:Es; simpl.
    + by apply String.eqb_eq in Es.
    + unfold _update_system_state. by destruct (negb _).
  - by destruct (String.eqb (system_state sp) "stable").
Qed.

(** After [SelfEvolvingAI.start] on a new object all seven components are
    registered and active, and a health check made before any of their
    heartbeats is 180 seconds old finds the system healthy, with a score of
    100 and the state ["stable"]. *)
Theorem client_start_is_healthy (clock : nat -> Q) (t0 now : Q) :
  (forall k, (now - clock k < 180)%Q) ->
  let sp := client_start clock (init t0) in
  let checked := monitor_system_health now sp in
  map (fun item => (item.1, state item.2)) (component_states sp)
  = map (fun name => (name, "active")) ("self_evolving_ai" :: client_components)
  /\ hs_status checked.2 = "healthy"
  /\ hs_health_score checked.2 = 100
  /\ system_state checked.1 = "stable".
Proof.
  intros Hfresh sp.
  assert (Hcs : component_states sp
                = [("self_evolving_ai", mkComponent "active" (clock 13%nat) 0 0 None);
                   ("assistant", mkComponent "active" (clock 7%nat) 0 0 None);
                   ("goal_manager", mkComponent "active" (clock 8%nat) 0 0 None);
                   ("feedback_system", mkComponent "active" (clock 9%nat) 0 0 None);
                   ("resource_manager", mkComponent "active" (clock 10%nat) 0 0 None);
                   ("process_optimizer", mkComponent "active" (clock 11%nat) 0 0 None);
                   ("web_knowledge_fetcher", mkComponent "active" (clock 12%nat) 0 0 None)])
    by reflexivity.
  assert (Hlog : error_log sp = []) by reflexivity.
  assert (Hst : system_state sp = "stable") by reflexivity.
  clearbody sp. intros checked.
  split; [by rewrite Hcs|].
  destruct (monitor_system_health_report now sp) as (Hi & He & Hr & Hs & Hstatus).
  fold checked in Hi, He, Hr, Hs, Hstatus.
  assert (Hnone : forall name k ec rc le,
            inactive_component now (k, mkComponent "active" (clock name) ec rc le) = false).
  { intros name k ec rc le. destruct (inactive_component now _) eqn:E; [|done].
    apply inactive_component_spec in E as [E|E]; simpl in E.
    - specialize (Hfresh name). lra.
    - discriminate E. }
  rewrite Hcs in Hi, He. rewrite Hlog in Hr.
  cbn [List.filter] in Hi. rewrite !Hnone in Hi. simpl in Hi, He.
  change (count (recent_error now) []) with 0 in Hr.
  rewrite Hi, He, Hr in Hs. rewrite He, Hr in Hstatus. simpl in Hs, Hstatus.
  split; [done|]. split; [done|].
  apply monitor_healthy_is_stable; [by rewrite Hst|done].
Qed.

Lemma client_start_is_healthy_witness :
  let sp := client_start (fun _ => 1%Q) (init 0) in
  let checked := monitor_system_health 2 sp in
  map (fun item => (item.1, state item.2)) (component_states sp)
  = map (fun name => (name, "active")) ("self_evolving_ai" :: client_components)
  /\ hs_status checked.2 = "healthy"
  /\ hs_health_score checked.2 = 100
  /\ system_state checked.1 = "stable".
Proof. apply (client_start_is_healthy (fun _ => 1%Q) 0 2). intros _. reflexivity. Defined.

(** ** Saving and restoring *)

(** Restoring from the newest backup, when it reads back as the dict that
    [save_system_state] wrote for an object, gives that object's
    [system_state], [component_states] and [recovery_counters]; the error
    log is not part of what comes back, only its length was saved. *)
Theorem restore_of_saved_state (saved_at : Q) (saved sp : t) (fs : FileSystem) (f : string)
    (older : list string) :
  backup_files fs = f :: older ->
  read_json fs f = Loaded (state_data saved_at saved) ->
  let restored := restore_system_state None fs sp in
  restored.2 = RestoreSuccess f (Some saved_at) (system_state saved)
  /\ system_state restored.1 = system_state saved
  /\ component_states restored.1 = component_states saved
  /\ recovery_counters restored.1 = recovery_counters saved
  /\ error_log restored.1 = error_log sp.
Proof.
  intros Hb Hr. unfold restore_system_state. simpl. rewrite Hb, Hr. done.
Qed.

Lemma restore_of_saved_state_witness :
  let saved := register_component "planner" "active" 1 (init 0) in
  let fs := mkFileSystem ["backups/system_state_a.json"]
              (fun _ => Loaded (state_data 2 saved)) in
  let restored := restore_system_state None fs (init 5) in
  restored.2 = RestoreSuccess "backups/system_state_a.json" (Some 2%Q) "initializing"
  /\ system_state restored.1 = "initializing"
  /\ component_states restored.1 = component_states saved
  /\ recovery_counters restored.1 = recovery_counters saved
  /\ error_log restored.1 = [].
Proof.
  intros saved fs.
  apply (restore_of_saved_state 2 saved (init 5) fs "backups/system_state_a.json" []);
    reflexivity.
Defined.

(** ** The backup directory *)

Lemma backup_path_inj f1 f2 : backup_path f1 = backup_path f2 -> f1 = f2.
Proof. unfold backup_path, backup_dir. intros H. vm_compute in H. by injection H. Qed.

Lemma insert_by_mtime_perm x l : Permutation (insert_by_mtime x l) (x :: l).
Proof.
  induction l as [|y l IH]; simpl; [done|].
  destruct (Qle_bool (entry_mtime y) (entry_mtime x)); [done|].
  rewrite IH. apply perm_swap.
Qed.

Lemma newest_first_perm l : Permutation (newest_first l) l.
Proof.
  induction l as [|x l IH]; simpl; [done|]. by rewrite insert_by_mtime_perm, IH.
Qed.

Lemma insert_by_mtime_sorted x l :
  StronglySorted (fun a b => (entry_mtime b <= entry_mtime a)%Q) l ->
  StronglySorted (fun a b => (entry_mtime b <= entry_mtime a)%Q) (insert_by_mtime x l).
Proof.
  induction 1 as [|y l Hl IH Hy]; simpl.
  - repeat constructor.
  - destruct (Qle_bool (entry_mtime y) (entry_mtime x)) eqn:E.
    + apply Qle_bool_iff in E. constructor; [by constructor|].
      constructor; [done|]. eapply Forall_impl; [exact Hy|]. simpl.
      intros z Hz. by eapply Qle_trans.
    + assert (Hlt : (entry_mtime x < entry_mtime y)%Q).
      { apply Qnot_le_lt. intros Hle. apply Qle_bool_iff in Hle. congruence. }
      constructor; [done|].
      rewrite insert_by_mtime_perm. constructor; [by apply Qlt_le_weak|done].
Qed.

Lemma newest_first_sorted l :
  StronglySorted (fun a b => (entry_mtime b <= entry_mtime a)%Q) (newest_first l).
Proof.
  induction l as [|x l IH]; simpl; [constructor|]. by apply insert_by_mtime_sorted.
Qed.

Lemma insert_by_mtime_front x l :
  Forall (fun z => (entry_mtime z <= entry_mtime x)%Q) l -> insert_by_mtime x l = x :: l.
Proof.
  destruct 1 as [|y l Hy _]; simpl; [done|].
  apply Qle_bool_iff in Hy. by rewrite Hy.
Qed.

(** Sorting and filtering commute, because the sort is stable. *)
Lemma filter_insert_by_mtime (q : DirEntry -> bool) x l :
  StronglySorted (fun a b => (entry_mtime b <= entry_mtime a)%Q) l ->
  List.filter q (insert_by_mtime x l)
  = if q x then insert_by_mtime x (List.filter q l) else List.filter q l.
Proof.
  induction 1 as [|y l Hl IH Hy]; [simpl; by destruct (q x)|].
  cbn [insert_by_mtime].
  destruct (Qle_bool (entry_mtime y) (entry_mtime x)) eqn:E.
  - assert (Hfront : insert_by_mtime x (List.filter q (y :: l))
                     = x :: List.filter q (y :: l)).
    { apply insert_by_mtime_front. apply Qle_bool_iff in E.
      assert (Hall : Forall (fun z => (entry_mtime z <= entry_mtime x)%Q) (y :: l)).
      { constructor; [done|]. eapply Forall_impl; [exact Hy|]. simpl.
        intros z Hz. by eapply Qle_trans. }
      rewrite Forall_forall in Hall. apply Forall_forall. intros z Hz.
      apply Hall. apply list_elem_of_In in Hz. apply list_elem_of_In.
      apply filter_In in Hz. tauto. }
    rewrite Hfront.
    change (List.filter q (x :: y :: l))
      with (if q x then x :: List.filter q (y :: l) else List.filter q (y :: l)).
    done.
  - cbn [List.filter]. rewrite IH.
    destruct (q y) eqn:Ey, (q x) eqn:Ex; try done.
    cbn [insert_by_mtime]. by rewrite E.
Qed.

Lemma filter_newest_first (q : DirEntry -> bool) l :
  List.filter q (newest_first l) = newest_first (List.filter q l).
Proof.
  induction l as [|x l IH]; [done|]. cbn [newest_first foldr].
  rewrite filter_insert_by_mtime by apply newest_first_sorted.
  fold (newest_first l). rewrite IH. cbn [List.filter]. by destruct (q x).
Qed.

Lemma filter_comm {A} (p q : A -> bool) (l : list A) :
  List.filter p (List.filter q l) = List.filter q (List.filter p l).
Proof.
  induction l as [|x l IH]; [done|]. simpl.
  destruct (q x) eqn:Eq, (p x) eqn:Ep; simpl; rewrite ?Eq, ?Ep, IH; done.
Qed.

Lemma filter_all {A} (p : A -> bool) (l : list A) :
  (forall x, In x l -> p x = true) -> List.filter p l = l.
Proof.
  induction l as [|x l IH]; [done|]. intros H. simpl.
  rewrite (H x) by (by left). f_equal. apply IH. intros y Hy. apply H. by right.
Qed.

Lemma filter_none {A} (p : A -> bool) (l : list A) :
  (forall x, In x l -> p x = false) -> List.filter p l = [].
Proof.
  induction l as [|x l IH]; [done|]. intros H. simpl.
  rewrite (H x) by (by left). apply IH. intros y Hy. apply H. by right.
Qed.

Lemma filter_implied {A} (p q : A -> bool) (l : list A) :
  (forall x, In x l -> p x = true -> q x = true) ->
  List.filter p (List.filter q l) = List.filter p l.
Proof.
  induction l as [|x l IH]; [done|]. intros H. simpl.
  assert (IH' : List.filter p (List.filter q l) = List.filter p l).
  { apply IH. intros y Hy. apply H. by right. }
  destruct (p x) eqn:Ep.
  - rewrite (H x) by (done || by left). simpl. by rewrite Ep, IH'.
  - destruct (q x); simpl; by rewrite ?Ep, IH'.
Qed.

Lemma filter_filter_andb {A} (p q : A -> bool) (l : list A) :
  List.filter p (List.filter q l) = List.filter (fun x => q x && p x) l.
Proof.
  induction l as [|x l IH]; [done|]. simpl.
  destruct (q x); simpl; [destruct (p x)|]; by rewrite IH.
Qed.

(** The deletions of [_cleanup_old_backups], taken together. *)
Lemma remove_files_filter can_remove files entries :
  fold_left (fun entries f => remove_file can_remove f entries) files entries
  = List.filter (fun e => negb (str_in (entry_path e) (List.filter can_remove files))) entries.
Proof.
  revert entries. induction files as [|f files IH]; intros entries.
  - symmetry. by apply filter_all.
  - cbn [fold_left List.filter]. rewrite IH. unfold remove_file.
    destruct (can_remove f) eqn:Ef; [|done].
    rewrite filter_filter_andb. apply filter_ext. intros e.
    unfold str_in. cbn [existsb]. by rewrite negb_orb.
Qed.

(** [_get_backup_files] lists the backups of the directory, newest first:
    its result is the paths of the entries named [system_state_*.json],
    each once, ordered so that no file comes before a younger one.  A
    missing directory has no backups. *)
Theorem get_backup_files_newest_first (entries : list DirEntry) :
  _get_backup_files None = []
  /\ exists backups,
       _get_backup_files (Some entries) = map entry_path backups
       /\ Permutation backups (List.filter is_backup entries)
       /\ StronglySorted (fun a b => (entry_mtime b <= entry_mtime a)%Q) backups.
Proof.
  split; [done|]. exists (newest_first (List.filter is_backup entries)).
  split; [done|]. split; [apply newest_first_perm|apply newest_first_sorted].
Qed.

Lemma NoDup_entry_path l : NoDup (map entry_name l) -> NoDup (map entry_path l).
Proof.
  induction l as [|e l IH]; simpl; [constructor|].
  rewrite !NoDup_cons. intros [Hnin Hnd]. split; [|by apply IH].
  intros Hin. apply Hnin. apply list_elem_of_In, in_map_iff in Hin as (e' & Heq & Hin).
  apply backup_path_inj in Heq. apply list_elem_of_In, in_map_iff. by exists e'.
Qed.

Lemma NoDup_filter_names (p : DirEntry -> bool) l :
  NoDup (map entry_name l) -> NoDup (map entry_name (List.filter p l)).
Proof.
  induction l as [|e l IH]; simpl; [done|].
  rewrite NoDup_cons. intros [Hnin Hnd]. destruct (p e); simpl; [|by apply IH].
  apply NoDup_cons. split; [|by apply IH].
  intros Hin. apply Hnin. apply list_elem_of_In, in_map_iff in Hin as (e' & Heq & Hin).
  apply filter_In in Hin as [Hin _]. apply list_elem_of_In, in_map_iff. by exists e'.
Qed.

(** [_cleanup_old_backups] keeps the ten newest backups and every file that
    is not a backup, whether or not its deletions succeed; when they all
    succeed, the ten newest backups are the only backups left.  File names
    in a directory are distinct. *)
Theorem cleanup_keeps_newest (can_remove : string -> bool) (entries : list DirEntry) :
  NoDup (map entry_name entries) ->
  exists entries',
    _cleanup_old_backups can_remove (Some entries) = Some entries'
    /\ take 10 (_get_backup_files (Some entries')) = take 10 (_get_backup_files (Some entries))
    /\ List.filter (fun e => negb (is_backup e)) entries'
       = List.filter (fun e => negb (is_backup e)) entries
    /\ ((forall f, can_remove f = true) ->
        _get_backup_files (Some entries') = take 10 (_get_backup_files (Some entries))).
Proof.
  intros Hnd. unfold _cleanup_old_backups.
  destruct (10 <? len (_get_backup_files (Some entries))) eqn:Hmany.
  2:{ exists entries. repeat split; try done. intros _.
      apply Z.ltb_ge in Hmany. unfold len in Hmany.
      symmetry. apply take_ge. lia. }
  apply Z.ltb_lt in Hmany. unfold len in Hmany.
  eexists. split; [reflexivity|]. rewrite remove_files_filter.
  cbn [_get_backup_files] in *.
  set (backups := newest_first (List.filter is_backup entries)) in *.
  set (keep := fun e => negb (str_in (entry_path e)
                                (List.filter can_remove (drop 10 (map entry_path backups))))).
  assert (Hpaths : NoDup (map entry_path backups)).
  { apply NoDup_entry_path.
    assert (Hp : map entry_name backups ≡ₚ map entry_name (List.filter is_backup entries))
      by apply Permutation_map, newest_first_perm.
    rewrite Hp. by apply NoDup_filter_names. }
  assert (Hfront : forall e, In e (take 10 backups) -> keep e = true).
  { intros e He. unfold keep. apply negb_true_iff.
    destruct (str_in _ _) eqn:Hin; [|done]. exfalso.
    apply str_in_In, filter_In in Hin as [Hin _].
    rewrite <- (take_drop 10 backups), map_app in Hpaths.
    apply NoDup_app in Hpaths as (_ & Hdisj & _).
    apply (Hdisj (entry_path e)).
    - apply list_elem_of_In, in_map. done.
    - apply list_elem_of_In. change (map entry_path (drop 10 backups))
        with (entry_path <$> drop 10 backups). by rewrite fmap_drop. }
  assert (Hlisting : List.filter is_backup (List.filter keep entries)
                     = List.filter keep (List.filter is_backup entries))
    by apply filter_comm.
  assert (Hkept : newest_first (List.filter is_backup (List.filter keep entries))
                  = take 10 backups ++ List.filter keep (drop 10 backups)).
  { rewrite Hlisting, <- filter_newest_first. fold backups.
    rewrite <- (take_drop 10 backups) at 1. rewrite List.filter_app.
    by rewrite (filter_all keep (take 10 backups)). }
  assert (Hten : length (take 10 backups) = 10%nat).
  { rewrite length_take. rewrite length_map in Hmany. lia. }
  rewrite Hkept. repeat split.
  - rewrite map_app. rewrite take_app_length' by (by rewrite length_map).
    change (map entry_path backups) with (entry_path <$> backups).
    by rewrite <- fmap_take.
  - apply (filter_implied (fun e => negb (is_backup e)) keep). intros e He Hno.
    unfold keep. apply negb_true_iff. destruct (str_in _ _) eqn:Hin; [|done]. exfalso.
    apply str_in_In, filter_In in Hin as [Hin _].
    assert (He'' : In (entry_path e) (map entry_path backups)).
    { rewrite <- (take_drop 10 (map entry_path backups)). apply in_or_app. by right. }
    apply in_map_iff in He'' as (b & Hb & Hbin).
    apply backup_path_inj in Hb.
    apply list_elem_of_In in Hbin. unfold backups in Hbin.
    rewrite newest_first_perm in Hbin. apply list_elem_of_In, filter_In in Hbin as [Hbin Hbk].
    assert (b = e) as ->.
    { apply list_elem_of_In in He, Hbin.
      destruct (list_elem_of_lookup_1 _ _ He) as [i Hi], (list_elem_of_lookup_1 _ _ Hbin) as [j Hj].
      assert (i = j).
      { eapply NoDup_lookup; [exact Hnd| |].
        - change (map entry_name entries) with (entry_name <$> entries).
          rewrite list_lookup_fmap, Hi. reflexivity.
        - change (map entry_name entries) with (entry_name <$> entries).
          rewrite list_lookup_fmap, Hj. simpl. by rewrite Hb. }
      congruence. }
    rewrite Hbk in Hno. done.
  - intros Hall. rewrite (filter_none keep (drop 10 backups)).
    + rewrite app_nil_r. change (map entry_path backups) with (entry_path <$> backups).
      by rewrite fmap_take.
    + intros e He. unfold keep. apply negb_false_iff, str_in_In, filter_In.
      split; [|apply Hall].
      change (map entry_path backups) with (entry_path <$> backups).
      rewrite <- fmap_drop. by apply in_map.
Qed.

(** Twelve backups and a file of another kind. *)
Lemma cleanup_keeps_newest_witness :
  let entries :=
    mkDirEntry "README.txt" 99
    :: map (fun n => mkDirEntry ("system_state_" +:+ pretty n +:+ ".json")
                       (inject_Z (Z.of_nat n)))
         (seq 0 12) in
  exists entries',
    _cleanup_old_backups (fun _ => true) (Some entries) = Some entries'
    /\ take 10 (_get_backup_files (Some entries')) = take 10 (_get_backup_files (Some entries))
    /\ List.filter (fun e => negb (is_backup e)) entries'
       = List.filter (fun e => negb (is_backup e)) entries
    /\ ((forall f, (fun _ : string => true) f = true) ->
        _get_backup_files (Some entries') = take 10 (_get_backup_files (Some entries))).
Proof.
  intros entries. apply (cleanup_keeps_newest (fun _ => true) entries).
  apply (bool_decide_unpack _). vm_compute. exact I.
Defined.

(** ** Reported errors and the health score *)

(** What a complete report that asks for no immediate recovery changes. *)
Lemma report_error_changes py_hash ed component error_type description reported_at sp :
  ed_component ed = Some component ->
  ed_error_type ed = Some error_type ->
  ed_description ed = Some description ->
  ed_requires_immediate_recovery ed = false ->
  let out := report_error py_hash ed reported_at sp in
  let severity := default "warning" (ed_severity ed) in
  component_states out.1 = component_states sp
  /\ (exists extra, error_log out.1 = error_log sp ++ Reported ed reported_at out.2 :: extra)
  /\ system_state out.1
     = if String.eqb severity "critical"
          || String.eqb severity "warning"
             && match dict_get component (component_states sp) with
                | Some c => (consecutive_failures <=? error_count c)%Z
                | None => false
                end
       then "degraded" else system_state sp.
Proof.
  intros Hc Ht Hd Hrec. unfold report_error. rewrite Hc, Ht, Hd, Hrec. cbv zeta.
  set (error_id := "err_" +:+ _). clearbody error_id.
  set (sp1 := set_error_log (error_log sp ++ [Reported ed reported_at error_id]) sp).
  assert (Hdegraded :
    component_states (_update_system_state "degraded" reported_at sp1) = component_states sp
    /\ (exists extra, error_log (_update_system_state "degraded" reported_at sp1)
                      = error_log sp ++ Reported ed reported_at error_id :: extra)
    /\ system_state (_update_system_state "degraded" reported_at sp1) = "degraded").
  { split; [by rewrite update_system_state_components|]. split.
    - destruct (update_system_state_log "degraded" reported_at sp1) as (extra & ->).
      exists extra. simpl. by rewrite <- app_assoc.
    - unfold _update_system_state. by destruct (negb _). }
  assert (Hsame :
    component_states sp1 = component_states sp
    /\ (exists extra, error_log sp1 = error_log sp ++ Reported ed reported_at error_id :: extra)
    /\ system_state sp1 = system_state sp).
  { split; [done|]. split; [by exists []|done]. }
  clearbody sp1.
  destruct (String.eqb (default "warning" (ed_severity ed)) "critical"); [exact Hdegraded|].
  destruct (String.eqb (default "warning" (ed_severity ed)) "warning"); [|exact Hsame].
  destruct Hsame as (Hcs & Hlog & Hst). rewrite Hcs.
  destruct (dict_get component (component_states sp)) as [c|]; [|done].
  cbn [orb andb]. by destruct (consecutive_failures <=? error_count c).
Qed.

(** A reported error costs at least 5 points for a minute.  After a report
    with the three required fields that asks for no immediate recovery, a
    health check less than 60 seconds later gives a score that is at most
    what it would have been without the report, less 5, or 0.  The report
    itself changes no component, and degrades the system exactly when its
    severity is critical, or warning for a registered component that has
    already failed [consecutive_failures] times. *)
Theorem report_lowers_health_score (py_hash : string -> Z) (ed : ErrorData)
    (component error_type description : string) (reported_at now : Q) (sp : t) :
  ed_component ed = Some component ->
  ed_error_type ed = Some error_type ->
  ed_description ed = Some description ->
  ed_requires_immediate_recovery ed = false ->
  (now - reported_at < 60)%Q ->
  let sp' := (report_error py_hash ed reported_at sp).1 in
  let severity := default "warning" (ed_severity ed) in
  hs_health_score (monitor_system_health now sp').2
  <= Z.max 0 (hs_health_score (monitor_system_health now sp).2 - 5)
  /\ component_states sp' = component_states sp
  /\ system_state sp'
     = if String.eqb severity "critical"
          || String.eqb severity "warning"
             && match dict_get component (component_states sp) with
                | Some c => (consecutive_failures <=? error_count c)%Z
                | None => false
                end
       then "degraded" else system_state sp.
Proof.
  intros Hc Ht Hd Hrec Hrecent sp' severity.
  destruct (report_error_changes py_hash ed component error_type description reported_at sp
              Hc Ht Hd Hrec) as (Hcs & (extra & Hlog) & Hst).
  fold sp' in Hcs, Hlog, Hst. split; [|by split].
  destruct (monitor_system_health_report now sp) as (Hi & He & Hr & Hs & _).
  destruct (monitor_system_health_report now sp') as (Hi' & He' & Hr' & Hs' & _).
  rewrite Hs, Hs', Hi, He, Hr, Hi', He', Hr'. clear Hs Hs' Hi He Hr Hi' He' Hr'.
  rewrite Hcs, Hlog, count_app.
  assert (Hnew : 1 <= count (recent_error now)
                        (Reported ed reported_at (report_error py_hash ed reported_at sp).2
                         :: extra)).
  { change (?x :: extra) with ([x] ++ extra). rewrite count_app.
    pose proof (count_nonneg (recent_error now) extra).
    assert (recent_error now
              (Reported ed reported_at (report_error py_hash ed reported_at sp).2) = true)
      as Hone.
    { apply recent_error_spec. by exists reported_at. }
    unfold count at 1. cbn [List.filter]. rewrite Hone. unfold len. simpl length. lia. }
  pose proof (count_nonneg (recent_error now) (error_log sp)).
  pose proof (len_nonneg (map fst (List.filter (inactive_component now) (component_states sp)))).
  pose proof (len_nonneg (map fst (List.filter error_component (component_states sp)))).
  lia.
Qed.

Lemma report_lowers_health_score_witness :
  let ed := mkErrorData (Some "planner") (Some "timeout") (Some "no answer") None false None in
  let sp := register_component "planner" "active" 1 (init 0) in
  let sp' := (report_error (fun _ => 42) ed 10 sp).1 in
  hs_health_score (monitor_system_health 30 sp').2
  <= Z.max 0 (hs_health_score (monitor_system_health 30 sp).2 - 5)
  /\ component_states sp' = component_states sp
  /\ system_state sp'
     = if String.eqb "warning" "critical"
          || String.eqb "warning" "warning"
             && match dict_get "planner" (component_states sp) with
                | Some c => (consecutive_failures <=? error_count c)%Z
                | None => false
                end
       then "degraded" else system_state sp.
Proof.
  intros ed sp.
  apply (report_lowers_health_score (fun _ => 42) ed "planner" "timeout" "no answer" 10 30 sp);
    reflexivity.
Defined.

End SelfPreservationFacts.

(** ** goal_system.py *)

Module GoalSystemFacts.
Import GoalSystem.

(** *** Finding goals *)

Lemma find_index_Some {A} (p : A -> bool) (l : list A) (i : nat) :
  find_index p l = Some i ->
  exists x, l !! i = Some x /\ p x = true
            /\ forall j y, (j < i)%nat -> l !! j = Some y -> p y = false.
Proof.
  revert i. induction l as [|a l IH]; intros i; simpl; [done|].
  destruct (p a) eqn:Ea.
  - intros [= <-]. exists a. repeat split; [done|]. intros j y Hj. lia.
  - destruct (find_index p l) as [k|] eqn:Ek; simpl; [|done].
    intros [= <-]. destruct (IH k eq_refl) as (x & Hx & Hpx & Hlt).
    exists x. repeat split; [done..|].
    intros [|j] y Hj; simpl.
    + by intros [= <-].
    + apply Hlt. lia.
Qed.

Lemma find_index_None {A} (p : A -> bool) (l : list A) :
  find_index p l = None -> Forall (fun x => p x = false) l.
Proof.
  induction l as [|a l IH]; simpl; [by constructor|].
  destruct (p a) eqn:Ea; [done|].
  destruct (find_index p l); simpl; [done|]. intros _. constructor; auto.
Qed.

Lemma find_index_first {A} (p : A -> bool) (l : list A) (i : nat) (x : A) :
  l !! i = Some x -> p x = true ->
  (forall j y, (j < i)%nat -> l !! j = Some y -> p y = false) ->
  find_index p l = Some i.
Proof.
  revert i. induction l as [|a l IH]; intros i; [done|].
  destruct i as [|i]; simpl.
  - intros [= ->] -> _. done.
  - intros Hx Hp Hlt. rewrite (Hlt 0%nat a); [|lia|done].
    rewrite (IH i); [done..|]. intros j y Hj Hy. apply (Hlt (S j)); [lia|done].
Qed.

Lemma find_index_ext {A} (p q : A -> bool) (l : list A) :
  Forall (fun x => p x = q x) l -> find_index p l = find_index q l.
Proof.
  induction 1 as [|a l Ha _ IH]; simpl; [done|]. by rewrite Ha, IH.
Qed.

Lemma has_id_true goal_id g : has_id goal_id g = true <-> id g = goal_id.
Proof. unfold has_id. apply String.eqb_eq. Qed.

Lemma has_id_false goal_id g : has_id goal_id g = false <-> id g <> goal_id.
Proof. unfold has_id. apply String.eqb_neq. Qed.

(** A position returned by [locate] holds a goal with the id looked for. *)
Lemma locate_read s goal_id l :
  locate s goal_id = Some l ->
  exists g, read s l = Some g /\ id g = goal_id.
Proof.
  unfold locate.
  destruct (find_index (has_id goal_id) (goals s)) as [i|] eqn:Ei.
  - intros [= <-]. destruct (find_index_Some _ _ _ Ei) as (g & Hg & Hid & _).
    exists g. split; [done|]. by apply has_id_true.
  - destruct (find_index (has_id goal_id) (completed_goals s)) as [i|] eqn:Ec; [|done].
    intros [= <-]. destruct (find_index_Some _ _ _ Ec) as (g & Hg & Hid & _).
    exists g. split; [done|]. by apply has_id_true.
Qed.

Lemma get_goal_id s goal_id g : get_goal s goal_id = Some g -> id g = goal_id.
Proof.
  unfold get_goal. destruct (locate s goal_id) as [l|] eqn:El; [|done]. simpl.
  destruct (locate_read _ _ _ El) as (g' & Hg' & Hid). rewrite Hg'. by intros [= <-].
Qed.

Lemma get_goal_In s goal_id g :
  get_goal s goal_id = Some g -> In g (goals s ++ completed_goals s).
Proof.
  unfold get_goal. destruct (locate s goal_id) as [[i|i]|]; simpl; [| |done];
    intros H; apply list_elem_of_In, elem_of_app; [left|right];
    by eapply list_elem_of_lookup_2.
Qed.

Lemma get_goal_None s goal_id :
  get_goal s goal_id = None -> ~ In goal_id (ids s).
Proof.
  unfold get_goal, locate, ids.
  destruct (find_index (has_id goal_id) (goals s)) as [i|] eqn:Ei.
  { simpl. destruct (find_index_Some _ _ _ Ei) as (g & -> & _). done. }
  destruct (find_index (has_id goal_id) (completed_goals s)) as [i|] eqn:Ec.
  { simpl. destruct (find_index_Some _ _ _ Ec) as (g & -> & _). done. }
  intros _. apply find_index_None in Ei, Ec.
  rewrite in_map_iff. intros (g & Hid & Hin).
  apply in_app_or in Hin. rewrite Forall_forall in Ei, Ec.
  destruct Hin as [Hin|Hin]; apply list_elem_of_In in Hin;
    [apply Ei in Hin | apply Ec in Hin]; apply has_id_false in Hin; done.
Qed.

(** *** Equality of goals *)

Lemma opt_Qeqb_refl o : opt_Qeqb o o = true.
Proof. destruct o; simpl; [|done]. by apply Qeq_bool_iff. Qed.

Lemma list_eqb_refl {A} (eqb : A -> A -> bool) l :
  (forall x, eqb x x = true) -> list_eqb eqb l l = true.
Proof. intros H. induction l; simpl; [done|]. by rewrite H, IHl. Qed.

Lemma subtask_eqb_refl st : subtask_eqb st st = true.
Proof.
  unfold subtask_eqb.
  by rewrite !String.eqb_refl, Bool.eqb_reflx, opt_Qeqb_refl.
Qed.

Lemma goal_eqb_refl g : goal_eqb g g = true.
Proof.
  unfold goal_eqb.
  rewrite !String.eqb_refl, !Z.eqb_refl, !opt_Qeqb_refl.
  rewrite (list_eqb_refl subtask_eqb), (list_eqb_refl String.eqb);
    [|apply String.eqb_refl|apply subtask_eqb_refl].
  rewrite bool_decide_eq_true_2; [|done].
  assert (H : forall q, Qeq_bool q q = true) by (intros q; by apply Qeq_bool_iff).
  by rewrite !H.
Qed.

Lemma goal_eqb_id a b : goal_eqb a b = true -> id a = id b.
Proof.
  unfold goal_eqb. rewrite !andb_true_iff. intros H.
  repeat match type of H with _ /\ _ => destruct H as [H _] end.
  by apply String.eqb_eq.
Qed.

(** [l.remove(x)] when the first element equal to [x] is at position [i]. *)
Lemma list_remove_at {A} (eqb : A -> A -> bool) (x : A) (l : list A) (i : nat) (y : A) :
  l !! i = Some y -> eqb y x = true ->
  (forall j z, (j < i)%nat -> l !! j = Some z -> eqb z x = false) ->
  list_remove eqb x l = Some (delete i l).
Proof.
  revert i. induction l as [|a l IH]; intros i; [done|].
  destruct i as [|i]; simpl.
  - intros [= ->] -> _. done.
  - intros Hy He Hlt. rewrite (Hlt 0%nat a); [|lia|done].
    rewrite (IH i); [done..|]. intros j z Hj Hz. apply (Hlt (S j)); [lia|done].
Qed.

Lemma list_remove_absent {A} (eqb : A -> A -> bool) (x : A) (l : list A) :
  Forall (fun z => eqb z x = false) l -> list_remove eqb x l = None.
Proof. induction 1 as [|a l Ha _ IH]; simpl; [done|]. by rewrite Ha, IH. Qed.

(** *** What each method does to ids, statuses and progress *)

Lemma map_fmap {A B} (f : A -> B) (l : list A) : map f l = f <$> l.
Proof. reflexivity. Qed.

Lemma delete_insert_same {A} (l : list A) i x : delete i (<[i:=x]> l) = delete i l.
Proof.
  revert i. induction l as [|a l IH]; intros [|i]; simpl; [done..|].
  f_equal. apply IH.
Qed.

Lemma core_insert (l : list Goal) i g g' :
  l !! i = Some g -> core g' = core g -> core <$> <[i:=g']> l = core <$> l.
Proof.
  intros Hg Hc. rewrite list_fmap_insert, Hc. apply list_insert_id.
  by rewrite list_lookup_fmap, Hg.
Qed.

(** Writing back a goal with the same id, status and progress. *)
Lemma write_same_core s l g g' :
  read s l = Some g -> core g' = core g ->
  core <$> goals (write l g' s) = core <$> goals s
  /\ core <$> completed_goals (write l g' s) = core <$> completed_goals s.
Proof.
  intros Hr Hc. destruct l as [i|i]; simpl in *; split; try done;
    by eapply core_insert.
Qed.

Lemma decompose_goal_cores goal_id s :
  core <$> goals (decompose_goal goal_id s).1 = core <$> goals s
  /\ core <$> completed_goals (decompose_goal goal_id s).1 = core <$> completed_goals s.
Proof.
  unfold decompose_goal. destruct (locate s goal_id) as [l|]; [|done].
  destruct (read s l) as [g|] eqn:Hr; [|done].
  destruct (subtasks g); [|done]. simpl. by eapply write_same_core.
Qed.

Lemma add_dependency_cores goal_id dep_id s s' b :
  add_dependency goal_id dep_id s = Some (s', b) ->
  core <$> goals s' = core <$> goals s
  /\ core <$> completed_goals s' = core <$> completed_goals s.
Proof.
  unfold add_dependency. destruct (locate s goal_id) as [l|]; [|by intros [= <- <-]].
  destruct (get_goal s dep_id) as [gd|]; [|by intros [= <- <-]].
  destruct (read s l) as [g|] eqn:Hr; [|by intros [= <- <-]].
  destruct (_has_circular_dependency s dep_id goal_id) as [[|]|]; [by intros [= <- <-]| |done].
  destruct (str_in dep_id (dependencies g)); intros [= <- <-]; [done|].
  by eapply write_same_core.
Qed.

Lemma next_task_loop_cores active s :
  core <$> goals (next_task_loop active s).1 = core <$> goals s
  /\ core <$> completed_goals (next_task_loop active s).1 = core <$> completed_goals s.
Proof.
  revert s. induction active as [|i active IH]; intros s; simpl; [done|].
  destruct (goals s !! i) as [g|]; [|apply IH].
  destruct (any_dependency_pending s (dependencies g)) as [[|]|]; [apply IH| |done].
  set (s1 := match subtasks g with [] => (decompose_goal (id g) s).1 | _ :: _ => s end).
  assert (Hs1 : core <$> goals s1 = core <$> goals s
                /\ core <$> completed_goals s1 = core <$> completed_goals s).
  { subst s1. destruct (subtasks g); [apply decompose_goal_cores|done]. }
  destruct Hs1 as [H1 H2].
  destruct (goals s1 !! i) as [g1|]; [|rewrite <- H1, <- H2; apply IH].
  destruct (List.find _ _); simpl; [done|]. rewrite <- H1, <- H2; apply IH.
Qed.

Lemma set_goal_cores description goal_type priority deadline now s :
  let s' := (set_goal description goal_type priority deadline now s).1 in
  (description = "" /\ s' = s)
  \/ (description <> ""
      /\ core <$> goals s' = (core <$> goals s) ++ [(new_goal_id now s, "active", 0%Q)]
      /\ completed_goals s' = completed_goals s).
Proof.
  unfold set_goal. destruct (String.eqb description "") eqn:E; simpl.
  - left. by apply String.eqb_eq in E.
  - right. apply String.eqb_neq in E. split; [done|]. by rewrite fmap_app.
Qed.

(** The goal that [update_progress] stores. *)
Lemma in_range_stored_progress reported sts : in_range (stored_progress reported sts).
Proof.
  assert (Hm : in_range (Qmax 0 (Qmin 100 reported))).
  { unfold in_range. split.
    - apply Q.le_max_l.
    - apply Q.max_lub; [lra|]. apply Q.le_min_l. }
  unfold stored_progress. destruct sts as [|st sts]; [done|].
  set (l := st :: sts). unfold in_range in *. split.
  - eapply Qle_trans; [apply Hm|]. apply Q.le_max_l.
  - apply Q.max_lub; [apply Hm|].
    unfold calculated_progress.
    assert (Hlen : 0 < len l) by (unfold len; simpl; lia).
    destruct (Z.ltb_spec 0 (len l)); [|lia].
    assert (Hc : len (List.filter st_completed l) <= len l).
    { unfold len. pose proof (filter_length_le st_completed l). lia. }
    assert (Hq : (inject_Z (len (List.filter st_completed l)) / inject_Z (len l) <= 1)%Q).
    { apply Qle_shift_div_r.
      - change 0%Q with (inject_Z 0). by rewrite <- Zlt_Qlt.
      - rewrite Qmult_1_l. by rewrite <- Zle_Qle. }
    lra.
Qed.

Lemma locate_InGoals s goal_id i :
  locate s goal_id = Some (InGoals i) ->
  exists g, goals s !! i = Some g /\ id g = goal_id
            /\ forall j y, (j < i)%nat -> goals s !! j = Some y -> id y <> goal_id.
Proof.
  unfold locate.
  destruct (find_index (has_id goal_id) (goals s)) as [k|] eqn:Ek.
  - intros [= <-]. destruct (find_index_Some _ _ _ Ek) as (g & Hg & Hid & Hlt).
    exists g. split; [done|]. split; [by apply has_id_true|].
    intros j y Hj Hy. apply has_id_false. eauto.
  - by destruct (find_index _ (completed_goals s)).
Qed.

Lemma locate_InCompleted s goal_id i :
  locate s goal_id = Some (InCompleted i) ->
  Forall (fun y => id y <> goal_id) (goals s)
  /\ exists g, completed_goals s !! i = Some g /\ id g = goal_id
               /\ forall j y, (j < i)%nat -> completed_goals s !! j = Some y -> id y <> goal_id.
Proof.
  unfold locate.
  destruct (find_index (has_id goal_id) (goals s)) as [k|] eqn:Ek; [done|].
  destruct (find_index (has_id goal_id) (completed_goals s)) as [k|] eqn:Ec; [|done].
  intros [= <-]. split.
  - apply find_index_None in Ek. eapply Forall_impl; [exact Ek|].
    intros y Hy. by apply has_id_false.
  - destruct (find_index_Some _ _ _ Ec) as (g & Hg & Hid & Hlt).
    exists g. split; [done|]. split; [by apply has_id_true|].
    intros j y Hj Hy. apply has_id_false. eauto.
Qed.

(** The goal that the progress steps of [update_progress] arrive at. *)
Lemma record_progress_core p subs now (g : Goal) :
  core (record_progress p subs now g)
  = (id g, status g, stored_progress p (mark_completed subs now (subtasks g))).
Proof.
  unfold record_progress, stored_progress. simpl.
  by destruct (mark_completed subs now (subtasks g)).
Qed.

(** The five ways in which [update_progress] ends. *)
Lemma update_progress_cases goal_id p subs now s :
  let s' := (update_progress goal_id p subs now s).1 in
  let r := (update_progress goal_id p subs now s).2 in
  (get_goal s goal_id = None /\ s' = s /\ r = UpdateError "Goal not found")
  \/ (exists g, get_goal s goal_id = Some g /\ status g = "completed"
        /\ s' = s /\ r = UpdateError "Goal already completed")
  \/ (exists l g g',
        locate s goal_id = Some l /\ read s l = Some g /\ status g <> "completed"
        /\ core g' = (id g, status g, stored_progress p (mark_completed subs now (subtasks g)))
        /\ ~ (100 <= stored_progress p (mark_completed subs now (subtasks g)))%Q
        /\ s' = write l g' s
        /\ r = UpdateSuccess goal_id (progress g)
                 (stored_progress p (mark_completed subs now (subtasks g))) false)
  \/ (exists i g g',
        locate s goal_id = Some (InGoals i) /\ goals s !! i = Some g
        /\ status g <> "completed"
        /\ core g' = (id g, "completed",
                      stored_progress p (mark_completed subs now (subtasks g)))
        /\ (100 <= stored_progress p (mark_completed subs now (subtasks g)))%Q
        /\ goals s' = delete i (goals s)
        /\ completed_goals s' = completed_goals s ++ [g']
        /\ r = UpdateSuccess goal_id (progress g)
                 (stored_progress p (mark_completed subs now (subtasks g))) true)
  \/ (exists i g g',
        locate s goal_id = Some (InCompleted i) /\ completed_goals s !! i = Some g
        /\ status g <> "completed"
        /\ core g' = (id g, "completed",
                      stored_progress p (mark_completed subs now (subtasks g)))
        /\ s' = write (InCompleted i) g' s
        /\ r = UpdateRaises "ValueError").
Proof.
  unfold update_progress, get_goal.
  destruct (locate s goal_id) as [l|] eqn:El; simpl; [|by left].
  destruct (locate_read _ _ _ El) as (g & Hr & Hid). rewrite Hr.
  destruct (String.eqb (status g) "completed") eqn:Est.
  { right; left. exists g. apply String.eqb_eq in Est. done. }
  apply String.eqb_neq in Est. right; right.
  pose proof (record_progress_core p subs now g) as Hcore.
  set (goal3 := record_progress p subs now g) in *.
  remember (stored_progress p (mark_completed subs now (subtasks g))) as q eqn:Eq_q.
  assert (Hq : progress goal3 = q) by (by injection Hcore).
  assert (Hid3 : id goal3 = id g) by (by injection Hcore).
  assert (Hst3 : status goal3 = status g) by (by injection Hcore).
  clearbody goal3. rewrite Hq.
  destruct (Qle_bool 100 q) eqn:E100.
  - apply Qle_bool_iff in E100. right. subst q.
    destruct l as [i|i].
    + left. destruct (locate_InGoals _ _ _ El) as (g0 & Hg0 & _ & Hfirst).
      simpl in Hr. assert (g0 = g) by congruence. subst g0.
      assert (Hrm : list_remove goal_eqb (set_completed now goal3)
                      (goals (write (InGoals i) (set_completed now goal3) s))
                    = Some (delete i (goals s))).
      { simpl. rewrite <- (delete_insert_same (goals s) i (set_completed now goal3)).
        apply list_remove_at with (y := set_completed now goal3).
        - apply list_lookup_insert_eq. by eapply lookup_lt_Some.
        - apply goal_eqb_refl.
        - intros j z Hj Hz. rewrite list_lookup_insert_ne in Hz by lia.
          destruct (goal_eqb z (set_completed now goal3)) eqn:Eq; [|done].
          apply goal_eqb_id in Eq. simpl in Eq. exfalso.
          apply (Hfirst j z Hj Hz). congruence. }
      rewrite Hrm. simpl. exists i, g, (set_updated_at now (set_completed now goal3)).
      repeat split; try done; unfold core; simpl; rewrite ?Hid3, ?Hst3, ?Hq; congruence.
    + right. destruct (locate_InCompleted _ _ _ El) as (Hnone & _).
      assert (Hrm : list_remove goal_eqb (set_completed now goal3)
                      (goals (write (InCompleted i) (set_completed now goal3) s)) = None).
      { simpl. apply list_remove_absent. eapply Forall_impl; [exact Hnone|].
        intros z Hz. simpl in Hz.
        destruct (goal_eqb z (set_completed now goal3)) eqn:Eq; [|done].
        apply goal_eqb_id in Eq. simpl in Eq. congruence. }
      rewrite Hrm. simpl. exists i, g, (set_completed now goal3).
      repeat split; try done; unfold core; simpl; rewrite ?Hid3, ?Hst3, ?Hq; congruence.
  - left. exists l, g, (set_updated_at now goal3).
    assert (Hn : ~ (100 <= q)%Q).
    { intros Hle. apply Qle_bool_iff in Hle. congruence. }
    subst q.
    repeat split; try done; unfold core; simpl; rewrite ?Hid3, ?Hst3, ?Hq; congruence.
Qed.

(** *** Review *)

(** The global [random] is not bound in [goal_system.py], so the loop over
    the suggestions stops at its first iteration. *)
Lemma add_suggested_unbound suggestions draws k now s r :
  add_suggested suggestions draws k now s r
  = match suggestions with
    | [] => (s, r, None)
    | _ :: _ => (s, r, Some "NameError")
    end.
Proof. by destruct suggestions. Qed.

Lemma set_goals_insert_core s k g g' :
  goals s !! k = Some g -> core g' = core g ->
  core <$> goals (set_goals (<[k:=g']> (goals s)) s) = core <$> goals s.
Proof. intros Hk Hc. simpl. by eapply core_insert. Qed.

(** One iteration of the review loop drops or keeps goals, and changes
    neither id, status nor progress of those it keeps. *)
Lemma review_goal_cores now i s r :
  core <$> goals (review_goal now i s r).1.2 `sublist_of` core <$> goals s
  /\ completed_goals (review_goal now i s r).1.2 = completed_goals s
  /\ config (review_goal now i s r).1.2 = config s.
Proof.
  unfold review_goal. destruct (goals s !! i) as [g|] eqn:Hg; [|done].
  set (g1 := set_reviewed now g).
  set (s1 := set_goals (<[i:=g1]> (goals s)) s).
  assert (H1 : core <$> goals s1 = core <$> goals s) by (by eapply set_goals_insert_core).
  assert (Hg1 : goals s1 !! i = Some g1).
  { simpl. apply list_lookup_insert_eq. by eapply lookup_lt_Some. }
  assert (Hc1 : completed_goals s1 = completed_goals s) by done.
  assert (Hf1 : config s1 = config s) by done.
  clearbody s1.
  set (r1 := if (3 <? review_count g1) && Qltb (progress g1) 30 then _ else r).
  clearbody r1.
  (* the state after the stalled-goal branch *)
  assert (Hmid : forall (here : option nat) (next : nat) (s2 : t) (r2 : ReviewResults),
    core <$> goals s2 `sublist_of` core <$> goals s ->
    completed_goals s2 = completed_goals s ->
    config s2 = config s ->
    let s3 :=
      match here with
      | Some k =>
          match goals s2 !! k with
          | Some goal =>
              set_goals
                (<[k := set_dependencies (drop_settled_dependencies s2 (dependencies goal)) goal]>
                   (goals s2)) s2
          | None => s2
          end
      | None => s2
      end in
    core <$> goals s3 `sublist_of` core <$> goals s
    /\ completed_goals s3 = completed_goals s
    /\ config s3 = config s).
  { intros here next s2 r2 Hsub Hc2 Hf2. destruct here as [k|]; simpl; [|done].
    destruct (goals s2 !! k) as [gk|] eqn:Hk; [|done]. simpl.
    split; [|done]. erewrite core_insert; [done..|]. done. }
  assert (Hs1 : core <$> goals s1 `sublist_of` core <$> goals s) by (by rewrite H1).
  destruct ((3 <? review_count g1) && Qltb (progress g1) 30).
  - destruct (5 <? review_count g1).
    + destruct (find_index (fun g0 => goal_eqb g0 g1) (goals s1)) as [j|].
      * refine (Hmid _ i (set_goals (delete j (goals s1)) s1) r1 _ Hc1 Hf1).
        simpl. rewrite list_fmap_delete, H1. apply sublist_delete.
      * exact (Hmid (Some i) (S i) s1 r1 Hs1 Hc1 Hf1).
    + destruct (1 <? priority g1).
      * refine (Hmid (Some i) (S i)
                  (set_goals (<[i := set_priority (priority g1 - 1) g1]> (goals s1)) s1)
                  r1 _ Hc1 Hf1).
        erewrite set_goals_insert_core; [exact Hs1|exact Hg1|done].
      * exact (Hmid (Some i) (S i) s1 r1 Hs1 Hc1 Hf1).
  - exact (Hmid (Some i) (S i) s1 r1 Hs1 Hc1 Hf1).
Qed.

Lemma review_loop_cores n now i s r :
  core <$> goals (review_loop n now i s r).1 `sublist_of` core <$> goals s
  /\ completed_goals (review_loop n now i s r).1 = completed_goals s
  /\ config (review_loop n now i s r).1 = config s.
Proof.
  revert i s r. induction n as [|n IH]; intros i s r; simpl; [done|].
  pose proof (review_goal_cores now i s r) as (Hs & Hc & Hf).
  destruct (review_goal now i s r) as [[next s1] r1]. simpl in *.
  destruct (IH next s1 r1) as (Hs' & Hc' & Hf'). split; [|split].
  - by etrans.
  - congruence.
  - congruence.
Qed.

Lemma review_goals_cores now today draws s :
  core <$> goals (review_goals now today draws s).1 `sublist_of` core <$> goals s
  /\ completed_goals (review_goals now today draws s).1 = completed_goals s.
Proof.
  unfold review_goals. destruct (Qltb now (next_review_time s)); [done|].
  pose proof (review_loop_cores (length (goals s)) now 0 s (mkReviewResults 0 0 0 0 0))
    as (Hs & Hc & _).
  destruct (review_loop _ _ _ _ _) as [s1 r1]. simpl in *.
  rewrite add_suggested_unbound. by destruct (suggest_new_goals today s1).
Qed.

(** *** Progress stays between 0 and 100 *)

Lemma Forall_sublist_of {A} (P : A -> Prop) (l1 l2 : list A) :
  l1 `sublist_of` l2 -> Forall P l2 -> Forall P l1.
Proof.
  intros Hs. rewrite !Forall_forall. intros H x Hx. apply H. by eapply elem_of_sublist.
Qed.

Lemma progress_in_range_cores s :
  progress_in_range s
  <-> Forall (fun c => in_range c.2) (core <$> goals s)
      /\ Forall (fun c => in_range c.2) (core <$> completed_goals s).
Proof. unfold progress_in_range. by rewrite Forall_app, !Forall_fmap. Qed.

Lemma write_cores_Forall (P : string * string * Q -> Prop) s l g' :
  Forall P (core <$> goals s) -> Forall P (core <$> completed_goals s) -> P (core g') ->
  Forall P (core <$> goals (write l g' s))
  /\ Forall P (core <$> completed_goals (write l g' s)).
Proof.
  intros Hg Hc Hp. destruct l as [i|i]; simpl; (split; [|]); try done;
    rewrite list_fmap_insert; by apply Forall_insert.
Qed.

Lemma progress_in_range_exec op s : progress_in_range s -> progress_in_range (exec op s).
Proof.
  rewrite !progress_in_range_cores. intros [Hg Hc].
  destruct op as [d ty pr dl now|gid|gid p subs now|gid dep| |now today draws]; simpl.
  - destruct (set_goal_cores d ty pr dl now s) as [[_ ->]|(_ & -> & ->)]; [done|].
    split; [|done]. apply Forall_app. split; [done|].
    constructor; [|done]. unfold in_range. simpl. lra.
  - destruct (decompose_goal_cores gid s) as [-> ->]. done.
  - destruct (update_progress_cases gid p subs now s)
      as [(_ & -> & _)|[(g & _ & _ & -> & _)|[(l & g & g' & _ & _ & _ & Hcore & _ & -> & _)
         |[(i & g & g' & _ & _ & _ & Hcore & _ & -> & -> & _)
          |(i & g & g' & _ & _ & _ & Hcore & -> & _)]]]]; try done.
    + apply write_cores_Forall; [done..|]. rewrite Hcore. apply in_range_stored_progress.
    + split.
      * rewrite list_fmap_delete. by apply Forall_delete.
      * rewrite fmap_app. apply Forall_app. split; [done|]. constructor; [|done].
        rewrite Hcore. apply in_range_stored_progress.
    + apply write_cores_Forall; [done..|]. rewrite Hcore. apply in_range_stored_progress.
  - destruct (add_dependency gid dep s) as [[s' b]|] eqn:E; [|done].
    destruct (add_dependency_cores _ _ _ _ _ E) as [-> ->]. done.
  - unfold get_next_task.
    destruct (next_task_loop_cores (map fst (sorted_goals s)) s) as [-> ->]. done.
  - destruct (review_goals_cores now today draws s) as [Hs ->].
    split; [|done]. by eapply Forall_sublist_of.
Qed.

Lemma progress_in_range_run ops s : progress_in_range s -> progress_in_range (run ops s).
Proof.
  revert s. induction ops as [|op ops IH]; intros s Hs; simpl; [done|].
  apply IH. by apply progress_in_range_exec.
Qed.

Lemma progress_in_range_init cfg now : progress_in_range (init cfg None now).
Proof. unfold progress_in_range. simpl. constructor. Qed.

(** C2, as the code has it. In every state reached from a new goal system,
    every stored goal has a progress between 0 and 100.  A successful
    [update_progress] replaces the stored progress: the new value is the
    reported progress clamped to 0..100 or, for a goal with subtasks, the
    larger of that and the share of its subtasks that are completed, and it
    is the progress of the goal in the store afterwards.  The previous value
    plays no part in it. *)
Theorem progress_range_and_update (cfg : Config) (t0 : Q) (ops : list Op) :
  let s := run ops (init cfg None t0) in
  progress_in_range s
  /\ forall goal_id p subs now r_id old new completed,
       (update_progress goal_id p subs now s).2 = UpdateSuccess r_id old new completed ->
       exists g g',
         get_goal s goal_id = Some g
         /\ old = progress g
         /\ new = stored_progress p (mark_completed subs now (subtasks g))
         /\ in_range new
         /\ In g' (goals (update_progress goal_id p subs now s).1
                   ++ completed_goals (update_progress goal_id p subs now s).1)
         /\ id g' = goal_id /\ progress g' = new.
Proof.
  intros s. split.
  { apply progress_in_range_run, progress_in_range_init. }
  intros goal_id p subs now r_id old new completed Hr.
  destruct (update_progress_cases goal_id p subs now s)
    as [(_ & _ & Hr')|[(g & _ & _ & _ & Hr')
       |[(l & g & g' & Hl & Hg & _ & Hcore & _ & Hs' & Hr')
        |[(i & g & g' & Hl & Hg & _ & Hcore & _ & Hgs & Hcs & Hr')
         |(i & g & g' & _ & _ & _ & _ & _ & Hr')]]]]; rewrite Hr' in Hr; try done.
  - injection Hr as <- <- <- <-. exists g, g'.
    destruct (locate_read _ _ _ Hl) as (g0 & Hg0 & Hid).
    assert (g0 = g) by congruence. subst g0.
    unfold get_goal. rewrite Hl. simpl. rewrite Hg.
    injection Hcore as Hid' _ Hp'.
    repeat split; try done; try apply in_range_stored_progress; [|congruence].
    rewrite Hs'. apply list_elem_of_In, elem_of_app.
    destruct l as [i|i]; simpl in *; [left|right];
      (eapply list_elem_of_lookup_2, list_lookup_insert_eq; by eapply lookup_lt_Some).
  - injection Hr as <- <- <- <-. exists g, g'.
    destruct (locate_read _ _ _ Hl) as (g0 & Hg0 & Hid).
    simpl in Hg0. assert (g0 = g) by congruence. subst g0.
    unfold get_goal. rewrite Hl. simpl. rewrite Hg.
    injection Hcore as Hid' _ Hp'.
    repeat split; try done; try apply in_range_stored_progress; [|congruence].
    rewrite Hcs. apply in_or_app. right. apply in_or_app. right. by left.
Qed.

(** A goal reported at 50 and then at 20. *)
Lemma progress_range_and_update_witness :
  let s := run [OpSetGoal "learn Rocq" "skill_development" 3 None 1;
                OpUpdateProgress "goal_1_0" 50 [] 2] (init default_config None 0) in
  exists g g',
    get_goal s "goal_1_0" = Some g
    /\ 50%Q = progress g
    /\ 20%Q = stored_progress 20 (mark_completed [] 3 (subtasks g))
    /\ in_range 20
    /\ In g' (goals (update_progress "goal_1_0" 20 [] 3 s).1
              ++ completed_goals (update_progress "goal_1_0" 20 [] 3 s).1)
    /\ id g' = "goal_1_0" /\ progress g' = 20%Q.
Proof.
  intros s.
  apply (proj2 (progress_range_and_update default_config 0
                  [OpSetGoal "learn Rocq" "skill_development" 3 None 1;
                   OpUpdateProgress "goal_1_0" 50 [] 2])
           "goal_1_0" 20%Q [] 3%Q "goal_1_0" 50%Q 20%Q false).
  reflexivity.
Defined.

(** C2 as stated does not hold: a goal that stands at 50 and is still
    active is at 20 after an [update_progress] that reports 20. *)
Lemma progress_can_decrease :
  let s1 := run [OpSetGoal "learn Rocq" "skill_development" 3 None 1;
                 OpUpdateProgress "goal_1_0" 50 [] 2] (init default_config None 0) in
  let s2 := (update_progress "goal_1_0" 20 [] 3 s1).1 in
  exists g1 g2,
    get_goal s1 "goal_1_0" = Some g1 /\ status g1 = "active"
    /\ get_goal s2 "goal_1_0" = Some g2 /\ status g2 = "active"
    /\ ~ (progress g1 <= progress g2)%Q.
Proof.
  eexists _, _. split; [vm_compute; reflexivity|]. split; [reflexivity|].
  split; [vm_compute; reflexivity|]. split; [reflexivity|].
  simpl. intros H. vm_compute in H. by apply H.
Qed.

(** *** Unique ids, and the two collections *)

Lemma well_formed_cores s :
  well_formed s <-> cores_ok (core <$> goals s) (core <$> completed_goals s).
Proof.
  unfold well_formed, cores_ok, ids.
  rewrite !Forall_fmap, <- fmap_app, <- list_fmap_compose. done.
Qed.

Lemma cores_ok_insert gc cc i c c' :
  cores_ok gc cc -> gc !! i = Some c -> c'.1.1 = c.1.1 -> c'.1.2 <> "completed" ->
  cores_ok (<[i:=c']> gc) cc.
Proof.
  intros (Hnd & Hg & Hc) Hi Hid Hst. repeat split; [|by apply Forall_insert|done].
  rewrite fmap_app, list_fmap_insert, Hid, list_insert_id, <- fmap_app; [done|].
  by rewrite list_lookup_fmap, Hi.
Qed.

Lemma cores_ok_move gc cc i c c' :
  cores_ok gc cc -> gc !! i = Some c -> c'.1.1 = c.1.1 -> c'.1.2 = "completed" ->
  cores_ok (delete i gc) (cc ++ [c']).
Proof.
  intros (Hnd & Hg & Hc) Hi Hid Hst. repeat split.
  - assert (Hp : (fun c => c.1.1) <$> delete i gc ++ cc ++ [c']
                 ≡ₚ (fun c => c.1.1) <$> gc ++ cc).
    { rewrite (delete_Permutation gc i c Hi) at 2.
      rewrite !fmap_app, fmap_cons. simpl. rewrite Hid.
      rewrite (Permutation_app_comm _ [c.1.1]), app_assoc.
      by rewrite <- Permutation_cons_append. }
    by rewrite Hp.
  - by apply Forall_delete.
  - apply Forall_app. split; [done|]. by constructor.
Qed.

Lemma cores_ok_append gc cc c :
  cores_ok gc cc -> ~ In c.1.1 ((fun c => c.1.1) <$> gc ++ cc) -> c.1.2 <> "completed" ->
  cores_ok (gc ++ [c]) cc.
Proof.
  intros (Hnd & Hg & Hc) Hfresh Hst. repeat split; [|by apply Forall_app; split; [|constructor]|done].
  assert (Hp : (fun c => c.1.1) <$> (gc ++ [c]) ++ cc ≡ₚ c.1.1 :: ((fun c => c.1.1) <$> gc ++ cc)).
  { rewrite !fmap_app. simpl. rewrite <- app_assoc. simpl.
    symmetry. apply Permutation_middle. }
  rewrite Hp. apply NoDup_cons. split; [|done].
  rewrite list_elem_of_In. done.
Qed.

Lemma cores_ok_sublist gc gc' cc :
  cores_ok gc cc -> gc' `sublist_of` gc -> cores_ok gc' cc.
Proof.
  intros (Hnd & Hg & Hc) Hs. repeat split; [|by eapply Forall_sublist_of|done].
  eapply sublist_NoDup; [exact Hnd|]. apply fmap_sublist. by apply sublist_app.
Qed.

Lemma fresh_ids_cons op ops s :
  fresh_ids (op :: ops) s = true ->
  fresh_ids [op] s = true /\ fresh_ids ops (exec op s) = true.
Proof. simpl. rewrite !andb_true_iff. tauto. Qed.

(** Each call keeps the store well formed, as long as [set_goal] does not
    build an id that is in use. *)
Lemma well_formed_exec op s :
  well_formed s -> fresh_ids [op] s = true -> well_formed (exec op s).
Proof.
  rewrite !well_formed_cores. intros Hwf Hfresh.
  destruct op as [d ty pr dl now|gid|gid p subs now|gid dep| |now today draws]; simpl.
  - destruct (set_goal_cores d ty pr dl now s) as [[_ ->]|(Hd & -> & ->)]; [done|].
    apply cores_ok_append; [done| |done]. simpl.
    simpl in Hfresh. rewrite andb_true_r, orb_true_iff in Hfresh.
    destruct Hfresh as [He|Hn]; [by apply String.eqb_eq in He|].
    apply negb_true_iff in Hn. intros Hin.
    assert (Ht : str_in (new_goal_id now s) (ids s) = true); [|congruence].
    apply str_in_In. unfold ids.
    rewrite <- fmap_app, <- list_fmap_compose in Hin. exact Hin.
  - destruct (decompose_goal_cores gid s) as [-> ->]. done.
  - destruct (update_progress_cases gid p subs now s)
      as [(_ & -> & _)|[(g & _ & _ & -> & _)|[(l & g & g' & Hl & Hg & Hst & Hcore & _ & -> & _)
         |[(i & g & g' & Hl & Hg & Hst & Hcore & _ & -> & -> & _)
          |(i & g & g' & Hl & Hg & Hst & Hcore & _)]]]]; try done.
    + destruct l as [i|i]; simpl in *.
      * rewrite list_fmap_insert.
        apply (cores_ok_insert _ _ i (core g)); [done| |by rewrite Hcore..].
        by rewrite list_lookup_fmap, Hg.
      * exfalso. destruct Hwf as (_ & _ & Hc). rewrite Forall_fmap, Forall_forall in Hc.
        apply Hst. apply (Hc g). by eapply list_elem_of_lookup_2.
    + rewrite list_fmap_delete, fmap_app. simpl.
      apply (cores_ok_move _ _ i (core g)); [done| |by rewrite Hcore..].
      by rewrite list_lookup_fmap, Hg.
    + exfalso. destruct Hwf as (_ & _ & Hc). rewrite Forall_fmap, Forall_forall in Hc.
      apply Hst. apply (Hc g). by eapply list_elem_of_lookup_2.
  - destruct (add_dependency gid dep s) as [[s' b]|] eqn:E; [|done].
    destruct (add_dependency_cores _ _ _ _ _ E) as [-> ->]. done.
  - unfold get_next_task.
    destruct (next_task_loop_cores (map fst (sorted_goals s)) s) as [-> ->]. done.
  - destruct (review_goals_cores now today draws s) as [Hs ->].
    by eapply cores_ok_sublist.
Qed.

(** A completed goal stays in [completed_goals]. *)
Lemma completed_id_exec op s goal_id :
  well_formed s ->
  In goal_id (map id (completed_goals s)) ->
  In goal_id (map id (completed_goals (exec op s))).
Proof.
  intros Hwf.
  assert (Hsame : forall s', core <$> completed_goals s' = core <$> completed_goals s ->
            In goal_id (map id (completed_goals s)) ->
            In goal_id (map id (completed_goals s'))).
  { intros s' He. rewrite !map_fmap.
    change id with ((fun c : string * string * Q => c.1.1) ∘ core).
    by rewrite !list_fmap_compose, He. }
  destruct op as [d ty pr dl now|gid|gid p subs now|gid dep| |now today draws]; simpl.
  - destruct (set_goal_cores d ty pr dl now s) as [[_ ->]|(Hd & _ & ->)]; done.
  - apply Hsame. apply decompose_goal_cores.
  - destruct (update_progress_cases gid p subs now s)
      as [(_ & -> & _)|[(g & _ & _ & -> & _)|[(l & g & g' & Hl & Hg & Hst & Hcore & _ & -> & _)
         |[(i & g & g' & Hl & Hg & Hst & Hcore & _ & _ & -> & _)
          |(i & g & g' & Hl & Hg & Hst & Hcore & _)]]]]; try done.
    + destruct l as [i|i]; simpl in *; [done|].
      exfalso. destruct Hwf as (_ & _ & Hc). rewrite Forall_forall in Hc.
      apply Hst. apply (Hc g). by eapply list_elem_of_lookup_2.
    + rewrite map_app. intros H. apply in_or_app. by left.
    + exfalso. destruct Hwf as (_ & _ & Hc). rewrite Forall_forall in Hc.
      apply Hst. apply (Hc g). by eapply list_elem_of_lookup_2.
  - destruct (add_dependency gid dep s) as [[s' b]|] eqn:E; [|done].
    apply Hsame. by eapply add_dependency_cores.
  - apply Hsame. apply next_task_loop_cores.
  - destruct (review_goals_cores now today draws s) as [_ ->]. done.
Qed.

Lemma well_formed_run ops s goal_id :
  well_formed s -> fresh_ids ops s = true ->
  In goal_id (map id (completed_goals s)) ->
  well_formed (run ops s) /\ In goal_id (map id (completed_goals (run ops s))).
Proof.
  revert s. induction ops as [|op ops IH]; intros s Hwf Hfresh Hin; [done|].
  apply fresh_ids_cons in Hfresh as [Hop Hops].
  change (run (op :: ops) s) with (run ops (exec op s)).
  apply IH; [by apply well_formed_exec|done|by apply completed_id_exec].
Qed.

(** Every state reached from a new goal system by a run with fresh ids is
    well formed. *)
Lemma well_formed_init cfg now : well_formed (init cfg None now).
Proof. repeat split; simpl; by constructor. Qed.

Lemma well_formed_reachable cfg t0 ops :
  fresh_ids ops (init cfg None t0) = true -> well_formed (run ops (init cfg None t0)).
Proof.
  generalize (well_formed_init cfg t0). generalize (init cfg None t0).
  induction ops as [|op ops IH]; intros s Hwf Hfresh; [done|].
  apply fresh_ids_cons in Hfresh as [Hop Hops].
  change (run (op :: ops) s) with (run ops (exec op s)).
  apply IH; [by apply well_formed_exec|done].
Qed.

Lemma occurrences_absent goal_id l :
  ~ In goal_id (map id l) -> occurrences goal_id l = 0%nat.
Proof.
  unfold occurrences. induction l as [|g l IH]; simpl; [done|].
  intros Hn. destruct (has_id goal_id g) eqn:E.
  - apply has_id_true in E. tauto.
  - apply IH. tauto.
Qed.

Lemma occurrences_unique goal_id l :
  NoDup (map id l) -> In goal_id (map id l) -> occurrences goal_id l = 1%nat.
Proof.
  unfold occurrences. induction l as [|g l IH]; simpl; [done|].
  rewrite NoDup_cons. intros [Hg Hnd] Hin. destruct (has_id goal_id g) eqn:E.
  - apply has_id_true in E. simpl. f_equal.
    apply (occurrences_absent goal_id l). rewrite <- E. by rewrite <- list_elem_of_In.
  - apply has_id_false in E. destruct Hin as [Hin|Hin]; [done|]. by apply IH.
Qed.

(** In a well-formed store, the id of a completed goal resolves to a
    completed goal. *)
Lemma get_goal_completed s goal_id :
  well_formed s -> In goal_id (map id (completed_goals s)) ->
  exists g, get_goal s goal_id = Some g /\ status g = "completed".
Proof.
  intros (Hnd & Hact & Hcomp) Hin.
  destruct (get_goal s goal_id) as [g|] eqn:Hg.
  - exists g. split; [done|].
    pose proof (get_goal_id _ _ _ Hg) as Hid.
    apply get_goal_In, in_app_or in Hg. destruct Hg as [Hg|Hg].
    + exfalso. unfold ids in Hnd. rewrite map_app in Hnd.
      apply NoDup_app in Hnd as (_ & Hdis & _).
      apply (Hdis goal_id); apply list_elem_of_In; [|done].
      rewrite <- Hid. by apply in_map.
    + rewrite Forall_forall in Hcomp. apply Hcomp. by apply list_elem_of_In.
  - exfalso. apply get_goal_None in Hg. apply Hg. unfold ids.
    rewrite map_app. apply in_or_app. by right.
Qed.

Lemma update_progress_completed goal_id g p subs now s :
  get_goal s goal_id = Some g -> status g = "completed" ->
  update_progress goal_id p subs now s = (s, UpdateError "Goal already completed").
Proof.
  intros Hg Hst. unfold get_goal in Hg. unfold update_progress.
  destruct (locate s goal_id) as [l|]; [|done]. simpl in Hg. rewrite Hg.
  by rewrite Hst.
Qed.

(** What holds as long as ids are unique.  In a store with unique ids, a
    completed goal stays completed through every run of calls in which
    [set_goal] builds fresh ids: every [update_progress] for its id returns
    the error "Goal already completed" and leaves the store as it is, the id
    occurs once in [completed_goals] and not at all in [goals]. *)
Lemma completed_goal_is_final (s : t) (g : Goal) (ops : list Op) :
  well_formed s ->
  In g (completed_goals s) ->
  fresh_ids ops s = true ->
  let s' := run ops s in
  (forall p subs now,
     update_progress (id g) p subs now s' = (s', UpdateError "Goal already completed"))
  /\ occurrences (id g) (completed_goals s') = 1%nat
  /\ occurrences (id g) (goals s') = 0%nat.
Proof.
  intros Hwf Hin Hfresh s'.
  destruct (well_formed_run ops s (id g) Hwf Hfresh (in_map id _ _ Hin)) as [Hwf' Hin'].
  fold s' in Hwf', Hin'. split; [|split].
  - intros p subs now.
    destruct (get_goal_completed s' (id g) Hwf' Hin') as (g' & Hg' & Hst').
    by eapply update_progress_completed.
  - destruct Hwf' as (Hnd & _). unfold ids in Hnd. rewrite map_app in Hnd.
    apply NoDup_app in Hnd as (_ & _ & Hnd). by apply occurrences_unique.
  - destruct Hwf' as (Hnd & _). unfold ids in Hnd. rewrite map_app in Hnd.
    apply NoDup_app in Hnd as (_ & Hdis & _). apply occurrences_absent.
    intros Hg. apply (Hdis (id g)); by apply list_elem_of_In.
Qed.

(** A goal completed by a report of 100, then updated, reviewed and joined
    by a new goal. *)
Lemma completed_goal_is_final_witness :
  let s := run [OpSetGoal "tidy the index" "maintenance" 2 None 1;
                OpUpdateProgress "goal_1_0" 100 [] 2] (init default_config None 0) in
  let s' := run [OpUpdateProgress "goal_1_0" 40 [] 5;
                 OpSetGoal "learn Rocq" "skill_development" 3 None 7;
                 OpReview 4000 0 (fun _ => 0%Q);
                 OpNextTask] s in
  (forall p subs now,
     update_progress "goal_1_0" p subs now s' = (s', UpdateError "Goal already completed"))
  /\ occurrences "goal_1_0" (completed_goals s') = 1%nat
  /\ occurrences "goal_1_0" (goals s') = 0%nat.
Proof.
  intros s.
  apply (completed_goal_is_final s
           (mkGoal "goal_1_0" "tidy the index" "maintenance" 2 "completed"
              (Qmax 0 (Qmin 100 100)) 1 None [] [] 0 None (Some 2%Q) (Some 2%Q))).
  - repeat split.
    + apply NoDup_cons. split; [apply not_elem_of_nil|apply NoDup_nil_2].
    + constructor.
    + by repeat constructor.
  - left. reflexivity.
  - vm_compute. reflexivity.
Defined.

(** C4 fails on the code.  [set_goal] builds the id of a new goal from the
    second on the clock and the number of active goals, and that number goes
    down when a goal is completed.  A goal is set and completed, and a second
    goal is set within the same second: both have the id [goal_1_0].  The id
    of the completed goal is then in [goals] again, [update_progress] for it
    is accepted instead of rejected, and a report of 100 puts the id into
    [completed_goals] a second time. *)
Theorem completed_id_reissued :
  let s := run [OpSetGoal "tidy the index" "maintenance" 2 None 1;
                OpUpdateProgress "goal_1_0" 100 [] (5 # 4);
                OpSetGoal "learn Rocq" "skill_development" 3 None (3 # 2)]
               (init default_config None 0) in
  map (fun g => (id g, status g)) (completed_goals s) = [("goal_1_0", "completed")]
  /\ map (fun g => (id g, status g)) (goals s) = [("goal_1_0", "active")]
  /\ (update_progress "goal_1_0" 50 [] (7 # 4) s).2 = UpdateSuccess "goal_1_0" 0 50 false
  /\ occurrences "goal_1_0" (goals (update_progress "goal_1_0" 50 [] (7 # 4) s).1) = 1%nat
  /\ (update_progress "goal_1_0" 100 [] (7 # 4) s).2 = UpdateSuccess "goal_1_0" 0 100 true
  /\ occurrences "goal_1_0"
       (completed_goals (update_progress "goal_1_0" 100 [] (7 # 4) s).1) = 2%nat.
Proof. vm_compute. repeat split; reflexivity. Qed.

(** *** The search for a circular dependency *)

Section Search.
Variables (s : t) (target : string).

Local Abbreviation search n := (_has_circular_dependency_from n s target).

(** The search reports [True] as soon as it meets the target: a search
    that ends with [False] has not visited it. *)
Lemma each_dependency_false (visit : string -> gset string -> option (bool * gset string))
    deps visited visited' :
  (forall x v v', visit x v = Some (false, v') -> target ∉ v -> target ∉ v') ->
  (forall v v', target ∉ v -> visit target v <> Some (false, v')) ->
  each_dependency visit deps visited = Some (false, visited') ->
  target ∉ visited -> (target ∉ visited') /\ ~ In target deps.
Proof.
  intros Hrec Htgt. revert visited.
  induction deps as [|d deps IH]; intros visited; simpl.
  - intros [= <-] Hv. tauto.
  - destruct (visit d visited) as [[[|] v1]|] eqn:Ed; [done| |done].
    intros Hloop Hv. pose proof (Hrec _ _ _ Ed Hv) as Hv1.
    destruct (IH _ Hloop Hv1) as [Hv' Hnin]. split; [done|].
    intros [->|Hin]; [|done]. by apply (Htgt visited v1).
Qed.

Lemma search_target n visited visited' :
  target ∉ visited -> search n target visited <> Some (false, visited').
Proof.
  destruct n as [|n]; simpl; [done|]. intros Hv.
  rewrite bool_decide_eq_false_2 by done. by rewrite String.eqb_refl.
Qed.

Lemma search_false n x visited visited' :
  search n x visited = Some (false, visited') -> target ∉ visited -> target ∉ visited'.
Proof.
  revert x visited visited'. induction n as [|n IH]; intros x visited visited'; simpl; [done|].
  destruct (bool_decide (x ∈ visited)) eqn:Ev; [by intros [= <-]|].
  destruct (String.eqb x target) eqn:Ex; [done|]. apply String.eqb_neq in Ex.
  intros Hres Hv.
  assert (Hv1 : target ∉ ({[x]} ∪ visited : gset string)) by set_solver.
  destruct (get_goal s x) as [goal|]; [|by injection Hres as <-].
  eapply (each_dependency_false _ _ _ _ (IH) (search_target n)); done.
Qed.

(** A direct dependency on the target is found. *)
Lemma search_direct n x goal visited r :
  search n x visited = Some r ->
  x ∉ visited -> target ∉ visited ->
  get_goal s x = Some goal -> In target (dependencies goal) ->
  r.1 = true.
Proof.
  destruct n as [|n]; simpl; [done|]. intros Hres Hx Hv Hg Hin.
  rewrite bool_decide_eq_false_2 in Hres by done.
  destruct (String.eqb x target) eqn:Ex; [by injection Hres as <-|].
  apply String.eqb_neq in Ex. rewrite Hg in Hres.
  destruct r as [[|] v']; [done|]. exfalso.
  assert (Hv1 : target ∉ ({[x]} ∪ visited : gset string)) by set_solver.
  destruct (each_dependency_false _ _ _ _ (search_false n) (search_target n) Hres Hv1).
  done.
Qed.

(** More depth does not change a result. *)
Lemma each_dependency_mono (visit1 visit2 : string -> gset string -> option (bool * gset string))
    deps visited r :
  (forall x v r, visit1 x v = Some r -> visit2 x v = Some r) ->
  each_dependency visit1 deps visited = Some r -> each_dependency visit2 deps visited = Some r.
Proof.
  intros Hrec. revert visited. induction deps as [|d deps IH]; intros visited; simpl; [done|].
  destruct (visit1 d visited) as [[[|] v1]|] eqn:Ed; [| |done]; rewrite (Hrec _ _ _ Ed); auto.
Qed.

Lemma search_mono n m x visited r :
  (n <= m)%nat -> search n x visited = Some r -> search m x visited = Some r.
Proof.
  revert m x visited r. induction n as [|n IH]; intros m x visited r Hle; simpl; [done|].
  destruct m as [|m]; [lia|]. simpl.
  destruct (bool_decide (x ∈ visited)); [done|].
  destruct (String.eqb x target); [done|].
  destruct (get_goal s x) as [goal|]; [|done].
  apply each_dependency_mono. intros y v r'. apply IH. lia.
Qed.

(** The search ends within the bound: it never visits an id twice. *)
Lemma each_dependency_total (U : gset string)
    (visit : string -> gset string -> option (bool * gset string)) (k : nat) deps visited :
  (forall x v, x ∈ U -> (size (U ∖ v) <= k)%nat ->
               exists b v', visit x v = Some (b, v') /\ v ⊆ v') ->
  Forall (fun d => d ∈ U) deps ->
  (size (U ∖ visited) <= k)%nat ->
  exists b v', each_dependency visit deps visited = Some (b, v') /\ visited ⊆ v'.
Proof.
  intros Hrec Hdeps. revert visited.
  induction Hdeps as [|d deps Hd _ IH]; intros visited Hsize; simpl.
  - by exists false, visited.
  - destruct (Hrec d visited Hd Hsize) as ([|] & v1 & -> & Hsub).
    + by exists true, v1.
    + destruct (IH v1) as (b & v' & -> & Hsub').
      * etrans; [|exact Hsize]. apply subseteq_size. set_solver.
      * exists b, v'. split; [done|]. set_solver.
Qed.

Lemma search_total (U : gset string) n x visited :
  (forall y goal, get_goal s y = Some goal -> Forall (fun d => d ∈ U) (dependencies goal)) ->
  x ∈ U -> (size (U ∖ visited) < n)%nat ->
  exists b v', search n x visited = Some (b, v') /\ visited ⊆ v'.
Proof.
  intros HU. revert x visited.
  induction n as [|n IH]; intros x visited Hx Hsize; [lia|]. simpl.
  destruct (bool_decide (x ∈ visited)) eqn:Ev; [by exists false, visited|].
  apply bool_decide_eq_false in Ev.
  assert (Hlt : (size (U ∖ ({[x]} ∪ visited)) < size (U ∖ visited))%nat).
  { apply subset_size. split; [set_solver|]. intros Hsub.
    assert (Hin : x ∈ U ∖ visited) by set_solver.
    apply Hsub in Hin. set_solver. }
  destruct (String.eqb x target).
  { exists true, ({[x]} ∪ visited). split; [done|]. set_solver. }
  destruct (get_goal s x) as [goal|] eqn:Hg.
  2:{ exists false, ({[x]} ∪ visited). split; [done|]. set_solver. }
  destruct (each_dependency_total U (search n) (n - 1) (dependencies goal) ({[x]} ∪ visited))
    as (b & v' & Hres & Hsub).
  - intros y v Hy Hv. apply IH; [done|]. lia.
  - by eapply HU.
  - lia.
  - exists b, v'. split; [done|]. set_solver.
Qed.

End Search.

(** The search reads the dependencies of the goals it meets, and never
    those of the target. *)
Lemma each_dependency_ext (visit1 visit2 : string -> gset string -> option (bool * gset string))
    deps visited :
  (forall x v, visit1 x v = visit2 x v) ->
  each_dependency visit1 deps visited = each_dependency visit2 deps visited.
Proof.
  intros Hrec. revert visited. induction deps as [|d deps IH]; intros visited; simpl; [done|].
  rewrite Hrec. destruct (visit2 d visited) as [[[|] v1]|]; auto.
Qed.

Lemma search_ext s1 s2 target n x visited :
  (forall y, y <> target -> dependencies <$> get_goal s2 y = dependencies <$> get_goal s1 y) ->
  _has_circular_dependency_from n s2 target x visited
  = _has_circular_dependency_from n s1 target x visited.
Proof.
  intros Hext. revert x visited. induction n as [|n IH]; intros x visited; simpl; [done|].
  destruct (bool_decide (x ∈ visited)); [done|].
  destruct (String.eqb x target) eqn:Ex; [done|]. apply String.eqb_neq in Ex.
  specialize (Hext x Ex).
  destruct (get_goal s2 x) as [g2|], (get_goal s1 x) as [g1|]; simpl in Hext; try done.
  injection Hext as ->. by apply each_dependency_ext.
Qed.

Lemma size_list_to_set_le (l : list string) :
  (size (list_to_set l : gset string) <= length l)%nat.
Proof.
  induction l as [|a l IH].
  - by vm_compute.
  - rewrite list_to_set_cons, size_union_alt, size_singleton. simpl.
    assert (size (list_to_set l ∖ {[a]} : gset string) <= size (list_to_set l : gset string))%nat
      by (apply subseteq_size; set_solver).
    lia.
Qed.

Lemma ids_all_ids s x : In x (ids s) -> In x (all_ids s).
Proof.
  unfold ids, all_ids. rewrite in_map_iff, in_flat_map.
  intros (g & <- & Hg). exists g. split; [done|]. by left.
Qed.

Lemma dependencies_all_ids s g d :
  In g (goals s ++ completed_goals s) -> In d (dependencies g) -> In d (all_ids s).
Proof.
  intros Hg Hd. unfold all_ids. rewrite in_flat_map. exists g. split; [done|]. by right.
Qed.

Lemma get_goal_ids s x g : get_goal s x = Some g -> In x (ids s).
Proof.
  intros Hg. unfold ids. rewrite <- (get_goal_id _ _ _ Hg).
  apply in_map. by eapply get_goal_In.
Qed.

(** The search from the id of a stored goal ends within [recursion_bound]. *)
Lemma has_circular_dependency_total s x y :
  In x (ids s) -> exists b, _has_circular_dependency s x y = Some b.
Proof.
  intros Hx. unfold _has_circular_dependency.
  destruct (search_total s y (list_to_set (all_ids s)) (recursion_bound s) x ∅)
    as (b & v' & -> & _).
  - intros z goal Hz. rewrite Forall_forall. intros d Hd.
    apply elem_of_list_to_set, list_elem_of_In.
    eapply dependencies_all_ids; [by eapply get_goal_In|by apply list_elem_of_In].
  - by apply elem_of_list_to_set, list_elem_of_In, ids_all_ids.
  - unfold recursion_bound.
    pose proof (size_list_to_set_le (all_ids s)).
    assert (size (list_to_set (all_ids s) ∖ ∅ : gset string)
            <= size (list_to_set (all_ids s) : gset string))%nat
      by (apply subseteq_size; set_solver).
    lia.
  - by exists b.
Qed.

Lemma add_dependency_total a b s : exists r, add_dependency a b s = Some r.
Proof.
  unfold add_dependency. destruct (locate s a) as [l|]; [|by eexists].
  destruct (get_goal s b) as [gb|] eqn:Hb; [|by eexists].
  destruct (read s l) as [ga|]; [|by eexists].
  destruct (has_circular_dependency_total s b a) as (c & ->); [by eapply get_goal_ids|].
  destruct c; [by eexists|]. destruct (str_in b (dependencies ga)); by eexists.
Qed.

(** *** Adding a dependency *)

Lemma find_index_insert {A} (p : A -> bool) (l : list A) i x x' :
  l !! i = Some x -> p x' = p x -> find_index p (<[i:=x']> l) = find_index p l.
Proof.
  revert i. induction l as [|a l IH]; intros i; [done|].
  destruct i as [|i]; simpl.
  - intros [= ->] ->. done.
  - intros Hx Hp. by rewrite (IH i).
Qed.

Lemma locate_write s l0 g0 g' x :
  read s l0 = Some g0 -> id g' = id g0 -> locate (write l0 g' s) x = locate s x.
Proof.
  intros Hr Hid. unfold locate.
  assert (Hp : has_id x g' = has_id x g0) by (unfold has_id; by rewrite Hid).
  destruct l0 as [i|i]; simpl in *; by erewrite find_index_insert.
Qed.

Lemma read_write_same s l0 g0 g' :
  read s l0 = Some g0 -> read (write l0 g' s) l0 = Some g'.
Proof.
  intros Hr. destruct l0 as [i|i]; simpl in *;
    apply list_lookup_insert_eq; by eapply lookup_lt_Some.
Qed.

Lemma read_write_other s l0 l g' :
  l <> l0 -> read (write l0 g' s) l = read s l.
Proof.
  intros Hne. destruct l0 as [i|i], l as [j|j]; simpl; try done;
    apply list_lookup_insert_ne; congruence.
Qed.

Lemma write_read s l g : read s l = Some g -> write l g s = s.
Proof.
  intros Hr. destruct s as [cfg gs cgs nrt], l as [i|i]; simpl in *;
    unfold set_goals, set_completed_goals; simpl; by rewrite list_insert_id.
Qed.

(** After a goal is changed in place, its id resolves to the changed goal
    and every other id to what it resolved to before. *)
Lemma get_goal_write s a l0 g0 g' :
  locate s a = Some l0 -> read s l0 = Some g0 -> id g' = id g0 ->
  get_goal (write l0 g' s) a = Some g'
  /\ forall x, x <> a -> get_goal (write l0 g' s) x = get_goal s x.
Proof.
  intros Hl Hr Hid. unfold get_goal. split.
  - rewrite (locate_write s l0 g0 g' a Hr Hid), Hl. simpl. by eapply read_write_same.
  - intros x Hx. rewrite (locate_write s l0 g0 g' x Hr Hid).
    destruct (locate s x) as [l|] eqn:Hlx; [|done]. simpl.
    apply read_write_other. intros ->.
    destruct (locate_read _ _ _ Hl) as (ga & Hga & Ha).
    destruct (locate_read _ _ _ Hlx) as (gx & Hgx & Hxid). congruence.
Qed.

Lemma set_dependencies_same g : set_dependencies (dependencies g) g = g.
Proof. by destruct g. Qed.

(** What a successful [add_dependency] has checked and done. *)
Lemma add_dependency_success a b s s' :
  add_dependency a b s = Some (s', true) ->
  exists l goal deps',
    locate s a = Some l /\ read s l = Some goal
    /\ (exists gb, get_goal s b = Some gb)
    /\ _has_circular_dependency s b a = Some false
    /\ In b deps'
    /\ s' = write l (set_dependencies deps' goal) s.
Proof.
  unfold add_dependency. destruct (locate s a) as [l|] eqn:Hl; [|done].
  destruct (get_goal s b) as [gb|] eqn:Hb; [|done].
  destruct (read s l) as [goal|] eqn:Hr; [|done].
  destruct (_has_circular_dependency s b a) as [[|]|] eqn:Hc; [done| |done].
  destruct (str_in b (dependencies goal)) eqn:Hin; intros [= <-].
  - exists l, goal, (dependencies goal). repeat split; eauto.
    + by apply str_in_In.
    + by rewrite set_dependencies_same, write_read.
  - exists l, goal, (dependencies goal ++ [b]). repeat split; eauto.
    apply in_or_app. right. by left.
Qed.

(** C5. [add_dependency] always returns.  When [add_dependency a b] has
    returned [True], a following [add_dependency b a] returns [False] and
    leaves the store as it is, the search from [a] having found [b]; and a
    following [add_dependency a b] returns [True] and leaves the store as
    it is. *)
Theorem dependency_cycle_rejected (a b : string) (s : t) :
  (exists r, add_dependency a b s = Some r)
  /\ forall s',
       add_dependency a b s = Some (s', true) ->
       _has_circular_dependency s' a b = Some true
       /\ add_dependency b a s' = Some (s', false)
       /\ add_dependency a b s' = Some (s', true).
Proof.
  split; [apply add_dependency_total|]. intros s' Hadd.
  destruct (add_dependency_success a b s s' Hadd)
    as (l & goal & deps' & Hl & Hr & (gb & Hb) & Hcirc & Hin & ->).
  set (goal' := set_dependencies deps' goal).
  set (s' := write l goal' s) in *.
  assert (Hid : id goal' = id goal) by done.
  destruct (get_goal_write s a l goal goal' Hl Hr Hid) as [Ha' Hother]. fold s' in Ha', Hother.
  assert (Hl' : forall x, locate s' x = locate s x).
  { intros x. by eapply locate_write. }
  assert (Hread' : read s' l = Some goal') by (by eapply read_write_same).
  (* the search from [a] for [b] in the new store *)
  assert (Hba : _has_circular_dependency s' a b = Some true).
  { destruct (has_circular_dependency_total s' a b) as (c & Hc); [by eapply get_goal_ids|].
    rewrite Hc. f_equal. unfold _has_circular_dependency in Hc.
    destruct (_has_circular_dependency_from _ _ _ _ _) as [r|] eqn:Hs; [|done].
    injection Hc as <-.
    eapply (search_direct s' b _ a goal' ∅ r Hs); [set_solver|set_solver|done|done]. }
  (* the search from [b] for [a] does not read the dependencies of [a] *)
  assert (Hab : _has_circular_dependency s' b a = Some false).
  { assert (Hb' : exists gb', get_goal s' b = Some gb').
    { destruct (decide (b = a)) as [->|Hne]; [by eexists|].
      exists gb. by rewrite Hother. }
    destruct Hb' as (gb' & Hb').
    destruct (has_circular_dependency_total s' b a) as (c & Hc); [by eapply get_goal_ids|].
    rewrite Hc. f_equal. unfold _has_circular_dependency in Hc, Hcirc.
    destruct (_has_circular_dependency_from (recursion_bound s') _ _ _ _) as [r'|] eqn:Hs';
      [|done].
    destruct (_has_circular_dependency_from (recursion_bound s) _ _ _ _) as [r|] eqn:Hs;
      [|done].
    injection Hc as <-. simpl in Hcirc. injection Hcirc as Hr0.
    rewrite <- (search_ext s s' a) in Hs by (intros y Hy; by rewrite Hother).
    pose proof (search_mono s' a _ (max (recursion_bound s) (recursion_bound s')) _ _ _
                  (Nat.le_max_l _ _) Hs) as H1.
    pose proof (search_mono s' a _ (max (recursion_bound s) (recursion_bound s')) _ _ _
                  (Nat.le_max_r _ _) Hs') as H2.
    congruence. }
  split; [done|]. split.
  - unfold add_dependency. rewrite Hl', Ha'.
    unfold get_goal in Hb. destruct (locate s b) as [lb|] eqn:Hlb; [|done].
    assert (Hrb : exists g, read s' lb = Some g).
    { destruct (locate_read _ _ _ Hlb) as (g & Hg & _).
      destruct lb as [i|i], l as [j|j]; simpl in *; try by eexists.
      - destruct (decide (i = j)) as [->|Hne].
        + eexists. apply list_lookup_insert_eq. by eapply lookup_lt_Some.
        + eexists. by rewrite list_lookup_insert_ne.
      - destruct (decide (i = j)) as [->|Hne].
        + eexists. apply list_lookup_insert_eq. by eapply lookup_lt_Some.
        + eexists. by rewrite list_lookup_insert_ne. }
    destruct Hrb as (g & ->). by rewrite Hba.
  - unfold add_dependency. rewrite Hl', Hl, Hread', Hab.
    assert (Hb' : exists gb', get_goal s' b = Some gb').
    { destruct (decide (b = a)) as [->|Hne]; [by eexists|].
      exists gb. by rewrite Hother. }
    destruct Hb' as (gb' & ->).
    assert (Hs : str_in b (dependencies goal') = true) by (by apply str_in_In).
    by rewrite Hs.
Qed.

(** Two goals set in the same second, the first made to depend on the second. *)
Lemma dependency_cycle_rejected_witness :
  let s := run [OpSetGoal "learn Rocq" "skill_development" 3 None 1;
                OpSetGoal "write the report" "creation" 4 None 1]
               (init default_config None 0) in
  let s' := exec (OpAddDependency "goal_1_0" "goal_1_1") s in
  _has_circular_dependency s' "goal_1_0" "goal_1_1" = Some true
  /\ add_dependency "goal_1_1" "goal_1_0" s' = Some (s', false)
  /\ add_dependency "goal_1_0" "goal_1_1" s' = Some (s', true).
Proof.
  intros s s'.
  apply (proj2 (dependency_cycle_rejected "goal_1_0" "goal_1_1" s) s').
  vm_compute. reflexivity.
Defined.

(** *** A review that is due *)

Lemma Qltb_irrefl x : Qltb x x = false.
Proof. apply Qltb_ge. apply Qle_refl. Qed.

(** A review that is due and finds fewer active goals than
    [min_active_goals] has suggestions to offer and so evaluates
    [random.random()], which raises [NameError]. *)
Lemma review_goals_few_goals now today draws s :
  Qltb now (next_review_time s) = false ->
  len (goals s) < min_active_goals (config s) ->
  (review_goals now today draws s).2 = ReviewRaises "NameError".
Proof.
  intros Hdue Hfew. unfold review_goals. rewrite Hdue.
  pose proof (review_loop_cores (length (goals s)) now 0 s (mkReviewResults 0 0 0 0 0))
    as (Hsub & _ & Hcfg).
  destruct (review_loop _ _ _ _ _) as [s1 r1]. simpl in *.
  rewrite add_suggested_unbound.
  apply sublist_length in Hsub. rewrite !length_fmap in Hsub.
  unfold suggest_new_goals. rewrite Hcfg.
  destruct (Z.ltb_spec (len (goals s1)) (min_active_goals (config s))); [done|].
  unfold len in *. lia.
Qed.

(** C6 fails on the code. On a new goal system the first review that is due
    does not return: [review_goals] raises [NameError] when it evaluates
    [random.random()] for the first suggestion, because [goal_system.py]
    does not import [random]. *)
Theorem review_raises_name_error (t0 today : Q) (draws : nat -> Q) :
  let s := init default_config None t0 in
  (review_goals (next_review_time s) today draws s).2 = ReviewRaises "NameError".
Proof.
  intros s. apply review_goals_few_goals; [apply Qltb_irrefl|done].
Qed.

(** *** The next task *)

(** C9 fails on the code. Goal [goal_1_0] depends on [goal_1_1]; six reviews
    that are due remove the stalled [goal_1_1] after [goal_1_0] has been
    looked at, so the dependency stays in [goal_1_0].  [get_next_task] then
    subscripts the [None] that [get_goal] returns for it and raises
    [TypeError]. *)
Theorem next_task_raises_type_error :
  let review := OpReview 4000 0 (fun _ => 0%Q) in
  let s := run [OpSetGoal "learn Rocq" "skill_development" 3 None 1;
                OpSetGoal "write the report" "creation" 4 None 1;
                OpAddDependency "goal_1_0" "goal_1_1";
                OpUpdateProgress "goal_1_0" 50 [] 2;
                review; review; review; review; review; review]
               (init default_config None 0) in
  map id (goals s) = ["goal_1_0"]
  /\ completed_goals s = []
  /\ (dependencies <$> get_goal s "goal_1_0") = Some ["goal_1_1"]
  /\ get_goal s "goal_1_1" = None
  /\ (get_next_task s).2 = NextTaskRaises "TypeError".
Proof. vm_compute. repeat split; reflexivity. Qed.

(** *** Decomposition *)

Lemma make_subtasks_length goal_id description goal_type :
  length (make_subtasks goal_id description goal_type) = 4%nat.
Proof.
  unfold make_subtasks, subtask_templates. rewrite length_imap.
  repeat (match goal with |- context [if ?c then _ else _] => destruct c end); reflexivity.
Qed.

(** Decomposing is idempotent: a second [decompose_goal] for the same id
    returns the subtasks the first one returned and leaves the store as the
    first one left it.  A goal without subtasks gets four. *)
Theorem decompose_goal_idempotent (goal_id : string) (s : t) :
  let first := decompose_goal goal_id s in
  decompose_goal goal_id first.1 = first
  /\ (forall g, get_goal s goal_id = Some g -> subtasks g = [] ->
        length first.2 = 4%nat
        /\ (subtasks <$> get_goal first.1 goal_id) = Some first.2).
Proof.
  unfold decompose_goal, get_goal.
  destruct (locate s goal_id) as [l|] eqn:Hl; simpl.
  2:{ rewrite Hl. done. }
  destruct (locate_read _ _ _ Hl) as (g & Hr & Hid). rewrite Hr.
  destruct (subtasks g) as [|st sts] eqn:Hs; cbn [fst snd].
  - set (g' := set_subtasks (make_subtasks goal_id (description g) (type g)) g).
    assert (Hl' : locate (write l g' s) goal_id = Some l).
    { by rewrite (locate_write s l g g'). }
    assert (Hr' : read (write l g' s) l = Some g') by (by eapply read_write_same).
    assert (Hsub : subtasks g' = make_subtasks goal_id (description g) (type g)) by done.
    clearbody g'. rewrite Hl', Hr'. cbn [fmap option_fmap option_map mbind option_bind].
    rewrite Hsub.
    pose proof (make_subtasks_length goal_id (description g) (type g)) as Hlen.
    destruct (make_subtasks goal_id (description g) (type g)) as [|st sts] eqn:Hm;
      [discriminate Hlen|].
    split; [done|]. intros g0 [= <-] _.
    split; [exact Hlen|]. rewrite Hr'. simpl. by rewrite Hsub.
  - rewrite Hl, Hr, Hs. split; [done|]. intros g0 [= <-] Hn. congruence.
Qed.

(** *** Subtasks and progress *)

Lemma mark_subtask_id x now st : st_id (mark_subtask x now st) = st_id st.
Proof. unfold mark_subtask. by destruct (_ && _). Qed.

Lemma mark_subtask_completed x now st :
  st_completed (mark_subtask x now st) = st_completed st || String.eqb (st_id st) x.
Proof.
  unfold mark_subtask.
  destruct (String.eqb (st_id st) x), (st_completed st) eqn:E; simpl; by rewrite ?E.
Qed.

(** [update_progress] marks the listed subtasks and touches no other: the
    ids stay, and a subtask is completed afterwards exactly if it was
    before or is listed. *)
Lemma mark_completed_spec subs now sts :
  map st_id (mark_completed subs now sts) = map st_id sts
  /\ map st_completed (mark_completed subs now sts)
     = map (fun st => st_completed st || str_in (st_id st) subs) sts.
Proof.
  unfold mark_completed. revert sts. induction subs as [|x subs IH]; intros sts; simpl.
  - split; [done|]. apply map_ext. intros st. by rewrite orb_false_r.
  - destruct (IH (map (mark_subtask x now) sts)) as [-> ->]. rewrite !map_map. split.
    + apply map_ext. intros st. apply mark_subtask_id.
    + apply map_ext. intros st.
      rewrite mark_subtask_completed, mark_subtask_id.
      unfold str_in. simpl. by rewrite orb_assoc.
Qed.

Lemma calculated_progress_all_done sts :
  sts <> [] -> Forall (fun st => st_completed st = true) sts ->
  (calculated_progress sts == 100)%Q.
Proof.
  intros Hne Hall. unfold calculated_progress.
  assert (Hf : List.filter st_completed sts = sts).
  { induction Hall as [|st sts Hst _ IH]; simpl; [done|]. rewrite Hst. f_equal.
    destruct sts; [done|]. by apply IH. }
  rewrite Hf.
  assert (Hpos : 0 < len sts) by (destruct sts; [done|unfold len; simpl; lia]).
  destruct (Z.ltb_spec 0 (len sts)); [|lia].
  assert (Hq : ~ (inject_Z (len sts) == 0)%Q).
  { change 0%Q with (inject_Z 0). rewrite inject_Z_injective. lia. }
  field. exact Hq.
Qed.

(** [update_progress] on a goal that is not completed, with the goal it
    stores spelled out. *)
Lemma update_progress_explicit goal_id p subs now s l g :
  locate s goal_id = Some l -> read s l = Some g -> status g <> "completed" ->
  let g3 := record_progress p subs now g in
  (~ (100 <= progress g3)%Q
   /\ update_progress goal_id p subs now s
      = (write l (set_updated_at now g3) s,
         UpdateSuccess goal_id (progress g) (progress g3) false))
  \/ ((100 <= progress g3)%Q
      /\ exists i, l = InGoals i
         /\ update_progress goal_id p subs now s
            = (mkGS (config s) (delete i (goals s))
                 (completed_goals s ++ [set_updated_at now (set_completed now g3)])
                 (next_review_time s),
               UpdateSuccess goal_id (progress g) (progress g3) true))
  \/ ((100 <= progress g3)%Q
      /\ exists i, l = InCompleted i
         /\ update_progress goal_id p subs now s
            = (write l (set_completed now g3) s, UpdateRaises "ValueError")).
Proof.
  intros Hl Hr Hst g3. unfold update_progress. rewrite Hl, Hr.
  apply String.eqb_neq in Hst. rewrite Hst. fold g3.
  assert (Hid3 : id g3 = id g).
  { pose proof (record_progress_core p subs now g) as Hc. by injection Hc. }
  destruct (locate_read _ _ _ Hl) as (g0 & Hg0 & Hid).
  assert (g0 = g) by congruence. subst g0.
  clearbody g3.
  destruct (Qle_bool 100 (progress g3)) eqn:E100.
  - apply Qle_bool_iff in E100. right. destruct l as [i|i].
    + left. split; [done|]. exists i. split; [done|].
      destruct (locate_InGoals _ _ _ Hl) as (g0 & Hg0' & _ & Hfirst).
      assert (Hrm : list_remove goal_eqb (set_completed now g3)
                      (goals (write (InGoals i) (set_completed now g3) s))
                    = Some (delete i (goals s))).
      { simpl. rewrite <- (delete_insert_same (goals s) i (set_completed now g3)).
        apply list_remove_at with (y := set_completed now g3).
        - apply list_lookup_insert_eq. by eapply lookup_lt_Some.
        - apply goal_eqb_refl.
        - intros j z Hj Hz. rewrite list_lookup_insert_ne in Hz by lia.
          destruct (goal_eqb z (set_completed now g3)) eqn:Eq; [|done].
          apply goal_eqb_id in Eq. simpl in Eq. exfalso.
          apply (Hfirst j z Hj Hz). congruence. }
      rewrite Hrm. reflexivity.
    + right. split; [done|]. exists i. split; [done|].
      destruct (locate_InCompleted _ _ _ Hl) as (Hnone & _).
      assert (Hrm : list_remove goal_eqb (set_completed now g3)
                      (goals (write (InCompleted i) (set_completed now g3) s)) = None).
      { simpl. apply list_remove_absent. eapply Forall_impl; [exact Hnone|].
        intros z Hz. simpl in Hz.
        destruct (goal_eqb z (set_completed now g3)) eqn:Eq; [|done].
        apply goal_eqb_id in Eq. simpl in Eq. congruence. }
      by rewrite Hrm.
  - left. split; [|done]. intros Hle. apply Qle_bool_iff in Hle. congruence.
Qed.

Lemma record_progress_subtasks p subs now g :
  subtasks (record_progress p subs now g) = mark_completed subs now (subtasks g).
Proof.
  unfold record_progress. simpl. by destruct (mark_completed subs now (subtasks g)).
Qed.

Lemma locate_In_goals s goal_id g :
  get_goal s goal_id = Some g -> In g (goals s) ->
  exists i, locate s goal_id = Some (InGoals i) /\ goals s !! i = Some g.
Proof.
  intros Hg Hin. pose proof (get_goal_id _ _ _ Hg) as Hid.
  unfold get_goal in Hg. unfold locate in *.
  destruct (find_index (has_id goal_id) (goals s)) as [i|] eqn:Ei.
  - exists i. by split.
  - exfalso. apply find_index_None in Ei. rewrite Forall_forall in Ei.
    apply list_elem_of_In in Hin. apply Ei in Hin. apply has_id_false in Hin. done.
Qed.

(** Completing every subtask completes the goal, whatever progress is
    reported: an [update_progress] that lists the ids of all the subtasks of
    an active goal stores a progress of 100, returns [completed = True] and
    moves the goal from [goals] to the end of [completed_goals]. *)
Theorem all_subtasks_complete_goal (goal_id : string) (p : Q) (subs : list string) (now : Q)
    (s : t) (g : Goal) :
  get_goal s goal_id = Some g ->
  In g (goals s) ->
  status g <> "completed" ->
  subtasks g <> [] ->
  (forall st, In st (subtasks g) -> In (st_id st) subs) ->
  let r := update_progress goal_id p subs now s in
  exists q g',
    r.2 = UpdateSuccess goal_id (progress g) q true
    /\ (q == 100)%Q
    /\ completed_goals r.1 = completed_goals s ++ [g']
    /\ id g' = goal_id /\ status g' = "completed" /\ progress g' = q
    /\ length (goals r.1) = (length (goals s) - 1)%nat.
Proof.
  intros Hg Hin Hst Hne Hall r.
  destruct (locate_In_goals s goal_id g Hg Hin) as (i & Hl & Hi).
  pose proof (record_progress_core p subs now g) as Hcore.
  pose proof (record_progress_subtasks p subs now g) as Hsubs.
  destruct (mark_completed_spec subs now (subtasks g)) as [Hids Hdone].
  assert (Hmarked : Forall (fun st => st_completed st = true)
                      (mark_completed subs now (subtasks g))).
  { apply Forall_forall. intros st Hst'. apply list_elem_of_In in Hst'.
    apply (in_map st_completed) in Hst'. rewrite Hdone in Hst'.
    apply in_map_iff in Hst' as (st0 & <- & Hst0).
    apply orb_true_iff. right. apply str_in_In. by apply Hall. }
  assert (Hne' : mark_completed subs now (subtasks g) <> []).
  { intros He. rewrite He in Hids. destruct (subtasks g); done. }
  assert (Hq : (stored_progress p (mark_completed subs now (subtasks g)) == 100)%Q).
  { pose proof (in_range_stored_progress p (mark_completed subs now (subtasks g))) as [_ Hle].
    apply Qle_antisym; [done|].
    unfold stored_progress.
    destruct (mark_completed subs now (subtasks g)) as [|st sts] eqn:Hm; [done|].
    rewrite <- (calculated_progress_all_done (st :: sts)) at 1 by done.
    apply Q.le_max_r. }
  injection Hcore as Hid3 Hst3 Hp3.
  destruct (update_progress_explicit goal_id p subs now s (InGoals i) g Hl Hi Hst)
    as [[Hlow _]|[(Hhigh & j & [= <-] & Hres)|(_ & j & Hj & _)]]; [| |done].
  { exfalso. apply Hlow. rewrite Hp3, Hq. apply Qle_refl. }
  unfold r. rewrite Hres. clear Hres Hsubs.
  remember (record_progress p subs now g) as g3 eqn:Eg3. clear Eg3.
  cbn [fst snd completed_goals goals].
  exists (progress g3), (set_updated_at now (set_completed now g3)).
  repeat split.
  - by rewrite Hp3.
  - cbn. rewrite Hid3. by eapply get_goal_id.
  - rewrite length_delete; [done|]. by exists g.
Qed.

Lemma all_subtasks_complete_goal_witness :
  let s := run [OpSetGoal "learn Rocq" "skill_development" 3 None 1;
                OpDecompose "goal_1_0"] (init default_config None 0) in
  let r := update_progress "goal_1_0" 0
             ["goal_1_0_sub1"; "goal_1_0_sub2"; "goal_1_0_sub3"; "goal_1_0_sub4"] 9 s in
  exists q g',
    r.2 = UpdateSuccess "goal_1_0" 0 q true
    /\ (q == 100)%Q
    /\ completed_goals r.1 = [] ++ [g']
    /\ id g' = "goal_1_0" /\ status g' = "completed" /\ progress g' = q
    /\ length (goals r.1) = (1 - 1)%nat.
Proof.
  intros s.
  apply (all_subtasks_complete_goal "goal_1_0" 0
           ["goal_1_0_sub1"; "goal_1_0_sub2"; "goal_1_0_sub3"; "goal_1_0_sub4"] 9 s
           (mkGoal "goal_1_0" "learn Rocq" "skill_development" 3 "active" 0 1 None
              (make_subtasks "goal_1_0" "learn Rocq" "skill_development") [] 0 None None None)).
  - reflexivity.
  - left. reflexivity.
  - discriminate.
  - discriminate.
  - intros st Hst. vm_compute in Hst.
    destruct Hst as [<-|[<-|[<-|[<-|[]]]]]; simpl; tauto.
Defined.

(** *** What the search decides *)

Section Reach.
Variables (s : t) (target : string).

Local Abbreviation search n := (_has_circular_dependency_from n s target).

Lemma each_dependency_true (visit : string -> gset string -> option (bool * gset string))
    deps visited visited' :
  each_dependency visit deps visited = Some (true, visited') ->
  exists d v1 v2, In d deps /\ visit d v1 = Some (true, v2).
Proof.
  revert visited. induction deps as [|d deps IH]; intros visited; simpl; [done|].
  destruct (visit d visited) as [[[|] v1]|] eqn:Ed; [| |done].
  - intros _. exists d, visited, v1. auto.
  - intros Hloop. destruct (IH _ Hloop) as (d' & v2 & v3 & Hin & Hd'). eauto 6.
Qed.

(** A search that answers [True] has followed dependencies to the target. *)
Lemma search_sound n x visited visited' :
  search n x visited = Some (true, visited') -> reaches s x target.
Proof.
  revert x visited visited'. induction n as [|n IH]; intros x visited visited'; simpl; [done|].
  destruct (bool_decide (x ∈ visited)); [done|].
  destruct (String.eqb x target) eqn:Ex.
  { apply String.eqb_eq in Ex as ->. intros _. apply rtc_refl. }
  destruct (get_goal s x) as [goal|] eqn:Hg; [|done].
  intros Hloop. apply each_dependency_true in Hloop as (d & v1 & v2 & Hin & Hd).
  apply IH in Hd. eapply rtc_l; [|exact Hd]. by exists goal.
Qed.

Lemma closed_between_trans v1 v2 v3 :
  closed_between s v1 v2 -> closed_between s v2 v3 -> closed_between s v1 v3.
Proof.
  intros [Hsub1 Hc1] [Hsub2 Hc2]. split; [set_solver|].
  intros y d Hy Hny Hdep. destruct (decide (y ∈ v2)) as [Hin|Hnin].
  - apply Hsub2. by eapply Hc1.
  - by eapply Hc2.
Qed.

Lemma each_dependency_closed (visit : string -> gset string -> option (bool * gset string))
    deps visited visited' :
  (forall x v v', visit x v = Some (false, v') -> closed_between s v v' /\ x ∈ v') ->
  each_dependency visit deps visited = Some (false, visited') ->
  closed_between s visited visited' /\ forall d, In d deps -> d ∈ visited'.
Proof.
  intros Hrec. revert visited. induction deps as [|d deps IH]; intros visited; simpl.
  - intros [= <-]. split; [|done]. split; [done|]. intros y d' Hy Hny. done.
  - destruct (visit d visited) as [[[|] v1]|] eqn:Ed; [done| |done].
    intros Hloop. destruct (Hrec _ _ _ Ed) as [Hc1 Hd].
    destruct (IH _ Hloop) as [Hc2 Hdeps]. split.
    + by eapply closed_between_trans.
    + intros d' [<-|Hin]; [|by apply Hdeps]. by apply Hc2.
Qed.

(** A search that answers [False] has put the id it started from, and
    everything that id depends on, into [visited]. *)
Lemma search_closed n x visited visited' :
  search n x visited = Some (false, visited') ->
  closed_between s visited visited' /\ x ∈ visited'.
Proof.
  revert x visited visited'. induction n as [|n IH]; intros x visited visited'; simpl; [done|].
  destruct (bool_decide (x ∈ visited)) eqn:Ev.
  { apply bool_decide_eq_true in Ev. intros [= <-]. split; [|done].
    split; [done|]. intros y d Hy Hny. done. }
  apply bool_decide_eq_false in Ev.
  destruct (String.eqb x target); [done|].
  destruct (get_goal s x) as [goal|] eqn:Hg.
  - intros Hloop. destruct (each_dependency_closed _ _ _ _ IH Hloop) as [[Hsub Hc] Hdeps].
    split; [|set_solver]. split; [set_solver|].
    intros y d Hy Hny Hdep. destruct (decide (y = x)) as [->|Hne].
    + destruct Hdep as (g & Hg' & Hin). apply Hdeps. congruence.
    + apply (Hc y d); [done|set_solver|done].
  - intros [= <-]. split; [|set_solver]. split; [set_solver|].
    intros y d Hy Hny (g & Hg' & _). assert (y = x) as -> by set_solver. congruence.
Qed.

End Reach.

Lemma closed_reaches s v x y :
  closed_between s ∅ v -> reaches s x y -> x ∈ v -> y ∈ v.
Proof.
  intros [_ Hc] Hreach. induction Hreach as [x|x z y Hstep _ IH]; [done|].
  intros Hx. apply IH. apply (Hc x z); [done|set_solver|done].
Qed.

(** The search from any id ends within [recursion_bound]. *)
Lemma has_circular_dependency_returns s x y :
  exists b v,
    _has_circular_dependency_from (recursion_bound s) s y x ∅ = Some (b, v).
Proof.
  destruct (get_goal s x) as [g|] eqn:Hg.
  - destruct (has_circular_dependency_total s x y) as (b & Hb); [by eapply get_goal_ids|].
    unfold _has_circular_dependency in Hb.
    destruct (_has_circular_dependency_from (recursion_bound s) s y x ∅) as [[b' v]|]; [|done].
    by exists b', v.
  - unfold recursion_bound. simpl. rewrite bool_decide_eq_false_2 by set_solver.
    rewrite Hg. destruct (String.eqb x y); by eexists _, _.
Qed.

Lemma has_circular_dependency_true s x y :
  _has_circular_dependency s x y = Some true -> reaches s x y.
Proof.
  unfold _has_circular_dependency.
  destruct (_has_circular_dependency_from _ _ _ _ _) as [[[|] v]|] eqn:Hres; [|done..].
  intros _. by eapply search_sound.
Qed.

Lemma has_circular_dependency_false s x y :
  _has_circular_dependency s x y = Some false -> ~ reaches s x y.
Proof.
  unfold _has_circular_dependency.
  destruct (_has_circular_dependency_from _ _ _ _ _) as [[[|] v]|] eqn:Hres; [done| |done].
  intros _ Hreach.
  destruct (search_closed _ _ _ _ _ _ Hres) as [Hc Hx].
  apply (search_false _ _ _ _ _ _ Hres); [set_solver|].
  by eapply closed_reaches.
Qed.

(** [_has_circular_dependency(x, y)] always returns, and returns [True]
    exactly when [y] can be reached from [x] along dependencies: when [y] is
    [x] itself, or a dependency of [x], or a dependency of one, and so on,
    where the dependencies of an id are those of the goal that [get_goal]
    finds for it. *)
Theorem has_circular_dependency_decides (s : t) (x y : string) :
  exists b, _has_circular_dependency s x y = Some b /\ (b = true <-> reaches s x y).
Proof.
  destruct (has_circular_dependency_returns s x y) as (b & v & Hres).
  assert (Hb : _has_circular_dependency s x y = Some b).
  { unfold _has_circular_dependency. by rewrite Hres. }
  exists b. split; [done|]. destruct b; split; try done.
  - intros _. by apply has_circular_dependency_true.
  - intros Hreach. by destruct (has_circular_dependency_false _ _ _ Hb).
Qed.

(** *** Dependencies stay acyclic *)

Lemma rtc_extra_edge {A} (R R' : relation A) (a b : A) :
  (forall x y, R' x y -> R x y \/ (x = a /\ y = b)) ->
  forall x y, rtc R' x y -> rtc R x y \/ (rtc R x a /\ rtc R b y).
Proof.
  intros Hedge x y Hpath. induction Hpath as [x|x z y Hstep _ IH]; [by left|].
  destruct (Hedge _ _ Hstep) as [HR|[-> ->]].
  - destruct IH as [IH|[IHa IHb]].
    + left. by eapply rtc_l.
    + right. split; [by eapply rtc_l|done].
  - right. split; [done|]. by destruct IH as [IH|[_ IH]].
Qed.

Lemma tc_extra_edge {A} (R R' : relation A) (a b : A) :
  (forall x y, R' x y -> R x y \/ (x = a /\ y = b)) ->
  forall x, tc R' x x -> tc R x x \/ rtc R b a.
Proof.
  intros Hedge x Hcycle.
  assert (Hsplit : exists z, R' x z /\ rtc R' z x).
  { inversion Hcycle as [? ? Hstep|? z ? Hstep Hrest]; subst.
    - by exists x.
    - exists z. split; [done|]. by apply tc_rtc. }
  destruct Hsplit as (z & Hstep & Hpath).
  apply (rtc_extra_edge R R' a b Hedge) in Hpath.
  destruct (Hedge _ _ Hstep) as [HR|[-> ->]].
  - destruct Hpath as [Hpath|[Hza Hbx]].
    + left. eapply tc_rtc_r; [by apply tc_once|done].
    + right. etrans; [exact Hbx|]. by eapply rtc_l.
  - right. by destruct Hpath as [Hpath|[Hpath _]].
Qed.

(** A store whose goals list no dependencies has no cycle. *)
Lemma acyclic_no_dependencies s :
  Forall (fun g => dependencies g = []) (goals s ++ completed_goals s) -> acyclic s.
Proof.
  intros Hall x Hcycle.
  assert (Hstep : exists z, depends_on s x z).
  { inversion Hcycle; subst; eauto. }
  destruct Hstep as (z & g & Hg & Hin).
  apply get_goal_In, list_elem_of_In in Hg.
  rewrite Forall_forall in Hall. rewrite (Hall _ Hg) in Hin. done.
Qed.

(** [add_dependency(a, b)] always returns.  It returns [True] exactly when
    both ids resolve to a goal and [a] cannot be reached from [b] along
    dependencies; in particular a goal is never made to depend on itself.
    When it returns [False] it has changed nothing. *)
Theorem add_dependency_accepts (a b : string) (s : t) :
  exists s' ok,
    add_dependency a b s = Some (s', ok)
    /\ (ok = true <->
        is_Some (get_goal s a) /\ is_Some (get_goal s b) /\ ~ reaches s b a)
    /\ (ok = false -> s' = s).
Proof.
  unfold add_dependency.
  destruct (locate s a) as [l|] eqn:Hl.
  2:{ exists s, false. split; [done|]. split; [|done]. split; [done|].
      intros ([g Hg] & _). unfold get_goal in Hg. by rewrite Hl in Hg. }
  destruct (locate_read _ _ _ Hl) as (goal & Hr & Hid).
  assert (Ha : get_goal s a = Some goal) by (unfold get_goal; by rewrite Hl).
  destruct (get_goal s b) as [gb|] eqn:Hb.
  2:{ exists s, false. split; [done|]. split; [|done]. split; [done|].
      intros (_ & [g Hg] & _). done. }
  rewrite Hr.
  destruct (_has_circular_dependency s b a) as [[|]|] eqn:Hc.
  - exists s, false. split; [done|]. split; [|done]. split; [done|].
    intros (_ & _ & Hreach). destruct Hreach. by apply has_circular_dependency_true.
  - pose proof (has_circular_dependency_false _ _ _ Hc) as Hno.
    destruct (str_in b (dependencies goal)); eexists _, true;
      (split; [done|]); (split; [|done]); split; eauto.
  - exfalso. destruct (has_circular_dependency_returns s b a) as (c & v & Hres).
    unfold _has_circular_dependency in Hc. by rewrite Hres in Hc.
Qed.

Lemma add_dependency_rejected a b s s' :
  add_dependency a b s = Some (s', false) -> s' = s.
Proof.
  unfold add_dependency. destruct (locate s a) as [l|]; [|by intros [= <-]].
  destruct (get_goal s b) as [gb|]; [|by intros [= <-]].
  destruct (read s l) as [goal|]; [|by intros [= <-]].
  destruct (_has_circular_dependency s b a) as [[|]|]; [by intros [= <-]| |done].
  by destruct (str_in b (dependencies goal)).
Qed.

(** What a successful [add_dependency] adds to the dependency graph. *)
Lemma add_dependency_edges a b s s' ok :
  add_dependency a b s = Some (s', ok) ->
  forall x d, depends_on s' x d -> depends_on s x d \/ (ok = true /\ x = a /\ d = b).
Proof.
  intros Hadd x d Hdep. destruct ok.
  2:{ rewrite (add_dependency_rejected _ _ _ _ Hadd) in Hdep. by left. }
  revert Hadd. unfold add_dependency.
  destruct (locate s a) as [l|] eqn:Hl; [|done].
  destruct (get_goal s b) as [gb|] eqn:Hb; [|done].
  destruct (read s l) as [goal|] eqn:Hr; [|done].
  destruct (_has_circular_dependency s b a) as [[|]|]; [done| |done].
  destruct (str_in b (dependencies goal)); intros [= <-]; [by left|].
  destruct (get_goal_write s a l goal
              (set_dependencies (dependencies goal ++ [b]) goal) Hl Hr eq_refl)
    as [Hsame Hother].
  destruct Hdep as (g & Hg & Hin). destruct (decide (x = a)) as [->|Hne].
  - rewrite Hsame in Hg. injection Hg as <-. simpl in Hin.
    apply in_app_or in Hin as [Hin|[<-|[]]]; [left|by right].
    exists goal. split; [|done]. unfold get_goal. by rewrite Hl.
  - left. exists g. split; [|done]. by rewrite <- Hother.
Qed.

(** A cycle after [add_dependency] was there before. *)
Lemma add_dependency_cycle a b s s' ok x :
  add_dependency a b s = Some (s', ok) ->
  tc (depends_on s') x x -> tc (depends_on s) x x.
Proof.
  intros Hadd Hcycle. destruct ok.
  2:{ by rewrite (add_dependency_rejected _ _ _ _ Hadd) in Hcycle. }
  destruct (tc_extra_edge (depends_on s) (depends_on s') a b) with (x := x)
    as [Hold|Hback]; [|done|done|].
  - intros y d Hdep.
    destruct (add_dependency_edges _ _ _ _ _ Hadd y d Hdep) as [?|(_ & -> & ->)]; auto.
  - exfalso. destruct (add_dependency_success _ _ _ _ Hadd) as (_ & _ & _ & _ & _ & _ & Hc & _).
    by apply (has_circular_dependency_false _ _ _ Hc).
Qed.

(** [add_dependency] never closes a cycle: if no goal depends on itself
    through a chain of dependencies before the call, none does after it,
    whatever the call returns. *)
Theorem add_dependency_keeps_acyclic (a b : string) (s s' : t) (ok : bool) :
  acyclic s -> add_dependency a b s = Some (s', ok) -> acyclic s'.
Proof.
  intros Hacyclic Hadd x Hcycle. apply (Hacyclic x).
  by eapply add_dependency_cycle.
Qed.

Lemma add_dependency_keeps_acyclic_witness :
  let s := run [OpSetGoal "learn Rocq" "skill_development" 3 None 1;
                OpSetGoal "write the report" "creation" 4 None 1;
                OpAddDependency "goal_1_0" "goal_1_1"]
               (init default_config None 0) in
  acyclic (exec (OpAddDependency "goal_1_1" "goal_1_0") s)
  /\ acyclic (exec (OpAddDependency "goal_1_1" "goal_1_1") s).
Proof.
  intros s.
  assert (Hs : acyclic s).
  { apply (add_dependency_keeps_acyclic "goal_1_0" "goal_1_1"
             (run [OpSetGoal "learn Rocq" "skill_development" 3 None 1;
                   OpSetGoal "write the report" "creation" 4 None 1]
                  (init default_config None 0)) s true).
    - apply acyclic_no_dependencies. vm_compute. repeat constructor.
    - reflexivity. }
  split.
  - apply (add_dependency_keeps_acyclic "goal_1_1" "goal_1_0" s _ false Hs). reflexivity.
  - apply (add_dependency_keeps_acyclic "goal_1_1" "goal_1_1" s _ false Hs). reflexivity.
Defined.

(** *** The order of the active goals *)

Lemma insert_by_priority_perm x l : Permutation (insert_by_priority x l) (x :: l).
Proof.
  induction l as [|y l IH]; simpl; [done|].
  destruct (priority y.2 <=? priority x.2)%Z; [done|].
  rewrite IH. apply perm_swap.
Qed.

Lemma insert_by_priority_sorted x l :
  StronglySorted (fun a b : nat * Goal => (priority b.2 <= priority a.2)%Z) l ->
  StronglySorted (fun a b : nat * Goal => (priority b.2 <= priority a.2)%Z)
    (insert_by_priority x l).
Proof.
  induction 1 as [|y l Hl IH Hy]; simpl.
  - repeat constructor.
  - destruct (priority y.2 <=? priority x.2)%Z eqn:E.
    + apply Z.leb_le in E. constructor; [by constructor|].
      constructor; [done|]. eapply Forall_impl; [exact Hy|]. simpl. intros; lia.
    + apply Z.leb_gt in E. constructor; [done|].
      rewrite insert_by_priority_perm. constructor; [lia|done].
Qed.

Lemma insert_by_priority_stable p x l :
  List.filter (fun a : nat * Goal => (priority a.2 =? p)%Z) (insert_by_priority x l)
  = List.filter (fun a : nat * Goal => (priority a.2 =? p)%Z) (x :: l).
Proof.
  induction l as [|y l IH]; [done|].
  cbn [insert_by_priority].
  destruct (priority y.2 <=? priority x.2)%Z eqn:E; [done|]. apply Z.leb_gt in E.
  cbn [List.filter] in *. rewrite IH.
  destruct (priority y.2 =? p)%Z eqn:Ey, (priority x.2 =? p)%Z eqn:Ex; try done.
  apply Z.eqb_eq in Ey, Ex. lia.
Qed.

Lemma snd_imap_pair {A} (l : list A) : map snd (imap pair l) = l.
Proof.
  change (map snd (imap pair l)) with (snd <$> imap pair l).
  rewrite fmap_imap. unfold compose. simpl.
  induction l as [|x l IH] using rev_ind; [done|].
  rewrite imap_app. simpl. by rewrite IH.
Qed.

Lemma sorted_goals_perm s : Permutation (sorted_goals s) (imap pair (goals s)).
Proof.
  unfold sorted_goals. induction (imap pair (goals s)) as [|x l IH]; simpl; [done|].
  by rewrite insert_by_priority_perm, IH.
Qed.

(** [get_active_goals()] is [goals] sorted by descending priority: it has
    the same goals, no goal comes before one of higher priority, and goals
    of equal priority keep the order they have in [goals].  With
    [max_count] it is the first [max_count] goals of that list. *)
Theorem get_active_goals_sorted (s : t) :
  Permutation (get_active_goals None s) (goals s)
  /\ StronglySorted (fun g1 g2 => (priority g2 <= priority g1)%Z) (get_active_goals None s)
  /\ (forall p,
        List.filter (fun g => (priority g =? p)%Z) (get_active_goals None s)
        = List.filter (fun g => (priority g =? p)%Z) (goals s))
  /\ forall n,
       get_active_goals (Some n) s = take n (get_active_goals None s)
       /\ length (get_active_goals (Some n) s) = (n `min` length (goals s))%nat.
Proof.
  assert (Hperm : Permutation (get_active_goals None s) (goals s)).
  { unfold get_active_goals.
    etrans; [apply Permutation_map, sorted_goals_perm|]. by rewrite snd_imap_pair. }
  split; [done|]. split; [|split].
  - unfold get_active_goals, sorted_goals.
    assert (Hmap : forall l : list (nat * Goal),
               StronglySorted (fun a b : nat * Goal => (priority b.2 <= priority a.2)%Z) l ->
               StronglySorted (fun g1 g2 => (priority g2 <= priority g1)%Z) (map snd l)).
    { induction 1 as [|y l' _ IH' Hy]; simpl; constructor; [done|].
      apply Forall_forall. intros g Hg. apply list_elem_of_In, in_map_iff in Hg.
      destruct Hg as (z & <- & Hz). rewrite Forall_forall in Hy.
      by apply Hy, list_elem_of_In. }
    apply Hmap.
    induction (imap pair (goals s)) as [|x l IH]; simpl; [constructor|].
    by apply insert_by_priority_sorted.
  - intros p. unfold get_active_goals.
    rewrite <- (snd_imap_pair (goals s)) at 1. unfold sorted_goals.
    assert (Hmap : forall l : list (nat * Goal),
               List.filter (fun g => (priority g =? p)%Z) (map snd l)
               = map snd (List.filter (fun a : nat * Goal => (priority a.2 =? p)%Z) l)).
    { induction l as [|y l IH]; simpl; [done|].
      destruct (priority y.2 =? p)%Z; simpl; by rewrite IH. }
    rewrite !Hmap. f_equal.
    induction (imap pair (goals s)) as [|x l IH]; [done|].
    cbn [foldr]. rewrite insert_by_priority_stable. cbn [List.filter]. by rewrite IH.
  - intros n. split; [done|].
    unfold get_active_goals at 1. fold (get_active_goals None s).
    rewrite length_take. by rewrite (Permutation_length Hperm).
Qed.

(** *** Choosing the next task *)

Lemma decomposed_refl g : decomposed g g.
Proof. by left. Qed.

Lemma decomposed_id g g' : decomposed g g' -> set_subtasks [] g' = set_subtasks [] g.
Proof. by intros [->|[_ ->]]. Qed.

Lemma decomposed_trans g1 g2 g3 : decomposed g1 g2 -> decomposed g2 g3 -> decomposed g1 g3.
Proof.
  intros [->|[He ->]]; [done|]. intros [->|[He' _]]; [by right|].
  simpl in He'. pose proof (make_subtasks_length (id g1) (description g1) (type g1)) as Hlen.
  rewrite He' in Hlen. done.
Qed.

Lemma only_decomposed_refl s : only_decomposed s s.
Proof.
  repeat split; try done; apply Forall2_same_length_lookup_2; try done;
    intros i x y Hx Hy; assert (x = y) as -> by congruence; apply decomposed_refl.
Qed.

Lemma Forall2_decomposed_trans l1 l2 l3 :
  Forall2 decomposed l1 l2 -> Forall2 decomposed l2 l3 -> Forall2 decomposed l1 l3.
Proof.
  intros H12. revert l3. induction H12 as [|x y l1 l2 Hxy _ IH]; intros l3 H23.
  - by inversion H23.
  - inversion H23 as [|? z ? l3' Hyz H23']; subst. constructor; [|by apply IH].
    by eapply decomposed_trans.
Qed.

Lemma only_decomposed_trans s1 s2 s3 :
  only_decomposed s1 s2 -> only_decomposed s2 s3 -> only_decomposed s1 s3.
Proof.
  intros (Hg & Hc & Hcfg & Hn) (Hg' & Hc' & Hcfg' & Hn').
  repeat split; try congruence; by eapply Forall2_decomposed_trans.
Qed.

Lemma find_index_decomposed x l l' :
  Forall2 decomposed l l' -> find_index (has_id x) l' = find_index (has_id x) l.
Proof.
  induction 1 as [|g g' l l' Hg _ IH]; simpl; [done|].
  apply decomposed_id in Hg. unfold has_id at 1 3.
  assert (id g' = id g) as -> by (by injection Hg).
  by rewrite IH.
Qed.

Lemma locate_decomposed s s' x : only_decomposed s s' -> locate s' x = locate s x.
Proof.
  intros (Hg & Hc & _). unfold locate.
  by rewrite (find_index_decomposed x _ _ Hg), (find_index_decomposed x _ _ Hc).
Qed.

Lemma get_goal_decomposed s s' x :
  only_decomposed s s' ->
  match get_goal s x, get_goal s' x with
  | Some g, Some g' => decomposed g g'
  | None, None => True
  | _, _ => False
  end.
Proof.
  intros Hd. unfold get_goal. rewrite (locate_decomposed _ _ x Hd).
  destruct Hd as (Hg & Hc & _).
  destruct (locate s x) as [[i|i]|]; simpl; [| |done].
  - pose proof (proj1 (Forall2_lookup _ _ _) Hg i) as H. by inversion H.
  - pose proof (proj1 (Forall2_lookup _ _ _) Hc i) as H. by inversion H.
Qed.

Lemma any_dependency_pending_decomposed s s' deps :
  only_decomposed s s' -> any_dependency_pending s' deps = any_dependency_pending s deps.
Proof.
  intros Hd. induction deps as [|d deps IH]; simpl; [done|].
  pose proof (get_goal_decomposed s s' d Hd) as Hg.
  destruct (get_goal s d) as [g|], (get_goal s' d) as [g'|]; try done.
  apply decomposed_id in Hg. assert (status g' = status g) as -> by (by injection Hg).
  by rewrite IH.
Qed.

Lemma Forall2_decomposed_insert l i g g' :
  l !! i = Some g -> decomposed g g' -> Forall2 decomposed l (<[i:=g']> l).
Proof.
  intros Hi Hg. apply Forall2_same_length_lookup_2; [by rewrite length_insert|].
  intros j x y Hx Hy. destruct (decide (j = i)) as [->|Hne].
  - rewrite list_lookup_insert_eq in Hy by (by eapply lookup_lt_Some). congruence.
  - rewrite list_lookup_insert_ne in Hy by done.
    assert (x = y) as -> by congruence. apply decomposed_refl.
Qed.

(** [decompose_goal] changes nothing but the subtasks of the goal it
    decomposes. *)
Lemma decompose_goal_only_decomposed goal_id s :
  only_decomposed s (decompose_goal goal_id s).1.
Proof.
  unfold decompose_goal. destruct (locate s goal_id) as [l|] eqn:Hl;
    [|apply only_decomposed_refl].
  destruct (locate_read _ _ _ Hl) as (g & Hr & Hid). rewrite Hr.
  destruct (subtasks g) eqn:He; [|apply only_decomposed_refl].
  assert (Hdec : decomposed g (set_subtasks (make_subtasks goal_id (description g) (type g)) g)).
  { right. by rewrite Hid. }
  destruct (only_decomposed_refl s) as (Hg & Hc & _).
  destruct l as [i|i]; simpl in *; repeat split; try done;
    by eapply Forall2_decomposed_insert.
Qed.

Lemma has_id_locate_InGoals s g :
  In g (goals s) -> exists i, locate s (id g) = Some (InGoals i).
Proof.
  intros Hin. unfold locate.
  destruct (find_index (has_id (id g)) (goals s)) as [i|] eqn:Ei; [by exists i|].
  exfalso. apply find_index_None in Ei. rewrite Forall_forall in Ei.
  apply list_elem_of_In in Hin. apply Ei in Hin. by apply has_id_false in Hin.
Qed.

Lemma next_task_loop_only_decomposed active s :
  only_decomposed s (next_task_loop active s).1
  /\ completed_goals (next_task_loop active s).1 = completed_goals s.
Proof.
  revert s. induction active as [|i active IH]; intros s; simpl;
    [split; [apply only_decomposed_refl|done]|].
  destruct (goals s !! i) as [g|] eqn:Hi; [|apply IH].
  destruct (any_dependency_pending s (dependencies g)) as [[|]|];
    [apply IH| |split; [apply only_decomposed_refl|done]].
  set (s1 := match subtasks g with [] => (decompose_goal (id g) s).1 | _ :: _ => s end).
  assert (Hs1 : only_decomposed s s1 /\ completed_goals s1 = completed_goals s).
  { subst s1. destruct (subtasks g) eqn:He; [|split; [apply only_decomposed_refl|done]].
    split; [apply decompose_goal_only_decomposed|].
    unfold decompose_goal.
    destruct (has_id_locate_InGoals s g) as (j & ->);
      [apply list_elem_of_In; by eapply list_elem_of_lookup_2|].
    simpl. destruct (goals s !! j) as [gj|]; [|done]. by destruct (subtasks gj). }
  clearbody s1. destruct Hs1 as [Hd Hc].
  assert (Hrest : only_decomposed s (next_task_loop active s1).1
                  /\ completed_goals (next_task_loop active s1).1 = completed_goals s).
  { destruct (IH s1) as [Hd' Hc']. split; [by eapply only_decomposed_trans|congruence]. }
  destruct (goals s1 !! i) as [g1|]; [|done].
  by destruct (List.find _ _).
Qed.

Lemma next_task_loop_sound active s s' task :
  next_task_loop active s = (s', NextTask task) ->
  exists g subtask,
    In g (goals s')
    /\ any_dependency_pending s' (dependencies g) = Some false
    /\ List.find (fun st => negb (st_completed st)) (subtasks g) = Some subtask
    /\ task = mkTask (id g) (st_id subtask) (st_description subtask)
                (description g) (priority g) (type g).
Proof.
  revert s. induction active as [|i active IH]; intros s; simpl; [done|].
  destruct (goals s !! i) as [g|] eqn:Hi; [|apply IH].
  destruct (any_dependency_pending s (dependencies g)) as [[|]|] eqn:Hdep; [apply IH| |done].
  set (s1 := match subtasks g with [] => (decompose_goal (id g) s).1 | _ :: _ => s end).
  assert (Hs1 : only_decomposed s s1).
  { subst s1. destruct (subtasks g); [apply decompose_goal_only_decomposed|].
    apply only_decomposed_refl. }
  clearbody s1.
  destruct (goals s1 !! i) as [g1|] eqn:Hi1; [|apply IH].
  destruct (List.find _ _) as [subtask|] eqn:Hfind; [|apply IH].
  intros [= <- <-]. exists g1, subtask. repeat split; [| |done].
  - apply list_elem_of_In. by eapply list_elem_of_lookup_2.
  - rewrite (any_dependency_pending_decomposed s s1) by done.
    destruct Hs1 as (Hg & _). pose proof (proj1 (Forall2_lookup _ _ _) Hg i) as H.
    rewrite Hi, Hi1 in H. inversion H as [? ? Hdec|]; subst.
    apply decomposed_id in Hdec.
    assert (dependencies g1 = dependencies g) as -> by (by injection Hdec). done.
Qed.

(** What [get_next_task] returns and what it changes.  A task it returns is
    the first subtask that is not completed of an active goal whose
    dependencies are all completed.  Whatever it returns, it has changed
    nothing but the subtasks of active goals that had none, which are now
    decomposed; [completed_goals] is as before. *)
Theorem get_next_task_sound (s : t) :
  let r := get_next_task s in
  only_decomposed s r.1
  /\ completed_goals r.1 = completed_goals s
  /\ forall task,
       r.2 = NextTask task ->
       exists g subtask,
         In g (goals r.1)
         /\ any_dependency_pending r.1 (dependencies g) = Some false
         /\ List.find (fun st => negb (st_completed st)) (subtasks g) = Some subtask
         /\ task = mkTask (id g) (st_id subtask) (st_description subtask)
                     (description g) (priority g) (type g).
Proof.
  intros r. unfold r, get_next_task.
  destruct (next_task_loop_only_decomposed (map fst (sorted_goals s)) s) as [Hd Hc].
  split; [done|]. split; [done|]. intros task Htask.
  apply (next_task_loop_sound (map fst (sorted_goals s)) s).
  destruct (next_task_loop (map fst (sorted_goals s)) s) as [s' res]. simpl in Htask.
  by rewrite Htask.
Qed.

Lemma any_dependency_pending_resolves s deps :
  (forall d, In d deps -> is_Some (get_goal s d)) ->
  any_dependency_pending s deps <> None.
Proof.
  induction deps as [|d deps IH]; simpl; [done|]. intros Hall.
  destruct (Hall d) as [g ->]; [by left|].
  destruct (negb _); [done|]. apply IH. intros d' Hd'. apply Hall. by right.
Qed.

Lemma dependencies_resolve_decomposed s s' :
  only_decomposed s s' -> dependencies_resolve s -> dependencies_resolve s'.
Proof.
  intros Hd Hres g' d Hg' Hin.
  destruct Hd as (Hg & Hrest). pose proof Hg as Hg2.
  apply list_elem_of_In, list_elem_of_lookup in Hg' as [i Hi].
  destruct (Forall2_lookup_r _ _ _ _ _ Hg Hi) as (g & Hgi & Hdec).
  apply decomposed_id in Hdec.
  assert (Hdeps : dependencies g' = dependencies g) by (by injection Hdec).
  rewrite Hdeps in Hin.
  destruct (Hres g d) as [gd Hgd];
    [apply list_elem_of_In; by eapply list_elem_of_lookup_2|done|].
  pose proof (get_goal_decomposed s s' d (conj Hg2 Hrest)) as H.
  rewrite Hgd in H. by destruct (get_goal s' d).
Qed.

(** [get_next_task] returns, a task or [None], whenever every dependency
    that an active goal lists resolves to a goal: the [TypeError] needs a
    dependency on an id that no goal has. *)
Theorem get_next_task_returns (s : t) :
  dependencies_resolve s ->
  (get_next_task s).2 = NoTask \/ exists task, (get_next_task s).2 = NextTask task.
Proof.
  unfold get_next_task. generalize (map fst (sorted_goals s)) as active.
  intros active. revert s. induction active as [|i active IH]; intros s Hres; simpl; [by left|].
  destruct (goals s !! i) as [g|] eqn:Hi; [|by apply IH].
  destruct (any_dependency_pending s (dependencies g)) as [[|]|] eqn:Hdep; [by apply IH| |].
  2:{ exfalso. revert Hdep. apply any_dependency_pending_resolves. intros d Hd.
      apply (Hres g d); [|done]. apply list_elem_of_In. by eapply list_elem_of_lookup_2. }
  set (s1 := match subtasks g with [] => (decompose_goal (id g) s).1 | _ :: _ => s end).
  assert (Hs1 : dependencies_resolve s1).
  { subst s1. destruct (subtasks g); [|done].
    eapply dependencies_resolve_decomposed; [apply decompose_goal_only_decomposed|done]. }
  clearbody s1.
  destruct (goals s1 !! i) as [g1|]; [|by apply IH].
  destruct (List.find _ _); [|by apply IH]. right. by eexists.
Qed.

Lemma get_next_task_returns_witness :
  let s := run [OpSetGoal "learn Rocq" "skill_development" 3 None 1;
                OpSetGoal "write the report" "creation" 4 None 1;
                OpAddDependency "goal_1_1" "goal_1_0"]
               (init default_config None 0) in
  (get_next_task s).2 = NoTask \/ exists task, (get_next_task s).2 = NextTask task.
Proof.
  intros s. apply (get_next_task_returns s).
  intros g d Hg Hd. vm_compute in Hg.
  destruct Hg as [<-|[<-|[]]]; vm_compute in Hd; [done|].
  destruct Hd as [<-|[]]. by eexists.
Defined.

(** *** Where a goal is kept *)

Lemma lifecycle_ok_cores s :
  lifecycle_ok s
  <-> Forall (fun c => c.1.2 = "active" /\ (c.2 < 100)%Q) (core <$> goals s)
      /\ Forall (fun c => c.1.2 = "completed" /\ (c.2 == 100)%Q) (core <$> completed_goals s).
Proof. unfold lifecycle_ok. by rewrite !Forall_fmap. Qed.

Lemma lifecycle_ok_exec op s : lifecycle_ok s -> lifecycle_ok (exec op s).
Proof.
  intros Hok. pose proof Hok as [Hactive Hdone].
  revert Hok. rewrite !lifecycle_ok_cores. intros [Hg Hc].
  destruct op as [d ty pr dl now|gid|gid p subs now|gid dep| |now today draws]; simpl.
  - destruct (set_goal_cores d ty pr dl now s) as [[_ ->]|(_ & -> & ->)]; [done|].
    split; [|done]. apply Forall_app. split; [done|].
    constructor; [|done]. simpl. split; [done|lra].
  - destruct (decompose_goal_cores gid s) as [-> ->]. done.
  - destruct (update_progress_cases gid p subs now s)
      as [(_ & -> & _)|[(g & _ & _ & -> & _)|[(l & g & g' & _ & Hr & Hst & Hcore & Hlow & -> & _)
         |[(i & g & g' & _ & Hi & _ & Hcore & Hhigh & -> & -> & _)
          |(i & g & g' & _ & Hi & Hst & _)]]]]; try done.
    + destruct l as [i|i]; simpl in Hr.
      2:{ exfalso. rewrite Forall_forall in Hdone. apply Hst.
          by apply (Hdone g), list_elem_of_lookup_2 with i. }
      simpl. split; [|done]. rewrite list_fmap_insert. apply Forall_insert; [done|].
      rewrite Hcore. simpl. split.
      * rewrite Forall_forall in Hactive. by apply (Hactive g), list_elem_of_lookup_2 with i.
      * by apply Qnot_le_lt.
    + split.
      * rewrite list_fmap_delete. by apply Forall_delete.
      * rewrite fmap_app. apply Forall_app. split; [done|]. constructor; [|done].
        rewrite Hcore. simpl. split; [done|].
        apply Qle_antisym; [|done]. apply in_range_stored_progress.
    + exfalso. rewrite Forall_forall in Hdone. apply Hst.
      by apply (Hdone g), list_elem_of_lookup_2 with i.
  - destruct (add_dependency gid dep s) as [[s' b]|] eqn:E; [|done].
    destruct (add_dependency_cores _ _ _ _ _ E) as [-> ->]. done.
  - unfold get_next_task.
    destruct (next_task_loop_cores (map fst (sorted_goals s)) s) as [-> ->]. done.
  - destruct (review_goals_cores now today draws s) as [Hs ->].
    split; [|done]. by eapply Forall_sublist_of.
Qed.

(** Where a goal is kept says how far it is.  If every goal in [goals] is
    active with a progress below 100 and every goal in [completed_goals] is
    completed with a progress of 100, the same holds after any sequence of
    calls, whatever they return or raise: a goal is moved to
    [completed_goals] exactly when its progress reaches 100. *)
Theorem lifecycle_kept (ops : list Op) (s : t) :
  lifecycle_ok s -> lifecycle_ok (run ops s).
Proof.
  revert s. induction ops as [|op ops IH]; intros s Hs; simpl; [done|].
  apply IH. by apply lifecycle_ok_exec.
Qed.

Lemma lifecycle_kept_witness :
  lifecycle_ok
    (run [OpSetGoal "learn Rocq" "skill_development" 3 None 1;
          OpSetGoal "write the report" "creation" 4 None 1;
          OpUpdateProgress "goal_1_0" 120 [] 2;
          OpUpdateProgress "goal_1_1" 40 [] 3;
          OpNextTask]
       (init default_config None 0)).
Proof.
  apply (lifecycle_kept _ (init default_config None 0)).
  split; constructor.
Defined.

(** *** What a review counts *)

Lemma review_goal_counts now i s r g :
  goals s !! i = Some g ->
  let out := review_goal now i s r in
  next_review_time out.1.2 = next_review_time s
  /\ reviewed_goals out.2 = reviewed_goals r + 1
  /\ goals_suggested out.2 = goals_suggested r
  /\ ((out.1.1 = S i /\ length (goals out.1.2) = length (goals s)
       /\ removed_goals out.2 = removed_goals r)
      \/ (out.1.1 = i /\ S (length (goals out.1.2)) = length (goals s)
          /\ removed_goals out.2 = removed_goals r + 1))
  /\ priority_adjustments r <= priority_adjustments out.2
  /\ (priority_adjustments out.2 - priority_adjustments r)
     + (removed_goals out.2 - removed_goals r)
     <= stalled_goals out.2 - stalled_goals r <= 1.
Proof.
  intros Hg. unfold review_goal. rewrite Hg.
  set (g1 := set_reviewed now g). clearbody g1.
  destruct ((3 <? review_count g1) && Qltb (progress g1) 30).
  - destruct (5 <? review_count g1).
    + destruct (find_index (fun g0 => goal_eqb g0 g1)
                  (goals (set_goals (<[i:=g1]> (goals s)) s))) as [j|] eqn:Ej.
      * destruct (find_index_Some _ _ _ Ej) as (gj & Hj & _).
        assert (Hlen : S (length (delete j (<[i:=g1]> (goals s)))) = length (goals s)).
        { simpl in Hj. rewrite length_delete by (by exists gj).
          apply lookup_lt_Some in Hj. rewrite length_insert in *. lia. }
        destruct (j <? i)%nat; cbn [fst snd].
        -- cbn [goals set_goals].
           destruct (delete j (<[i:=g1]> (goals s)) !! (i - 1)%nat) as [gk|] eqn:Hk;
             cbn [goals set_goals reviewed_goals goals_suggested removed_goals
                    priority_adjustments stalled_goals next_review_time];
             rewrite ?length_insert; (split; [done|]); repeat split; lia.
        -- cbn [goals set_goals reviewed_goals goals_suggested removed_goals
                  priority_adjustments stalled_goals next_review_time].
           split; [done|]. repeat split; lia.
      * cbn [fst snd goals set_goals].
        destruct (<[i:=g1]> (goals s) !! i) as [gk|];
          cbn [goals set_goals reviewed_goals goals_suggested removed_goals
                 priority_adjustments stalled_goals next_review_time];
          rewrite ?length_insert; (split; [done|]); repeat split; lia.
    + destruct (1 <? priority g1); cbn [fst snd goals set_goals].
      * destruct (<[i:=set_priority (priority g1 - 1) g1]> (<[i:=g1]> (goals s)) !! i) as [gk|];
          cbn [goals set_goals reviewed_goals goals_suggested removed_goals
                 priority_adjustments stalled_goals next_review_time];
          rewrite ?length_insert; (split; [done|]); repeat split; lia.
      * destruct (<[i:=g1]> (goals s) !! i) as [gk|];
          cbn [goals set_goals reviewed_goals goals_suggested removed_goals
                 priority_adjustments stalled_goals next_review_time];
          rewrite ?length_insert; (split; [done|]); repeat split; lia.
  - cbn [fst snd goals set_goals].
    destruct (<[i:=g1]> (goals s) !! i) as [gk|];
      cbn [goals set_goals reviewed_goals goals_suggested removed_goals
             priority_adjustments stalled_goals next_review_time];
      rewrite ?length_insert; (split; [done|]); repeat split; lia.
Qed.

Lemma review_loop_counts n now i s r :
  (i + n = length (goals s))%nat ->
  let out := review_loop n now i s r in
  next_review_time out.1 = next_review_time s
  /\ reviewed_goals out.2 = reviewed_goals r + Z.of_nat n
  /\ goals_suggested out.2 = goals_suggested r
  /\ len (goals out.1) = len (goals s) - (removed_goals out.2 - removed_goals r)
  /\ removed_goals r <= removed_goals out.2
  /\ priority_adjustments r <= priority_adjustments out.2
  /\ (priority_adjustments out.2 - priority_adjustments r)
     + (removed_goals out.2 - removed_goals r)
     <= stalled_goals out.2 - stalled_goals r <= Z.of_nat n.
Proof.
  revert i s r. induction n as [|n IH]; intros i s r Hlen; simpl.
  { unfold len. repeat split; lia. }
  destruct (lookup_lt_is_Some_2 (goals s) i) as [g Hg]; [lia|].
  pose proof (review_goal_counts now i s r g Hg) as Hstep.
  destruct (review_goal now i s r) as [[next s1] r1]. simpl in Hstep.
  destruct Hstep as (Hnext & Hrev & Hsug & Hcase & Hadj & Hstalled).
  assert (Hlen1 : (next + n = length (goals s1))%nat).
  { destruct Hcase as [(-> & Hl & _)|(-> & Hl & _)]; lia. }
  destruct (IH next s1 r1 Hlen1) as (Hnext' & Hrev' & Hsug' & Hl' & Hrem' & Hadj' & Hstalled').
  split; [congruence|]. unfold len in *. repeat split; try lia.
  all: destruct Hcase as [(_ & Hl & Hrem)|(_ & Hl & Hrem)]; lia.
Qed.

(** What a review that is due reports.  It either raises [NameError], and
    then the time of the next review is not moved, or succeeds.  On success
    it has reviewed as many goals as there were, has suggested none, and
    [goals] is shorter by the number it reports as removed; every removal
    and every lowered priority belongs to a goal counted as stalled; the
    next review is one review interval after this one, and a call before
    that time is skipped and changes nothing.  Either way
    [completed_goals] is untouched. *)
Theorem review_accounting (now today : Q) (draws : nat -> Q) (s : t) :
  Qltb now (next_review_time s) = false ->
  let out := review_goals now today draws s in
  completed_goals out.1 = completed_goals s
  /\ ((out.2 = ReviewRaises "NameError" /\ next_review_time out.1 = next_review_time s)
      \/ exists r,
           out.2 = ReviewSuccess r
           /\ reviewed_goals r = len (goals s)
           /\ goals_suggested r = 0
           /\ len (goals out.1) = len (goals s) - removed_goals r
           /\ 0 <= priority_adjustments r /\ 0 <= removed_goals r
           /\ priority_adjustments r + removed_goals r <= stalled_goals r <= len (goals s)
           /\ next_review_time out.1 = (now + review_interval_hours (config s) * 3600)%Q
           /\ forall now' today' draws',
                (now' < now + review_interval_hours (config s) * 3600)%Q ->
                review_goals now' today' draws' out.1 = (out.1, ReviewSkipped)).
Proof.
  intros Hdue. unfold review_goals. rewrite Hdue.
  pose proof (review_loop_cores (length (goals s)) now 0 s (mkReviewResults 0 0 0 0 0))
    as (_ & Hc & Hcfg).
  pose proof (review_loop_counts (length (goals s)) now 0 s (mkReviewResults 0 0 0 0 0) eq_refl)
    as (Hnext & Hrev & Hsug & Hlen & Hrem & Hadj & Hstalled).
  destruct (review_loop _ _ _ _ _) as [s1 r1]. simpl in *.
  rewrite add_suggested_unbound.
  destruct (suggest_new_goals today s1); simpl; [|by auto].
  split; [done|]. right. exists r1. unfold len in *. rewrite Hcfg.
  repeat split; try lia.
  intros now' today' draws' Hlt. unfold review_goals. simpl.
  by rewrite (proj2 (Qltb_lt _ _) Hlt).
Qed.

Lemma review_accounting_witness :
  let s := run [OpSetGoal "learn Rocq" "skill_development" 3 None 1;
                OpSetGoal "write the report" "creation" 4 None 1;
                OpSetGoal "tune the index" "optimization" 2 None 1]
               (init default_config None 0) in
  let out := review_goals 4000 0 (fun _ => 0%Q) s in
  completed_goals out.1 = []
  /\ ((out.2 = ReviewRaises "NameError" /\ next_review_time out.1 = next_review_time s)
      \/ exists r,
           out.2 = ReviewSuccess r
           /\ reviewed_goals r = 3
           /\ goals_suggested r = 0
           /\ len (goals out.1) = 3 - removed_goals r
           /\ 0 <= priority_adjustments r /\ 0 <= removed_goals r
           /\ priority_adjustments r + removed_goals r <= stalled_goals r <= 3
           /\ next_review_time out.1 = (4000 + 1 * 3600)%Q
           /\ forall now' today' draws',
                (now' < 4000 + 1 * 3600)%Q ->
                review_goals now' today' draws' out.1 = (out.1, ReviewSkipped)).
Proof.
  intros s. apply (review_accounting 4000 0 (fun _ => 0%Q) s). reflexivity.
Defined.

(** *** Setting a goal *)

Lemma find_index_app {A} (p : A -> bool) (l1 l2 : list A) :
  find_index p (l1 ++ l2)
  = match find_index p l1 with
    | Some i => Some i
    | None => (fun j => (length l1 + j)%nat) <$> find_index p l2
    end.
Proof.
  induction l1 as [|x l1 IH]; simpl.
  - by destruct (find_index p l2).
  - destruct (p x); [done|]. rewrite IH.
    destruct (find_index p l1); [done|]. by destruct (find_index p l2).
Qed.

(** [set_goal] with a description, at a time when the id it builds is not
    in use, appends a goal that [get_goal] then finds under that id, and
    leaves what [get_goal] finds under every other id as it was.  The new
    goal is active at progress 0; its type is one of [goal_types], the
    requested one if that is known; its priority is the requested one
    brought into 1..5. *)
Theorem set_goal_stores (descr ty : string) (prio : Z) (dl : option string) (now : Q) (s : t) :
  descr <> "" ->
  ~ In (new_goal_id now s) (ids s) ->
  exists g,
    set_goal descr ty prio dl now s = (set_goals (goals s ++ [g]) s, SetGoalOk g)
    /\ core g = (new_goal_id now s, "active", 0%Q)
    /\ description g = descr
    /\ In (type g) goal_types /\ (In ty goal_types -> type g = ty)
    /\ 1 <= priority g <= 5 /\ (1 <= prio <= 5 -> priority g = prio)
    /\ get_goal (set_goals (goals s ++ [g]) s) (id g) = Some g
    /\ forall x, x <> id g -> get_goal (set_goals (goals s ++ [g]) s) x = get_goal s x.
Proof.
  intros Hdescr Hfresh. unfold set_goal.
  apply String.eqb_neq in Hdescr. rewrite Hdescr.
  fold (new_goal_id now s).
  eexists. split; [reflexivity|]. split; [done|]. split; [done|].
  cbn [type priority id]. repeat split; try lia.
  - destruct (str_in ty goal_types) eqn:E; [by apply str_in_In|]. by left.
  - intros Hin. apply str_in_In in Hin. by rewrite Hin.
  - unfold get_goal, locate. cbn [goals set_goals completed_goals].
    rewrite find_index_app.
    destruct (find_index (has_id (new_goal_id now s)) (goals s)) as [i|] eqn:Ei.
    { exfalso. apply Hfresh. destruct (find_index_Some _ _ _ Ei) as (g & Hg & Hid & _).
      apply has_id_true in Hid. rewrite <- Hid. unfold ids. apply in_map.
      apply in_or_app. left. apply list_elem_of_In. by eapply list_elem_of_lookup_2. }
    cbn [find_index]. unfold has_id at 1. cbn [id]. rewrite String.eqb_refl.
    cbn. rewrite Nat.add_0_r. by rewrite list_lookup_middle.
  - intros x Hx. cbn [id] in Hx. unfold get_goal, locate.
    cbn [goals set_goals completed_goals]. rewrite find_index_app.
    destruct (find_index (has_id x) (goals s)) as [i|] eqn:Ei.
    + destruct (find_index_Some _ _ _ Ei) as (g & Hg & _).
      cbn. rewrite lookup_app_l by (by eapply lookup_lt_Some). done.
    + cbn [find_index]. unfold has_id at 1. cbn [id].
      assert (String.eqb (new_goal_id now s) x = false) as ->
        by (apply String.eqb_neq; congruence).
      cbn. by destruct (find_index (has_id x) (completed_goals s)).
Qed.

Lemma set_goal_stores_witness :
  let s := run [OpSetGoal "learn Rocq" "skill_development" 3 None 1]
               (init default_config None 0) in
  exists g,
    set_goal "write the report" "reporting" 9 None 2 s
    = (set_goals (goals s ++ [g]) s, SetGoalOk g)
    /\ core g = (new_goal_id 2 s, "active", 0%Q)
    /\ description g = "write the report"
    /\ In (type g) goal_types /\ (In "reporting" goal_types -> type g = "reporting")
    /\ 1 <= priority g <= 5 /\ (1 <= 9 <= 5 -> priority g = 9)
    /\ get_goal (set_goals (goals s ++ [g]) s) (id g) = Some g
    /\ forall x, x <> id g -> get_goal (set_goals (goals s ++ [g]) s) x = get_goal s x.
Proof.
  intros s. apply (set_goal_stores "write the report" "reporting" 9 None 2 s).
  - discriminate.
  - vm_compute. intros [H|[]]. discriminate H.
Defined.

(** *** What an update does to the subtasks *)

(** A successful [update_progress] marks the listed subtasks and no others:
    the goal it stores has the same subtasks in the same order, a subtask
    is completed afterwards exactly when it was completed before or its id
    is listed, so none is ever reopened.  For a goal with subtasks the new
    progress is at least the share of completed subtasks, and the call
    reports the goal as completed exactly when the new progress is 100. *)
Theorem update_progress_subtasks (goal_id : string) (p : Q) (subs : list string) (now : Q)
    (s : t) (g : Goal) (r_id : string) (old new : Q) (completed : bool) :
  get_goal s goal_id = Some g ->
  (update_progress goal_id p subs now s).2 = UpdateSuccess r_id old new completed ->
  exists g',
    In g' (goals (update_progress goal_id p subs now s).1
           ++ completed_goals (update_progress goal_id p subs now s).1)
    /\ id g' = goal_id
    /\ progress g' = new
    /\ map st_id (subtasks g') = map st_id (subtasks g)
    /\ map st_completed (subtasks g')
       = map (fun st => st_completed st || str_in (st_id st) subs) (subtasks g)
    /\ (subtasks g <> [] -> (calculated_progress (subtasks g') <= new)%Q)
    /\ (completed = true <-> (new == 100)%Q).
Proof.
  intros Hg Hres. pose proof (get_goal_id _ _ _ Hg) as Hid.
  unfold get_goal in Hg. destruct (locate s goal_id) as [l|] eqn:Hl; [|done].
  simpl in Hg.
  destruct (String.eqb (status g) "completed") eqn:Est.
  { unfold update_progress in Hres. by rewrite Hl, Hg, Est in Hres. }
  apply String.eqb_neq in Est.
  pose proof (record_progress_core p subs now g) as Hcore.
  pose proof (record_progress_subtasks p subs now g) as Hsubs.
  destruct (mark_completed_spec subs now (subtasks g)) as [Hids Hdone].
  pose proof (in_range_stored_progress p (mark_completed subs now (subtasks g))) as [_ Hle].
  assert (Hshare : subtasks g <> [] ->
            (calculated_progress (mark_completed subs now (subtasks g))
             <= stored_progress p (mark_completed subs now (subtasks g)))%Q).
  { intros Hne. unfold stored_progress.
    destruct (mark_completed subs now (subtasks g)) as [|st sts] eqn:Hm.
    - exfalso. apply Hne. destruct (subtasks g); [done|]. done.
    - apply Q.le_max_r. }
  injection Hcore as Hid3 Hst3 Hp3.
  destruct (update_progress_explicit goal_id p subs now s l g Hl Hg Est)
    as [[Hlow Heq]|[(Hhigh & i & -> & Heq)|(_ & i & _ & Heq)]];
    rewrite Heq in Hres |- *; [| |done]; injection Hres as <- <- <- <-;
    remember (record_progress p subs now g) as g3 eqn:Eg3; clear Eg3;
    cbn [fst snd].
  - exists (set_updated_at now g3). repeat split; try done.
    + apply list_elem_of_In, elem_of_app.
      pose proof (read_write_same s l g (set_updated_at now g3) Hg) as Hread.
      destruct l as [i|i]; [left|right]; by eapply list_elem_of_lookup_2.
    + cbn. congruence.
    + cbn [subtasks set_updated_at]. by rewrite Hsubs.
    + cbn [subtasks set_updated_at]. by rewrite Hsubs.
    + intros Hne. cbn [subtasks set_updated_at progress]. rewrite Hsubs, Hp3. by apply Hshare.
    + intros Heq100. exfalso. apply Hlow. cbn in Heq100. rewrite Heq100. apply Qle_refl.
  - exists (set_updated_at now (set_completed now g3)). repeat split; try done.
    + cbn [completed_goals goals]. apply in_or_app. right. apply in_or_app. right. by left.
    + cbn. congruence.
    + cbn [subtasks set_updated_at set_completed]. by rewrite Hsubs.
    + cbn [subtasks set_updated_at set_completed]. by rewrite Hsubs.
    + intros Hne. cbn [subtasks set_updated_at set_completed progress].
      rewrite Hsubs, Hp3. by apply Hshare.
    + intros _. cbn. apply Qle_antisym; [by rewrite Hp3|done].
Qed.

Lemma update_progress_subtasks_witness :
  let s := run [OpSetGoal "learn Rocq" "skill_development" 3 None 1;
                OpDecompose "goal_1_0";
                OpUpdateProgress "goal_1_0" 10 ["goal_1_0_sub2"] 2]
               (init default_config None 0) in
  exists g0 g',
    get_goal s "goal_1_0" = Some g0
    /\ In g' (goals (update_progress "goal_1_0" 0 ["goal_1_0_sub1"] 3 s).1
              ++ completed_goals (update_progress "goal_1_0" 0 ["goal_1_0_sub1"] 3 s).1)
    /\ id g' = "goal_1_0"
    /\ progress g' = (200 # 4)%Q
    /\ map st_id (subtasks g') = map st_id (subtasks g0)
    /\ map st_completed (subtasks g')
       = map (fun st => st_completed st || str_in (st_id st) ["goal_1_0_sub1"]) (subtasks g0)
    /\ (subtasks g0 <> [] -> (calculated_progress (subtasks g') <= 200 # 4)%Q)
    /\ (false = true <-> (200 # 4 == 100)%Q).
Proof.
  intros s.
  destruct (get_goal s "goal_1_0") as [g0|] eqn:Hg0; [|by vm_compute in Hg0].
  exists g0.
  destruct (update_progress_subtasks "goal_1_0" 0 ["goal_1_0_sub1"] 3 s g0
              "goal_1_0" (100 # 4) (200 # 4) false Hg0) as (g' & H).
  - vm_compute. reflexivity.
  - by exists g'.
Defined.

(** *** Priorities and types *)

Lemma goals_valid_write l g' s :
  goals_valid s -> valid_goal g' -> goals_valid (write l g' s).
Proof.
  intros [Hg Hc] Hv. destruct l as [i|i]; simpl; split; try done; by apply Forall_insert.
Qed.

Lemma goals_valid_decomposed s s' :
  only_decomposed s s' -> goals_valid s -> goals_valid s'.
Proof.
  assert (Hlist : forall l l', Forall2 decomposed l l' -> Forall valid_goal l ->
                               Forall valid_goal l').
  { induction 1 as [|g g' l l' Hd _ IH]; [done|].
    rewrite !Forall_cons. intros [Hv Hl]. split; [|by apply IH].
    apply decomposed_id in Hd. unfold valid_goal in *.
    assert (priority g' = priority g) as -> by (by injection Hd).
    assert (type g' = type g) as -> by (by injection Hd). done. }
  intros (Hg & Hc & _) [Hvg Hvc]. split; by eapply Hlist.
Qed.

Lemma record_progress_valid p subs now g :
  valid_goal g -> valid_goal (record_progress p subs now g).
Proof.
  unfold record_progress, valid_goal. simpl.
  by destruct (mark_completed subs now (subtasks g)).
Qed.

Lemma review_goal_valid now i s r :
  goals_valid s -> goals_valid (review_goal now i s r).1.2.
Proof.
  intros [Hg Hc]. unfold review_goal. destruct (goals s !! i) as [g|] eqn:Hi; [|done].
  assert (Hv : valid_goal g).
  { rewrite Forall_forall in Hg. apply Hg. by eapply list_elem_of_lookup_2. }
  set (g1 := set_reviewed now g).
  assert (Hv1 : valid_goal g1) by done.
  set (s1 := set_goals (<[i:=g1]> (goals s)) s).
  assert (Hs1 : goals_valid s1) by (split; [by apply Forall_insert|done]).
  clearbody s1 g1.
  assert (Hlast : forall (here : option nat) (s2 : t),
    goals_valid s2 ->
    goals_valid
      match here with
      | Some k =>
          match goals s2 !! k with
          | Some goal =>
              set_goals
                (<[k := set_dependencies (drop_settled_dependencies s2 (dependencies goal)) goal]>
                   (goals s2)) s2
          | None => s2
          end
      | None => s2
      end).
  { intros [k|] s2 [Hg2 Hc2]; [|done].
    destruct (goals s2 !! k) as [gk|] eqn:Hk; [|done].
    split; [|done]. simpl. apply Forall_insert; [done|].
    rewrite Forall_forall in Hg2. apply (Hg2 gk). by eapply list_elem_of_lookup_2. }
  destruct Hs1 as [Hg1 Hc1].
  destruct ((3 <? review_count g1) && Qltb (progress g1) 30).
  - destruct (5 <? review_count g1).
    + destruct (find_index (fun g0 => goal_eqb g0 g1) (goals s1)) as [j|].
      * refine (Hlast (if (j <? i)%nat then Some (i - 1)%nat else None)
                  (set_goals (delete j (goals s1)) s1) _).
        split; [|done]. simpl. by apply Forall_delete.
      * exact (Hlast (Some i) s1 (conj Hg1 Hc1)).
    + destruct (1 <? priority g1) eqn:Hp.
      * refine (Hlast (Some i)
                  (set_goals (<[i := set_priority (priority g1 - 1) g1]> (goals s1)) s1) _).
        split; [|done]. simpl. apply Forall_insert; [done|].
        apply Z.ltb_lt in Hp. destruct Hv1 as [Hrange Hty]. split; [simpl; lia|done].
      * exact (Hlast (Some i) s1 (conj Hg1 Hc1)).
  - exact (Hlast (Some i) s1 (conj Hg1 Hc1)).
Qed.

Lemma review_loop_valid n now i s r :
  goals_valid s -> goals_valid (review_loop n now i s r).1.
Proof.
  revert i s r. induction n as [|n IH]; intros i s r Hv; simpl; [done|].
  pose proof (review_goal_valid now i s r Hv) as Hstep.
  destruct (review_goal now i s r) as [[next s1] r1]. by apply IH.
Qed.

Lemma normalised_type ty :
  In (if str_in ty goal_types then ty else "knowledge_acquisition") goal_types.
Proof. destruct (str_in ty goal_types) eqn:E; [by apply str_in_In|by left]. Qed.

Lemma goals_valid_exec op s : goals_valid s -> goals_valid (exec op s).
Proof.
  intros Hv. pose proof Hv as [Hg Hc].
  destruct op as [d ty pr dl now|gid|gid p subs now|gid dep| |now today draws]; simpl.
  - unfold set_goal. destruct (String.eqb d ""); [done|]. split; [|done].
    cbn [fst goals set_goals].
    apply Forall_app. split; [done|]. constructor; [|done].
    split; [cbn [priority]; lia|apply normalised_type].
  - eapply goals_valid_decomposed; [apply decompose_goal_only_decomposed|done].
  - unfold update_progress at 1.
    destruct (locate s gid) as [l|] eqn:Hl; [|done].
    destruct (read s l) as [g|] eqn:Hr; [|done].
    destruct (String.eqb (status g) "completed") eqn:Est; [done|].
    apply String.eqb_neq in Est.
    assert (Hvg : valid_goal g).
    { apply (Forall_forall valid_goal (goals s ++ completed_goals s));
        [by apply Forall_app|].
      apply elem_of_app. destruct l as [i|i]; [left|right]; by eapply list_elem_of_lookup_2. }
    pose proof (record_progress_valid p subs now g Hvg) as Hv3.
    destruct (update_progress_explicit gid p subs now s l g Hl Hr Est)
      as [[_ Heq]|[(_ & i & -> & Heq)|(_ & i & -> & Heq)]];
      unfold update_progress in Heq; rewrite Hl, Hr in Heq;
      rewrite (proj2 (String.eqb_neq _ _) Est) in Heq; rewrite Heq; cbn [fst].
    + by apply goals_valid_write.
    + split; simpl; [by apply Forall_delete|].
      apply Forall_app. split; [done|]. by constructor.
    + by apply goals_valid_write.
  - destruct (add_dependency gid dep s) as [[s' [|]]|] eqn:E; [| |done].
    + destruct (add_dependency_success _ _ _ _ E) as (l & g & deps' & Hl & Hr & _ & _ & _ & ->).
      apply goals_valid_write; [done|]. change (valid_goal g).
      apply (Forall_forall valid_goal (goals s ++ completed_goals s));
        [by apply Forall_app|].
      apply elem_of_app. destruct l as [i|i]; [left|right]; by eapply list_elem_of_lookup_2.
    + by rewrite (add_dependency_rejected _ _ _ _ E).
  - eapply goals_valid_decomposed; [|done]. unfold get_next_task.
    apply next_task_loop_only_decomposed.
  - unfold review_goals. destruct (Qltb now (next_review_time s)); [done|].
    pose proof (review_loop_valid (length (goals s)) now 0 s (mkReviewResults 0 0 0 0 0) Hv)
      as Hloop.
    destruct (review_loop _ _ _ _ _) as [s1 r1]. rewrite add_suggested_unbound.
    by destruct (suggest_new_goals today s1).
Qed.

(** Priorities and types stay as [set_goal] makes them.  If every stored goal
    has a priority between 1 and 5 and a type in [goal_types], the same holds
    after any sequence of calls: a review lowers the priority of a stalled
    goal, but never below 1, and nothing else changes either field. *)
Theorem priority_and_type_kept (ops : list Op) (s : t) :
  goals_valid s -> goals_valid (run ops s).
Proof.
  revert s. induction ops as [|op ops IH]; intros s Hs; simpl; [done|].
  apply IH. by apply goals_valid_exec.
Qed.

Lemma priority_and_type_kept_witness :
  let review := OpReview 4000 0 (fun _ => 0%Q) in
  goals_valid
    (run [OpSetGoal "learn Rocq" "studying" 0 None 1;
          OpSetGoal "write the report" "creation" 9 None 1;
          review; review; review; review; review]
       (init default_config None 0)).
Proof.
  apply (priority_and_type_kept _ (init default_config None 0)).
  split; constructor.
Defined.

(** *** Dependencies over a run *)

Lemma listed_in_app l1 l2 x d :
  listed_in (l1 ++ l2) x d <-> listed_in l1 x d \/ listed_in l2 x d.
Proof.
  unfold listed_in. split.
  - intros (g & Hin & H). apply in_app_or in Hin as [Hin|Hin]; [left|right]; eauto.
  - intros [(g & Hin & H)|(g & Hin & H)]; exists g; (split; [|done]);
      apply in_or_app; auto.
Qed.

Lemma listed_in_insert l i g g' x d :
  l !! i = Some g -> id g' = id g ->
  (forall d, In d (dependencies g') -> In d (dependencies g)) ->
  listed_in (<[i:=g']> l) x d -> listed_in l x d.
Proof.
  intros Hi Hid Hdeps (g0 & Hin & Hx & Hd).
  apply list_elem_of_In, list_elem_of_lookup in Hin as [j Hj].
  destruct (decide (j = i)) as [->|Hne].
  - rewrite list_lookup_insert_eq in Hj by (by eapply lookup_lt_Some).
    injection Hj as <-. exists g. split; [|split; [congruence|by apply Hdeps]].
    apply list_elem_of_In. by eapply list_elem_of_lookup_2.
  - rewrite list_lookup_insert_ne in Hj by done.
    exists g0. split; [|done]. apply list_elem_of_In. by eapply list_elem_of_lookup_2.
Qed.

Lemma listed_in_delete l i x d : listed_in (delete i l) x d -> listed_in l x d.
Proof.
  intros (g & Hin & H). exists g. split; [|done].
  apply list_elem_of_In. apply list_elem_of_In in Hin.
  eapply elem_of_sublist; [exact Hin|]. apply sublist_delete.
Qed.

Lemma listed_write s l g g' x d :
  read s l = Some g -> id g' = id g ->
  (forall d, In d (dependencies g') -> In d (dependencies g)) ->
  listed (write l g' s) x d -> listed s x d.
Proof.
  intros Hr Hid Hdeps. unfold listed. rewrite !listed_in_app.
  destruct l as [i|i]; simpl in *; intros [H|H]; auto; [left|right];
    by eapply listed_in_insert.
Qed.

Lemma listed_decomposed s s' x d : only_decomposed s s' -> listed s' x d -> listed s x d.
Proof.
  assert (Hlist : forall l l', Forall2 decomposed l l' -> listed_in l' x d -> listed_in l x d).
  { intros l l' HF (g' & Hin & Hx & Hd).
    apply list_elem_of_In, list_elem_of_lookup in Hin as [i Hi].
    destruct (Forall2_lookup_r _ _ _ _ _ HF Hi) as (g & Hg & Hdec).
    apply decomposed_id in Hdec. exists g. split; [|split].
    - apply list_elem_of_In. by eapply list_elem_of_lookup_2.
    - rewrite <- Hx. by injection Hdec.
    - assert (dependencies g' = dependencies g) as <- by (by injection Hdec). done. }
  intros (Hg & Hc & _). unfold listed. rewrite !listed_in_app.
  intros [H|H]; [left|right]; by eapply Hlist.
Qed.

Lemma record_progress_dependencies p subs now g :
  dependencies (record_progress p subs now g) = dependencies g.
Proof.
  unfold record_progress. simpl. by destruct (mark_completed subs now (subtasks g)).
Qed.

Lemma list_remove_In {A} (eqb : A -> A -> bool) x l l' :
  list_remove eqb x l = Some l' -> forall d, In d l' -> In d l.
Proof.
  revert l'. induction l as [|y l IH]; intros l'; simpl; [done|].
  destruct (eqb y x).
  - intros [= <-] d Hd. by right.
  - destruct (list_remove eqb x l) as [l0|]; [|done]. simpl. intros [= <-] d [->|Hd].
    + by left.
    + right. by apply (IH l0).
Qed.

Lemma drop_settled_dependencies_In s deps d :
  In d (drop_settled_dependencies s deps) -> In d deps.
Proof.
  unfold drop_settled_dependencies.
  assert (Hfold : forall (todo current : list string),
            (forall d, In d current -> In d deps) ->
            forall d,
              In d (fold_left
                      (fun current dep_id =>
                         match get_goal s dep_id with
                         | Some dep_goal =>
                             if String.eqb (status dep_goal) "completed"
                             then default current (list_remove String.eqb dep_id current)
                             else current
                         | None => default current (list_remove String.eqb dep_id current)
                         end) todo current) ->
              In d deps).
  { induction todo as [|x todo IH]; intros current Hsub d0; simpl; [apply Hsub|].
    apply IH. intros d1.
    assert (Hrm : In d1 (default current (list_remove String.eqb x current)) -> In d1 deps).
    { destruct (list_remove String.eqb x current) as [l'|] eqn:E; simpl; [|apply Hsub].
      intros Hd. apply Hsub. by eapply list_remove_In. }
    destruct (get_goal s x) as [gx|]; [|done].
    destruct (String.eqb (status gx) "completed"); [done|apply Hsub]. }
  by apply Hfold.
Qed.

Lemma review_goal_listed now i s r x d :
  listed (review_goal now i s r).1.2 x d -> listed s x d.
Proof.
  unfold review_goal. destruct (goals s !! i) as [g|] eqn:Hi; [|done].
  set (g1 := set_reviewed now g).
  set (s1 := set_goals (<[i:=g1]> (goals s)) s).
  assert (Hs1 : forall x d, listed s1 x d -> listed s x d).
  { intros x0 d0. apply (listed_write s (InGoals i) g g1); done. }
  assert (Hg1 : goals s1 !! i = Some g1).
  { simpl. apply list_lookup_insert_eq. by eapply lookup_lt_Some. }
  clearbody s1 g1.
  assert (Hlast : forall (here : option nat) (s2 : t),
    (forall x d, listed s2 x d -> listed s x d) ->
    listed
      match here with
      | Some k =>
          match goals s2 !! k with
          | Some goal =>
              set_goals
                (<[k := set_dependencies (drop_settled_dependencies s2 (dependencies goal)) goal]>
                   (goals s2)) s2
          | None => s2
          end
      | None => s2
      end x d -> listed s x d).
  { intros [k|] s2 Hs2; [|apply Hs2].
    destruct (goals s2 !! k) as [gk|] eqn:Hk; [|apply Hs2].
    intros H. apply Hs2.
    apply (listed_write s2 (InGoals k) gk
             (set_dependencies (drop_settled_dependencies s2 (dependencies gk)) gk));
      [done|done| |done].
    intros d0. apply drop_settled_dependencies_In. }
  destruct ((3 <? review_count g1) && Qltb (progress g1) 30).
  - destruct (5 <? review_count g1).
    + destruct (find_index (fun g0 => goal_eqb g0 g1) (goals s1)) as [j|].
      * refine (Hlast (if (j <? i)%nat then Some (i - 1)%nat else None)
                  (set_goals (delete j (goals s1)) s1) _).
        intros x0 d0 H. apply Hs1. revert H. unfold listed. rewrite !listed_in_app.
        simpl. intros [H|H]; [left|by right]. by eapply listed_in_delete.
      * exact (Hlast (Some i) s1 Hs1).
    + destruct (1 <? priority g1).
      * refine (Hlast (Some i)
                  (set_goals (<[i := set_priority (priority g1 - 1) g1]> (goals s1)) s1) _).
        intros x0 d0 H. apply Hs1.
        by apply (listed_write s1 (InGoals i) g1 (set_priority (priority g1 - 1) g1)).
      * exact (Hlast (Some i) s1 Hs1).
  - exact (Hlast (Some i) s1 Hs1).
Qed.

Lemma review_loop_listed n now i s r x d :
  listed (review_loop n now i s r).1 x d -> listed s x d.
Proof.
  revert i s r. induction n as [|n IH]; intros i s r; simpl; [done|].
  pose proof (review_goal_listed now i s r x d) as Hstep.
  destruct (review_goal now i s r) as [[next s1] r1]. simpl in Hstep.
  intros H. by apply Hstep, (IH next s1 r1).
Qed.

(** No call but [add_dependency] gives a goal a dependency it did not list. *)
Lemma exec_listed op s x d :
  (forall a b, op <> OpAddDependency a b) ->
  listed (exec op s) x d -> listed s x d.
Proof.
  intros Hop.
  destruct op as [descr ty pr dl now|gid|gid p subs now|gid dep| |now today draws]; simpl.
  - unfold set_goal. destruct (String.eqb descr ""); [done|]. cbn [fst].
    unfold listed. cbn [goals set_goals completed_goals]. rewrite !listed_in_app.
    intros [[H|(g & [<-|[]] & _ & [])]|H]; auto.
  - apply listed_decomposed, decompose_goal_only_decomposed.
  - unfold update_progress at 1.
    destruct (locate s gid) as [l|] eqn:Hl; [|done].
    destruct (read s l) as [g|] eqn:Hr; [|done].
    destruct (String.eqb (status g) "completed") eqn:Est; [done|].
    apply String.eqb_neq in Est.
    pose proof (record_progress_core p subs now g) as Hcore.
    pose proof (record_progress_dependencies p subs now g) as Hdeps.
    injection Hcore as Hid3 _ _.
    destruct (update_progress_explicit gid p subs now s l g Hl Hr Est)
      as [[_ Heq]|[(_ & i & -> & Heq)|(_ & i & -> & Heq)]];
      unfold update_progress in Heq; rewrite Hl, Hr in Heq;
      rewrite (proj2 (String.eqb_neq _ _) Est) in Heq; rewrite Heq; cbn [fst];
      remember (record_progress p subs now g) as g3 eqn:Eg3; clear Eg3 Heq.
    + apply (listed_write s l g); [done|done|]. cbn. by rewrite Hdeps.
    + unfold listed. cbn [goals completed_goals]. rewrite !listed_in_app.
      intros [H|[H|(g' & [<-|[]] & Hx & Hd)]].
      * left. by eapply listed_in_delete.
      * by right.
      * left. exists g. split; [|split].
        -- apply list_elem_of_In. by eapply list_elem_of_lookup_2.
        -- rewrite <- Hx. cbn. congruence.
        -- cbn in Hd. by rewrite Hdeps in Hd.
    + apply (listed_write s (InCompleted i) g); [done|done|]. cbn. by rewrite Hdeps.
  - by destruct (Hop gid dep).
  - apply listed_decomposed. unfold get_next_task. apply next_task_loop_only_decomposed.
  - unfold review_goals. destruct (Qltb now (next_review_time s)); [done|].
    pose proof (review_loop_listed (length (goals s)) now 0 s (mkReviewResults 0 0 0 0 0) x d)
      as Hloop.
    destruct (review_loop _ _ _ _ _) as [s1 r1]. rewrite add_suggested_unbound.
    by destruct (suggest_new_goals today s1).
Qed.

Lemma NoDup_map_id_eq (l : list Goal) g g' :
  NoDup (map id l) -> In g l -> In g' l -> id g = id g' -> g = g'.
Proof.
  intros Hnd Hg Hg' Hid.
  apply list_elem_of_In, list_elem_of_lookup in Hg as [i Hi].
  apply list_elem_of_In, list_elem_of_lookup in Hg' as [j Hj].
  assert (i = j).
  { eapply NoDup_lookup; [exact Hnd| |];
      change (map id l) with (id <$> l); rewrite list_lookup_fmap.
    - by rewrite Hi.
    - rewrite Hj. simpl. by rewrite Hid. }
  congruence.
Qed.

(** With unique ids, [get_goal] finds every stored goal under its id. *)
Lemma get_goal_unique s g :
  NoDup (ids s) -> In g (goals s ++ completed_goals s) -> get_goal s (id g) = Some g.
Proof.
  intros Hnd Hin. destruct (get_goal s (id g)) as [g'|] eqn:Hg.
  - f_equal. apply (NoDup_map_id_eq (goals s ++ completed_goals s)); try done.
    + by eapply get_goal_In.
    + by eapply get_goal_id.
  - exfalso. apply (get_goal_None _ _ Hg). unfold ids. by apply in_map.
Qed.

Lemma depends_on_listed s x d : depends_on s x d -> listed s x d.
Proof.
  intros (g & Hg & Hd). exists g. split; [by eapply get_goal_In|].
  split; [by eapply get_goal_id|done].
Qed.

Lemma listed_depends_on s x d : NoDup (ids s) -> listed s x d -> depends_on s x d.
Proof.
  intros Hnd (g & Hin & <- & Hd). exists g. split; [by apply get_goal_unique|done].
Qed.

Lemma tc_incl {A} (R R' : relation A) x y :
  (forall a b, R a b -> R' a b) -> tc R x y -> tc R' x y.
Proof.
  intros Hincl. induction 1 as [x y H|x y z H _ IH].
  - apply tc_once. by apply Hincl.
  - eapply tc_l; [by apply Hincl|done].
Qed.

Lemma acyclic_exec op s : well_formed s -> acyclic s -> acyclic (exec op s).
Proof.
  intros [Hnd _] Hacyclic.
  assert (Hother : (forall a b, op <> OpAddDependency a b) -> acyclic (exec op s)).
  { intros Hop x Hcycle. apply (Hacyclic x). eapply tc_incl; [|exact Hcycle].
    intros y d Hdep. apply listed_depends_on; [done|].
    apply (exec_listed op); [done|by apply depends_on_listed]. }
  destruct op as [descr ty pr dl now|gid|gid p subs now|a b| |now today draws];
    try (apply Hother; intros; discriminate).
  simpl. destruct (add_dependency a b s) as [[s' ok]|] eqn:E; [|done].
  intros x Hcycle. apply (Hacyclic x). by eapply add_dependency_cycle.
Qed.

(** The dependencies of a goal system stay free of cycles.  From a store
    with unique ids in which no goal depends on itself through a chain of
    dependencies, no sequence of calls leads to a store in which one does,
    as long as [set_goal] is not called at a time when the id it builds is
    in use. *)
Theorem dependencies_stay_acyclic (ops : list Op) (s : t) :
  well_formed s -> fresh_ids ops s = true -> acyclic s -> acyclic (run ops s).
Proof.
  revert s. induction ops as [|op ops IH]; intros s Hwf Hfresh Hacyclic; [done|].
  apply fresh_ids_cons in Hfresh as [Hop Hops].
  change (run (op :: ops) s) with (run ops (exec op s)).
  apply IH; [by apply well_formed_exec|done|by apply acyclic_exec].
Qed.

Lemma dependencies_stay_acyclic_witness :
  let review := OpReview 4000 0 (fun _ => 0%Q) in
  acyclic
    (run [OpSetGoal "learn Rocq" "skill_development" 3 None 1;
          OpSetGoal "write the report" "creation" 4 None 1;
          OpAddDependency "goal_1_0" "goal_1_1";
          OpAddDependency "goal_1_1" "goal_1_0";
          OpUpdateProgress "goal_1_1" 100 [] 2;
          review;
          OpNextTask]
       (init default_config None 0)).
Proof.
  apply (dependencies_stay_acyclic _ (init default_config None 0)).
  - apply well_formed_init.
  - vm_compute. reflexivity.
  - apply acyclic_no_dependencies. constructor.
Defined.

(** *** The dependencies a review drops *)

Lemma list_remove_middle (pre post : list string) x :
  ~ In x pre -> list_remove String.eqb x (pre ++ x :: post) = Some (pre ++ post).
Proof.
  induction pre as [|y pre IH]; simpl; intros Hnin.
  - by rewrite String.eqb_refl.
  - assert (String.eqb y x = false) as -> by (apply String.eqb_neq; intros ->; tauto).
    rewrite IH by tauto. done.
Qed.

(** The loop of [review_goals] over a copy of [goal["dependencies"]], which
    removes from the list while it goes, keeps exactly the dependencies
    whose goal exists and is not completed, in their order. *)
Theorem drop_settled_dependencies_filter (s : t) (deps : list string) :
  drop_settled_dependencies s deps
  = List.filter
      (fun dep_id =>
         match get_goal s dep_id with
         | Some dep_goal => negb (String.eqb (status dep_goal) "completed")
         | None => false
         end)
      deps.
Proof.
  unfold drop_settled_dependencies.
  set (pending := fun dep_id =>
         match get_goal s dep_id with
         | Some dep_goal => negb (String.eqb (status dep_goal) "completed")
         | None => false
         end).
  set (step := fun (current : list string) dep_id =>
         match get_goal s dep_id with
         | Some dep_goal =>
             if String.eqb (status dep_goal) "completed"
             then default current (list_remove String.eqb dep_id current)
             else current
         | None => default current (list_remove String.eqb dep_id current)
         end).
  assert (Hloop : forall todo kept,
            Forall (fun d => pending d = true) kept ->
            fold_left step todo (kept ++ todo) = kept ++ List.filter pending todo).
  { induction todo as [|x todo IH]; intros kept Hkept; [done|].
    cbn [fold_left List.filter].
    assert (Hdrop : pending x = false ->
              default (kept ++ x :: todo) (list_remove String.eqb x (kept ++ x :: todo))
              = kept ++ todo).
    { intros Hx. rewrite list_remove_middle; [done|].
      intros Hin. rewrite Forall_forall in Hkept.
      apply list_elem_of_In, Hkept in Hin. congruence. }
    destruct (pending x) eqn:Hx.
    - assert (step (kept ++ x :: todo) x = (kept ++ [x]) ++ todo) as ->.
      { unfold step. unfold pending in Hx. destruct (get_goal s x) as [gx|]; [|done].
        apply negb_true_iff in Hx. rewrite Hx. by rewrite <- app_assoc. }
      rewrite IH; [by rewrite <- app_assoc|].
      apply Forall_app. split; [done|]. by constructor.
    - assert (step (kept ++ x :: todo) x = kept ++ todo) as ->.
      { unfold step. unfold pending in Hx. destruct (get_goal s x) as [gx|].
        - apply negb_false_iff in Hx. rewrite Hx. by apply Hdrop.
        - by apply Hdrop. }
      by apply IH. }
  exact (Hloop deps [] (Forall_nil_2 _)).
Qed.

(** *** Statistics *)

Section CountingFacts.
Context {K : Type} (eqb : K -> K -> bool).
Hypothesis eqb_eq : forall a b, eqb a b = true <-> a = b.

Lemma count_of_bump_same k counts :
  count_of eqb k (bump eqb k counts) = Some (default 0 (count_of eqb k counts) + 1).
Proof.
  induction counts as [|[k' n] counts IH]; simpl.
  - by rewrite (proj2 (eqb_eq k k) eq_refl).
  - destruct (eqb k' k) eqn:E; simpl; rewrite E; [done|exact IH].
Qed.

Lemma count_of_bump_other k k0 counts :
  k <> k0 -> count_of eqb k0 (bump eqb k counts) = count_of eqb k0 counts.
Proof.
  intros Hne. induction counts as [|[k' n] counts IH]; simpl.
  - destruct (eqb k k0) eqn:E; [|done]. by apply eqb_eq in E.
  - destruct (eqb k' k) eqn:E; simpl; [|by rewrite IH].
    destruct (eqb k' k0) eqn:E0; [|done].
    apply eqb_eq in E, E0. congruence.
Qed.

Lemma total_bump k counts : total (bump eqb k counts) = total counts + 1.
Proof.
  induction counts as [|[k' n] counts IH]; [done|].
  cbn [bump]. destruct (eqb k' k).
  - unfold total. cbn [fold_right snd]. lia.
  - change (total ((k', n) :: bump eqb k counts)) with (n + total (bump eqb k counts)).
    change (total ((k', n) :: counts)) with (n + total counts). lia.
Qed.

Lemma count_of_fold (key : Goal -> K) k l acc :
  count_of eqb k (fold_left (fun counts goal => bump eqb (key goal) counts) l acc)
  = let n := len (List.filter (fun g => eqb (key g) k) l) in
    match count_of eqb k acc with
    | Some m => Some (m + n)
    | None => if 0 <? n then Some n else None
    end.
Proof.
  revert acc. induction l as [|g l IH]; intros acc.
  - unfold len. simpl. destruct (count_of eqb k acc); [f_equal; lia|done].
  - cbn [fold_left List.filter]. rewrite IH. cbv zeta.
    assert (Hpos : 0 <= len (List.filter (fun g0 => eqb (key g0) k) l))
      by (unfold len; lia).
    destruct (eqb (key g) k) eqn:E.
    + apply eqb_eq in E. rewrite E, count_of_bump_same.
      unfold len in *. cbn [length]. rewrite Nat2Z.inj_succ.
      destruct (count_of eqb k acc) as [m|]; simpl.
      * f_equal. lia.
      * destruct (Z.ltb_spec 0 (Z.succ (Z.of_nat (length (List.filter (fun g0 => eqb (key g0) k) l)))));
          [f_equal; lia|lia].
    + rewrite count_of_bump_other; [done|]. intros Heq. apply eqb_eq in Heq. congruence.
Qed.

Lemma total_fold (key : Goal -> K) l acc :
  total (fold_left (fun counts goal => bump eqb (key goal) counts) l acc) = total acc + len l.
Proof.
  revert acc. induction l as [|g l IH]; intros acc; simpl.
  - unfold len. simpl. lia.
  - rewrite IH, total_bump. unfold len. simpl length. lia.
Qed.

End CountingFacts.

Lemma sum_progress_bounds l acc :
  Forall (fun g => in_range (progress g)) l ->
  (acc <= fold_left (fun acc goal => acc + progress goal) l acc
   /\ fold_left (fun acc goal => acc + progress goal) l acc <= acc + 100 * inject_Z (len l))%Q.
Proof.
  intros Hall. revert acc. induction Hall as [|g l [Hlo Hhi] _ IH]; intros acc.
  - cbn [fold_left]. change (inject_Z (len (@nil Goal))) with 0%Q. split; lra.
  - cbn [fold_left]. destruct (IH (acc + progress g)%Q) as [IH1 IH2].
    unfold len in *. cbn [length]. rewrite Nat2Z.inj_succ, <- Z.add_1_r, inject_Z_plus.
    change (inject_Z 1) with 1%Q. split; lra.
Qed.

Lemma insert_by_completed_at_length x l :
  length (insert_by_completed_at x l) = S (length l).
Proof.
  induction l as [|y l IH]; simpl; [done|].
  destruct (completed_at_le _ _); simpl; by rewrite ?IH.
Qed.

(** [get_goal_stats] counts every active goal once under its type and once
    under its priority: the count reported for a type or a priority is the
    number of active goals that have it (and the key is absent when there is
    none), and each of the two dicts sums to [active_goals], the length of
    [goals].  The average progress is between 0 and 100 when every active
    goal's is, the time to the next review is never negative, and at most
    five completed goals are listed. *)
Theorem get_goal_stats_counts (now : Q) (s : t) :
  let stats := get_goal_stats now s in
  stat_active_goals stats = len (goals s)
  /\ (forall ty,
        count_of String.eqb ty (stat_goal_types stats)
        = let n := len (List.filter (fun g => String.eqb (type g) ty) (goals s)) in
          if 0 <? n then Some n else None)
  /\ (forall p,
        count_of Z.eqb p (stat_priority_distribution stats)
        = let n := len (List.filter (fun g => (priority g =? p)%Z) (goals s)) in
          if 0 <? n then Some n else None)
  /\ total (stat_goal_types stats) = stat_active_goals stats
  /\ total (stat_priority_distribution stats) = stat_active_goals stats
  /\ (Forall (fun g => in_range (progress g)) (goals s) ->
      in_range (stat_average_progress stats))
  /\ (0 <= stat_next_review_in_seconds stats)%Q
  /\ length (stat_recently_completed stats) = (5 `min` length (completed_goals s))%nat.
Proof.
  intros stats. unfold stats, get_goal_stats. cbn [stat_active_goals stat_goal_types
    stat_priority_distribution stat_average_progress stat_next_review_in_seconds
    stat_recently_completed].
  split; [done|]. split; [|split; [|split; [|split; [|split; [|split]]]]].
  - intros ty. unfold count_by. by rewrite (count_of_fold String.eqb String.eqb_eq).
  - intros p. unfold count_by. by rewrite (count_of_fold Z.eqb Z.eqb_eq).
  - unfold count_by. by rewrite total_fold.
  - unfold count_by. by rewrite total_fold.
  - intros Hall. destruct (goals s) as [|g l] eqn:Hg; [unfold in_range; lra|].
    rewrite <- Hg in *. destruct (sum_progress_bounds (goals s) 0 Hall) as [Hlo Hhi].
    assert (Hn : (0 < inject_Z (len (goals s)))%Q).
    { rewrite Hg. unfold len. simpl length. rewrite Nat2Z.inj_succ.
      change 0%Q with (inject_Z 0). rewrite <- Zlt_Qlt. lia. }
    split.
    + apply Qle_shift_div_l; [done|]. lra.
    + apply Qle_shift_div_r; [done|]. lra.
  - apply Q.le_max_l.
  - rewrite length_map, length_take. f_equal.
    induction (completed_goals s) as [|g l IH]; [done|].
    simpl. by rewrite insert_by_completed_at_length, IH.
Qed.

(** *** Suggestions *)

(** What [suggest_new_goals] suggests.  There are at most four suggestions,
    and each would be stored by [set_goal] as it is: its type is one of
    [goal_types], its priority is between 1 and 5 and its description is
    not empty.  Nothing is suggested exactly when there are at least
    [min_active_goals] and at most 10 active goals, at most 20 completed
    goals, and an optimization goal created since the start of the day. *)
Theorem suggest_new_goals_spec (today : Q) (s : t) :
  let suggestions := suggest_new_goals today s in
  (length suggestions <= 4)%nat
  /\ Forall (fun sg => In (sg_type sg) goal_types
                       /\ 1 <= sg_priority sg <= 5
                       /\ sg_description sg <> "") suggestions
  /\ (suggestions = [] <->
      min_active_goals (config s) <= len (goals s) <= 10
      /\ len (completed_goals s) <= 20
      /\ exists g, In g (goals s ++ completed_goals s)
                   /\ type g = "optimization" /\ (today < created_at g)%Q).
Proof.
  intros suggestions. unfold suggestions, suggest_new_goals.
  assert (Hc2 : existsb (fun g => String.eqb (type g) "optimization"
                                  && Qltb today (created_at g))
                  (goals s ++ completed_goals s) = true
                <-> exists g, In g (goals s ++ completed_goals s)
                              /\ type g = "optimization" /\ (today < created_at g)%Q).
  { rewrite existsb_exists. split; intros (g & Hin & H); exists g; (split; [done|]).
    - apply andb_true_iff in H as [Hty Hlt].
      split; [by apply String.eqb_eq|by apply Qltb_lt].
    - destruct H as [Hty Hlt]. apply andb_true_iff.
      split; [by apply String.eqb_eq|by apply Qltb_lt]. }
  assert (Hc3 : (10 <? len (goals s)) || (20 <? len (completed_goals s)) = false
                <-> len (goals s) <= 10 /\ len (completed_goals s) <= 20).
  { rewrite orb_false_iff, !Z.ltb_ge. done. }
  destruct (Z.ltb_spec (len (goals s)) (min_active_goals (config s))) as [H1|H1];
    destruct (existsb _ (goals s ++ completed_goals s)) eqn:H2;
    destruct ((10 <? len (goals s)) || (20 <? len (completed_goals s))) eqn:H3;
    cbn [app]; (split; [simpl; lia|]);
    (split; [repeat (constructor;
                     [split; [by apply str_in_In|split; [simpl; lia|done]]|]);
             constructor|]);
    (split; [try done|]).
  all: try (intros (Hlen & Hcompleted & Hopt); first
    [ lia
    | (apply Hc2 in Hopt; congruence)
    | (assert ((10 <? len (goals s)) || (20 <? len (completed_goals s)) = false)
         by (apply Hc3; lia); congruence) ]).
  intros _. destruct (proj1 Hc3 eq_refl) as [Hg Hc]. split; [lia|]. split; [done|].
  by apply Hc2.
Qed.

End GoalSystemFacts.
